(** * PromiPoints: the monthly point ledger

    A shallow embedding of the persistence helper (utils/storage.ts), the
    transfer form (components/AssignPoints.tsx), the admin reset
    (components/AdminSettings.tsx), the login handler (components/Login.tsx)
    and the report aggregation of the people dashboard (loadData).

    The browser's key-value store is a record of the collections kept under
    the fixed keys; every [getX] parses a fresh copy and every [setX] writes
    the whole collection back, so the store is threaded explicitly.  JavaScript
    numbers are small integers here and are modelled by [Z].  The clock
    ([getCurrentMonth], [Date.now]) and the random identifier are inputs of
    the handlers that read them; one handler run reads one month.  Strings
    are byte strings; [trim] and [toLowerCase] are parameters of the handlers
    that call them, with ASCII instances for the worked examples. *)

From stdpp Require Import base option list strings gmap.
From Stdlib Require Import ZArith Lia.

Local Open Scope Z_scope.

(** ** Data model (types.ts) *)

Inductive Role := employee | people | superadmin.

Global Instance Role_eq_dec : EqDecision Role.
Proof. solve_decision. Defined.

Record User := mkUser {
  user_id : string;
  user_name : string;
  user_email : string;
  user_role : Role;
  user_department : string;
}.

Global Instance User_eq_dec : EqDecision User.
Proof. solve_decision. Defined.

Record MonthlyAllocation := mkAllocation {
  alloc_userId : string;
  alloc_month : string;
  pointsRemaining : Z;
  pointsReceived : Z;
}.

Record PointAssignment := mkAssignment {
  asg_id : string;
  fromUserId : string;
  toUserId : string;
  asg_points : Z;
  asg_category : string;
  asg_message : option string;
  timestamp : Z;
  asg_month : string;
}.

Record CategoryConfig := mkCategory {
  cat_name : string;
  enabled : bool;
}.

Record LoginContent := mkLoginContent {
  title : string;
  subtitle : string;
  description : string;
  helpEmail : string;
}.

Record OnboardingStep := mkStep {
  step_title : string;
  step_description : string;
  step_details : string;
}.

Inductive SmtpProvider := gmail | outlook | sendgrid | custom.

Record EmailNotificationConfig := mkEmailConfig {
  email_enabled : bool;
  notifyEmployee : bool;
  notifyPeople : bool;
  peopleEmails : list string;
  smtpProvider : SmtpProvider;
  smtpHost : string;
  smtpPort : Z;
  smtpUser : string;
  smtpPassword : string;
  fromEmail : string;
  fromName : string;
}.

(** A configuration as it sits in the store: the JSON object of an older
    version may lack any of the three later fields, and may carry fields the
    current type does not know ([extraFields], kept as raw key/value text). *)
Record SystemConfig := mkConfig {
  categories : list CategoryConfig;
  loginContent : option LoginContent;
  onboardingSteps : option (list OnboardingStep);
  emailNotifications : option EmailNotificationConfig;
  extraFields : list (string * string);
}.

(** The store: one field per storage key; [None] is an absent key. *)
Record Store := mkStore {
  st_currentUser : option User;
  st_users : option (list User);
  st_allocations : option (list MonthlyAllocation);
  st_assignments : option (list PointAssignment);
  st_systemConfig : option SystemConfig;
}.

Definition emptyStore : Store := mkStore None None None None None.

Module storage.

(** [data ? JSON.parse(data) : []] *)
Definition getUsers (s : Store) : list User := default [] (st_users s).

Definition setUsers (us : list User) (s : Store) : Store :=
  mkStore (st_currentUser s) (Some us) (st_allocations s)
          (st_assignments s) (st_systemConfig s).

Definition getAllocations (s : Store) : list MonthlyAllocation :=
  default [] (st_allocations s).

Definition setAllocations (al : list MonthlyAllocation) (s : Store) : Store :=
  mkStore (st_currentUser s) (st_users s) (Some al)
          (st_assignments s) (st_systemConfig s).

(** The predicate of both [find] and [findIndex] on allocations. *)
Definition isAllocationOf (userId month : string) (a : MonthlyAllocation) : Prop :=
  alloc_userId a = userId ∧ alloc_month a = month.

Global Instance isAllocationOf_dec userId month a :
  Decision (isAllocationOf userId month a).
Proof. unfold isAllocationOf. apply _. Defined.

(** [Array.prototype.find]: the first element that satisfies the predicate. *)
Definition find {A} (P : A → Prop) `{∀ x, Decision (P x)} (l : list A) : option A :=
  snd <$> list_find P l.

(** [Array.prototype.findIndex]; [None] stands for [-1]. *)
Definition findIndex {A} (P : A → Prop) `{∀ x, Decision (P x)} (l : list A) : option nat :=
  fst <$> list_find P l.

Definition getUserAllocation (userId month : string) (s : Store)
  : option MonthlyAllocation :=
  find (isAllocationOf userId month) (getAllocations s).

(** The array part of [updateAllocation]: overwrite at the index found, or
    push. *)
Definition putAllocation (allocation : MonthlyAllocation)
    (allocations : list MonthlyAllocation) : list MonthlyAllocation :=
  match findIndex (isAllocationOf (alloc_userId allocation) (alloc_month allocation))
                  allocations with
  | Some index => <[index := allocation]> allocations
  | None => allocations ++ [allocation]
  end.

Definition updateAllocation (allocation : MonthlyAllocation) (s : Store) : Store :=
  setAllocations (putAllocation allocation (getAllocations s)) s.

Definition getAssignments (s : Store) : list PointAssignment :=
  default [] (st_assignments s).

Definition setAssignments (l : list PointAssignment) (s : Store) : Store :=
  mkStore (st_currentUser s) (st_users s) (st_allocations s)
          (Some l) (st_systemConfig s).

Definition addAssignment (a : PointAssignment) (s : Store) : Store :=
  setAssignments (getAssignments s ++ [a]) s.

(** [ensureMonthlyAllocation]; [month] is what [getCurrentMonth()] returns
    at the call.  The result pairs the returned record with the store. *)
Definition ensureMonthlyAllocation (month userId : string) (s : Store)
  : MonthlyAllocation * Store :=
  match getUserAllocation userId month s with
  | Some allocation => (allocation, s)
  | None =>
      let allocation := mkAllocation userId month 10 0 in
      (allocation, updateAllocation allocation s)
  end.

(** ** System configuration *)

(** The double quote, for the one text of the defaults that holds it. *)
Definition doubleQuote : string := String (Ascii.ascii_of_nat 34) EmptyString.

Definition getDefaultConfig : SystemConfig :=
  {| categories :=
       [ mkCategory "Trabajo en equipo" true;
         mkCategory "Innovación" true;
         mkCategory "Liderazgo" true;
         mkCategory "Colaboración" true;
         mkCategory "Compromiso" true;
         mkCategory "Excelencia" true;
         mkCategory "Actitud positiva" true;
         mkCategory "Comunicación efectiva" true ];
     loginContent := Some
       {| title := "PromiPoints";
          subtitle := "Grupo Prominente";
          description := "Sistema de reconocimiento de Grupo Prominente";
          helpEmail := "people@grupoprominente.com" |};
     onboardingSteps := Some
       [ mkStep "¡Bienvenido a PromiPoints!"
           "Sistema de reconocimiento entre colaboradores de Grupo Prominente"
           "Reconoce el trabajo excepcional de tus compañeros y fortalece la cultura organizacional.";
         mkStep "10 Puntos Mensuales"
           "Cada mes recibes 10 PromiPoints para compartir"
           "Los puntos no utilizados expiran al final del mes, así que ¡no olvides reconocer a tus compañeros!";
         mkStep "Asignación Anónima"
           "Reconoce valores organizacionales de forma privada"
           "Tus compañeros verán los puntos recibidos y la categoría, pero no sabrán quién los envió.";
         mkStep "¡Estás listo!"
           "Comienza a reconocer el gran trabajo de tu equipo"
           ("Haz clic en " +:+ doubleQuote +:+ "Asignar PromiPoints" +:+ doubleQuote
              +:+ " para dar tu primer reconocimiento.") ];
     emailNotifications := Some
       {| email_enabled := false;
          notifyEmployee := true;
          notifyPeople := false;
          peopleEmails := [];
          smtpProvider := gmail;
          smtpHost := "smtp.gmail.com";
          smtpPort := 587;
          smtpUser := "";
          smtpPassword := "";
          fromEmail := "noreply@grupoprominente.com";
          fromName := "PromiPoints - Grupo Prominente" |};
     extraFields := [] |}.

(** [if (!config.f) config.f = defaultConfig.f]: an absent field is read as
    [undefined]; a stored object or array, even an empty one, is truthy. *)
Definition backfill {A} (stored fallback : option A) : option A :=
  match stored with
  | Some v => Some v
  | None => fallback
  end.

Definition getSystemConfig (s : Store) : SystemConfig :=
  let config := default getDefaultConfig (st_systemConfig s) in
  let defaultConfig := getDefaultConfig in
  {| categories := categories config;
     loginContent := backfill (loginContent config) (loginContent defaultConfig);
     onboardingSteps :=
       backfill (onboardingSteps config) (onboardingSteps defaultConfig);
     emailNotifications :=
       backfill (emailNotifications config) (emailNotifications defaultConfig);
     extraFields := extraFields config |}.

Definition setSystemConfig (config : SystemConfig) (s : Store) : Store :=
  mkStore (st_currentUser s) (st_users s) (st_allocations s)
          (st_assignments s) (Some config).

End storage.

(** ** Seeding (initializeDemoData) *)

Definition demoUsers : list User :=
  [ mkUser "admin" "Admin Sistema" "admin@sistema.local" superadmin "Administración";
    mkUser "1" "María García" "maria.garcia@grupoprominente.com" employee "Desarrollo";
    mkUser "2" "Juan Pérez" "juan.perez@grupoprominente.com" employee "Marketing";
    mkUser "3" "Ana Rodríguez" "ana.rodriguez@grupoprominente.com" people "People & Culture";
    mkUser "4" "Carlos López" "carlos.lopez@grupoprominente.com" employee "Ventas";
    mkUser "5" "Laura Martínez" "laura.martinez@grupoprominente.com" employee "Desarrollo";
    mkUser "6" "Diego Sánchez" "diego.sanchez@grupoprominente.com" employee "Operaciones";
    mkUser "7" "Sofia Torres" "sofia.torres@grupoprominente.com" employee "Marketing";
    mkUser "8" "Roberto Flores" "roberto.flores@grupoprominente.com" employee "Ventas" ].

Definition demoAssignments (month : string) (now : Z) : list PointAssignment :=
  [ mkAssignment "1" "2" "1" 3 "Trabajo en equipo"
      (Some "¡Excelente colaboración en el proyecto!") (now - 86400000 * 2) month;
    mkAssignment "2" "4" "1" 2 "Innovación"
      (Some "Gran idea para mejorar el proceso") (now - 86400000 * 5) month;
    mkAssignment "3" "5" "2" 4 "Liderazgo" None (now - 86400000 * 3) month;
    mkAssignment "4" "1" "4" 2 "Colaboración"
      (Some "Siempre dispuesto a ayudar") (now - 86400000) month ].

(** The body of the last [forEach] of the seeding: the sender's balance is
    lowered and the receiver's raised, each only when its record is found. *)
Definition settleDemoAssignment (month : string) (s : Store) (assignment : PointAssignment)
  : Store :=
  let s1 :=
    match storage.getUserAllocation (fromUserId assignment) month s with
    | Some fromAllocation =>
        storage.updateAllocation
          (mkAllocation (alloc_userId fromAllocation) (alloc_month fromAllocation)
             (pointsRemaining fromAllocation - asg_points assignment)
             (pointsReceived fromAllocation)) s
    | None => s
    end in
  match storage.getUserAllocation (toUserId assignment) month s1 with
  | Some toAllocation =>
      storage.updateAllocation
        (mkAllocation (alloc_userId toAllocation) (alloc_month toAllocation)
           (pointsRemaining toAllocation)
           (pointsReceived toAllocation + asg_points assignment)) s1
  | None => s1
  end.

Definition initializeDemoData (month : string) (now : Z) (s : Store) : Store :=
  match storage.getUsers s with
  | [] =>
      let s1 := storage.setUsers demoUsers s in
      let s2 :=
        foldl (λ acc user, snd (storage.ensureMonthlyAllocation month (user_id user) acc))
              s1 demoUsers in
      let s3 := storage.setAssignments (demoAssignments month now) s2 in
      foldl (settleDemoAssignment month) s3 (demoAssignments month now)
  | _ :: _ => s
  end.

(** [x || 0] on a number that may be [undefined]: a missing value and zero
    both give zero, any other number is kept. *)
Definition orZero (x : option Z) : Z :=
  match x with
  | Some v => if decide (v = 0) then 0 else v
  | None => 0
  end.

(** ** The transfer form (AssignPoints.tsx) *)

Module AssignPoints.

(** The [errors] object: one optional message per key. *)
Inductive FormError :=
| MustSelectUser
| MustSelectCategory
| OnlyAvailable (availablePoints : Z).

Record Errors := mkErrors {
  err_user : option FormError;
  err_category : option FormError;
  err_points : option FormError;
}.

Definition noErrors : Errors := mkErrors None None None.

(** [Object.keys(newErrors).length === 0] *)
Definition hasNoKeys (e : Errors) : bool :=
  match err_user e, err_category e, err_points e with
  | None, None, None => true
  | _, _, _ => false
  end.

(** The component's state. *)
Record Form := mkForm {
  currentUser : User;
  users : list User;
  selectedUser : option User;
  points : Z;
  category : string;
  message : string;
  availablePoints : Z;
  showConfirmation : bool;
  isSubmitting : bool;
  errors : Errors;
}.

Definition initialForm (currentUser : User) : Form :=
  {| currentUser := currentUser; users := []; selectedUser := None;
     points := 1; category := ""; message := ""; availablePoints := 0;
     showConfirmation := false; isSubmitting := false; errors := noErrors |}.

(** The effect run when the dialog opens. *)
Definition loadEffect (month : string) (s : Store) (f : Form) : Form :=
  let allUsers := storage.getUsers s in
  let otherUsers := filter (λ u, user_id u ≠ user_id (currentUser f)) allUsers in
  let allocation := storage.getUserAllocation (user_id (currentUser f)) month s in
  {| currentUser := currentUser f; users := otherUsers;
     selectedUser := selectedUser f; points := points f;
     category := category f; message := message f;
     availablePoints := orZero (pointsRemaining <$> allocation);
     showConfirmation := showConfirmation f; isSubmitting := isSubmitting f;
     errors := errors f |}.

Definition mount (month : string) (s : Store) (currentUser : User) : Form :=
  loadEffect month s (initialForm currentUser).

(** The categories the select offers. *)
Definition enabledCategories (s : Store) : list CategoryConfig :=
  filter (λ cat, enabled cat = true) (categories (storage.getSystemConfig s)).

(** The values the point buttons carry. *)
Definition pointChoices : list Z := [1; 2; 3; 5].

(** The field setters of the form view; each clears [errors]. *)
Definition chooseUser (u : User) (f : Form) : Form :=
  {| currentUser := currentUser f; users := users f; selectedUser := Some u;
     points := points f; category := category f; message := message f;
     availablePoints := availablePoints f;
     showConfirmation := showConfirmation f; isSubmitting := isSubmitting f;
     errors := noErrors |}.

Definition choosePoints (value : Z) (f : Form) : Form :=
  {| currentUser := currentUser f; users := users f;
     selectedUser := selectedUser f;
     points := value; category := category f; message := message f;
     availablePoints := availablePoints f;
     showConfirmation := showConfirmation f; isSubmitting := isSubmitting f;
     errors := noErrors |}.

Definition chooseCategory (value : string) (f : Form) : Form :=
  {| currentUser := currentUser f; users := users f;
     selectedUser := selectedUser f;
     points := points f; category := value; message := message f;
     availablePoints := availablePoints f;
     showConfirmation := showConfirmation f; isSubmitting := isSubmitting f;
     errors := noErrors |}.

(** The message box: [setMessage] alone. *)
Definition editMessage (value : string) (f : Form) : Form :=
  {| currentUser := currentUser f; users := users f;
     selectedUser := selectedUser f;
     points := points f; category := category f; message := value;
     availablePoints := availablePoints f;
     showConfirmation := showConfirmation f; isSubmitting := isSubmitting f;
     errors := errors f |}.

Definition validateForm (f : Form) : Errors * bool :=
  let newErrors :=
    {| err_user :=
         match selectedUser f with None => Some MustSelectUser | Some _ => None end;
       err_category :=
         if decide (category f = "") then Some MustSelectCategory else None;
       err_points :=
         if decide (points f > availablePoints f)
         then Some (OnlyAvailable (availablePoints f)) else None |} in
  (newErrors, hasNoKeys newErrors).

Definition handlePreview (f : Form) : Form :=
  let '(newErrors, ok) := validateForm f in
  {| currentUser := currentUser f; users := users f;
     selectedUser := selectedUser f;
     points := points f; category := category f; message := message f;
     availablePoints := availablePoints f;
     showConfirmation := if ok then true else showConfirmation f;
     isSubmitting := isSubmitting f;
     errors := newErrors |}.

Section Submit.
(** [String.prototype.trim], a built-in of the host. *)
Context (trim : string → string).

(** The record [handleSubmit] builds; [newId] is the generated
    identifier and [now] the clock reading. *)
Definition newAssignment (month newId : string) (now : Z)
    (f : Form) (selected : User) : PointAssignment :=
  {| asg_id := newId;
     fromUserId := user_id (currentUser f);
     toUserId := user_id selected;
     asg_points := points f;
     asg_category := category f;
     asg_message :=
       (let m := trim (message f) in if decide (m = "") then None else Some m);
     timestamp := now;
     asg_month := month |}.

Definition handleSubmit (month newId : string) (now : Z) (f : Form) (s : Store)
  : Form * Store :=
  match selectedUser f with
  | None => (f, s)
  | Some selected =>
      if decide (category f = "") then (f, s) else
      let f' :=
        {| currentUser := currentUser f; users := users f;
           selectedUser := selectedUser f;
           points := points f; category := category f; message := message f;
           availablePoints := availablePoints f;
           showConfirmation := showConfirmation f; isSubmitting := true;
           errors := errors f |} in
      let assignment := newAssignment month newId now f selected in
      let s1 := storage.addAssignment assignment s in
      let s2 :=
        match storage.getUserAllocation (user_id (currentUser f)) month s1 with
        | Some senderAllocation =>
            storage.updateAllocation
              (mkAllocation (alloc_userId senderAllocation)
                 (alloc_month senderAllocation)
                 (pointsRemaining senderAllocation - points f)
                 (pointsReceived senderAllocation)) s1
        | None => s1
        end in
      let s3 :=
        match storage.getUserAllocation (user_id selected) month s2 with
        | Some receiverAllocation =>
            storage.updateAllocation
              (mkAllocation (alloc_userId receiverAllocation)
                 (alloc_month receiverAllocation)
                 (pointsRemaining receiverAllocation)
                 (pointsReceived receiverAllocation + points f)) s2
        | None => s2
        end in
      (f', s3)
  end.

(** One attempt from the form view: the review button runs
    [handlePreview]; the confirm button, which runs [handleSubmit], is
    rendered only once the confirmation is shown. *)
Definition attemptTransfer (month newId : string) (now : Z) (f : Form) (s : Store)
  : Form * Store :=
  let f1 := handlePreview f in
  if showConfirmation f1 then handleSubmit month newId now f1 s else (f1, s).
End Submit.

End AssignPoints.

(** ** The admin reset (AdminSettings.tsx) *)

Module AdminSettings.

Inductive ResetType := partial | total.

(** The users the reset tab lists. *)
Definition users (s : Store) : list User :=
  filter (λ u, user_role u = employee) (storage.getUsers s).

(** The in-place assignment to the fields of the record found. *)
Definition resetFields (resetType : ResetType) (allocation : MonthlyAllocation)
  : MonthlyAllocation :=
  match resetType with
  | total =>
      mkAllocation (alloc_userId allocation) (alloc_month allocation) 10 0
  | partial =>
      mkAllocation (alloc_userId allocation) (alloc_month allocation)
        (pointsRemaining allocation) 0
  end.

(** One round of the [forEach]: [allocations] is the array read before the
    loop, whose records are mutated in place; the store is re-read and
    written by [updateAllocation]. *)
Definition resetOne (month : string) (resetType : ResetType)
    (acc : list MonthlyAllocation * Store) (userId : string)
  : list MonthlyAllocation * Store :=
  let '(allocations, s) := acc in
  match list_find (storage.isAllocationOf userId month) allocations with
  | Some (i, allocation) =>
      let allocation' := resetFields resetType allocation in
      (<[i := allocation']> allocations, storage.updateAllocation allocation' s)
  | None => acc
  end.

Definition handleResetPoints (month : string) (resetType : ResetType)
    (selectedUsers : list string) (s : Store) : Store :=
  match selectedUsers with
  | [] => s
  | _ :: _ =>
      let allocations := storage.getAllocations s in
      let assignments := storage.getAssignments s in
      let s1 := snd (foldl (resetOne month resetType) (allocations, s) selectedUsers) in
      match resetType with
      | total =>
          let filteredAssignments :=
            filter (λ a, asg_month a ≠ month ∨
                         ((toUserId a ∉ selectedUsers) ∧ (fromUserId a ∉ selectedUsers)))
                   assignments in
          storage.setAssignments filteredAssignments s1
      | partial => s1
      end
  end.

End AdminSettings.

(** ** The login handler (Login.tsx) *)

(** [String.prototype.endsWith] *)
Definition endsWith (s suffix : string) : bool :=
  let n := String.length s in
  let k := String.length suffix in
  if (k <=? n)%nat
  then bool_decide (String.substring (n - k) k s = suffix)
  else false.

(** Lower-casing of the letters A to Z, the instance of [toLowerCase] used on
    the seeded addresses, which are ASCII. *)
Definition asciiLower (c : Ascii.ascii) : Ascii.ascii :=
  let n := Ascii.nat_of_ascii c in
  if ((65 <=? n) && (n <=? 90))%nat then Ascii.ascii_of_nat (n + 32) else c.

Fixpoint asciiToLowerCase (s : string) : string :=
  match s with
  | EmptyString => EmptyString
  | String c r => String (asciiLower c) (asciiToLowerCase r)
  end.

Module Login.

Inductive LoginError := NotCorporateEmail | UserNotFound.

Definition errorText (e : LoginError) : string :=
  match e with
  | NotCorporateEmail => "Debes usar tu correo corporativo (@grupoprominente.com)"
  | UserNotFound =>
      "Usuario no encontrado en la nómina. Contacta a People & Culture para obtener acceso."
  end.

(** What one run of [handleLogin] leaves: the [error] state (the empty text
    when none was set), the [isLoading] flag, the argument of the [onLogin]
    call when it was made, and the store. *)
Record Outcome := mkOutcome {
  error : string;
  isLoading : bool;
  onLogin : option User;
  store : Store;
}.

Section Handler.
(** [String.prototype.toLowerCase], a built-in of the host. *)
Context (toLowerCase : string → string).

Definition findByEmail (email : string) (users : list User) : option User :=
  storage.find (λ u, toLowerCase (user_email u) = toLowerCase email) users.

Definition accept (month : string) (user : User) (s : Store) : Outcome :=
  {| error := ""; isLoading := true; onLogin := Some user;
     store := snd (storage.ensureMonthlyAllocation month (user_id user) s) |}.

Definition reject (e : LoginError) (s : Store) : Outcome :=
  {| error := errorText e; isLoading := false; onLogin := None; store := s |}.

Definition handleLogin (month email : string) (s : Store) : Outcome :=
  let users := storage.getUsers s in
  let user := findByEmail email users in
  let regular :=
    if negb (endsWith email "@grupoprominente.com")
    then reject NotCorporateEmail s
    else match user with
         | None => reject UserNotFound s
         | Some u => accept month u s
         end in
  match user with
  | Some u =>
      if decide (user_role u = superadmin) then accept month u s else regular
  | None => regular
  end.
End Handler.

End Login.

(** ** The report of the people dashboard (loadData) *)

Module PeopleDashboard.

(** A property of an accumulator object: a number, or the text that [+]
    gives once its left operand is not a number.  The text itself starts
    with the host's rendering of a built-in and is not modelled. *)
Inductive Entry :=
| number (n : Z)
| text.

(** The property names an object literal inherits from [Object.prototype]. *)
Definition inheritedNames : list string :=
  [ "constructor"; "hasOwnProperty"; "isPrototypeOf"; "propertyIsEnumerable";
    "toLocaleString"; "toString"; "valueOf"; "__proto__";
    "__defineGetter__"; "__defineSetter__"; "__lookupGetter__"; "__lookupSetter__" ].

Record ReportRow := mkRow {
  row_userId : string;
  row_name : string;
  row_email : string;
  row_department : string;
  row_pointsReceived : Z;
  recognitionCount : nat;
  pointsGiven : Z;
  categoryBreakdown : gmap string Entry;
}.

(** [acc[a.category] = (acc[a.category] || 0) + a.points] on the accumulator
    that starts as [{}].  An own property is read as it is: a number goes
    through [|| 0] and is added to, a text is truthy and [+] appends to it.
    A name that is no own property is looked up in the prototype: an
    inherited name gives a function, or the prototype object, which is
    truthy and no number, so [+] gives a text; any other name gives
    [undefined] and the sum starts at zero.  The assignment makes an own
    property, except under [__proto__], whose setter ignores a text. *)
Definition addToCategory (acc : gmap string Entry) (a : PointAssignment)
  : gmap string Entry :=
  match acc !! asg_category a with
  | Some (number n) =>
      <[asg_category a := number (orZero (Some n) + asg_points a)]> acc
  | Some text => <[asg_category a := text]> acc
  | None =>
      if decide (asg_category a = "__proto__") then acc
      else if decide (asg_category a ∈ inheritedNames)
      then <[asg_category a := text]> acc
      else <[asg_category a := number (orZero None + asg_points a)]> acc
  end.

Definition currentMonthAssignments (month : string) (s : Store) : list PointAssignment :=
  filter (λ a, asg_month a = month) (storage.getAssignments s).

Definition reportRow (month : string) (s : Store) (u : User) : ReportRow :=
  let received :=
    filter (λ a, toUserId a = user_id u) (currentMonthAssignments month s) in
  let totalPoints := foldl (λ sum a, sum + asg_points a) 0 received in
  let allocation := storage.getUserAllocation (user_id u) month s in
  {| row_userId := user_id u;
     row_name := user_name u;
     row_email := user_email u;
     row_department := user_department u;
     row_pointsReceived := totalPoints;
     recognitionCount := length received;
     pointsGiven :=
       match allocation with
       | Some a => 10 - pointsRemaining a
       | None => 0
       end;
     categoryBreakdown := foldl addToCategory ∅ received |}.

(** The values [loadData] hands to the state setters. *)
Record Loaded := mkLoaded {
  loaded_users : list User;
  loaded_assignments : list PointAssignment;
  reportData : list ReportRow;
  categoryTotals : gmap string Entry;
}.

Definition loadData (month : string) (s : Store) : Loaded :=
  let allUsers := storage.getUsers s in
  {| loaded_users := allUsers;
     loaded_assignments := currentMonthAssignments month s;
     reportData := reportRow month s <$> allUsers;
     categoryTotals := foldl addToCategory ∅ (currentMonthAssignments month s) |}.

End PeopleDashboard.

(** ** Instances of the host's string built-ins and sample data *)

Definition isAsciiSpace (c : Ascii.ascii) : bool :=
  let n := Ascii.nat_of_ascii c in
  ((n =? 32) || ((9 <=? n) && (n <=? 13)))%nat.

(** [trim] on the ASCII white space. *)
Fixpoint asciiTrimStart (s : string) : string :=
  match s with
  | EmptyString => EmptyString
  | String c r => if isAsciiSpace c then asciiTrimStart r else s
  end.

Fixpoint asciiTrimEnd (s : string) : string :=
  match s with
  | EmptyString => EmptyString
  | String c r =>
      match asciiTrimEnd r with
      | EmptyString => if isAsciiSpace c then EmptyString else String c EmptyString
      | r' => String c r'
      end
  end.

Definition asciiTrim (s : string) : string := asciiTrimEnd (asciiTrimStart s).

(** A first load in November 2026. *)
Definition demoMonth : string := "2026-11".
Definition demoNow : Z := 1793577600000.
Definition demoStore : Store := initializeDemoData demoMonth demoNow emptyStore.

Definition maria : User :=
  mkUser "1" "María García" "maria.garcia@grupoprominente.com" employee "Desarrollo".
Definition juan : User :=
  mkUser "2" "Juan Pérez" "juan.perez@grupoprominente.com" employee "Marketing".

(** Juan opens the dialog on the seeded store and picks María. *)
Definition juanToMaria (value : Z) (cat : string) : AssignPoints.Form :=
  AssignPoints.chooseCategory cat
    (AssignPoints.choosePoints value
       (AssignPoints.chooseUser maria (AssignPoints.mount demoMonth demoStore juan))).

(** The default configuration after an administrator switched one category
    off and saved. *)
Definition configWithoutInnovacion : SystemConfig :=
  {| categories :=
       (λ cat, if decide (cat_name cat = "Innovación")
               then mkCategory (cat_name cat) false else cat)
         <$> categories storage.getDefaultConfig;
     loginContent := loginContent storage.getDefaultConfig;
     onboardingSteps := onboardingSteps storage.getDefaultConfig;
     emailNotifications := emailNotifications storage.getDefaultConfig;
     extraFields := [] |}.

(** ** The ledger: what the properties below speak about *)

Module Ledger.
Import storage.

(** The debit of the sender and the credit of the receiver, as records. *)
Definition debited (a : MonthlyAllocation) (p : Z) : MonthlyAllocation :=
  mkAllocation (alloc_userId a) (alloc_month a) (pointsRemaining a - p) (pointsReceived a).

Definition credited (a : MonthlyAllocation) (p : Z) : MonthlyAllocation :=
  mkAllocation (alloc_userId a) (alloc_month a) (pointsRemaining a) (pointsReceived a + p).

(** A write to the record of one key, made only when the record is found:
    the shape of every balance update in the program. *)
Definition alterAllocation (g : MonthlyAllocation → MonthlyAllocation)
    (userId month : string) (al : list MonthlyAllocation) : list MonthlyAllocation :=
  match find (isAllocationOf userId month) al with
  | Some a => putAllocation (g a) al
  | None => al
  end.

(** The two allocation writes of a transfer on the array. *)
Definition settled (month sender receiver : string) (p : Z)
    (al : list MonthlyAllocation) : list MonthlyAllocation :=
  alterAllocation (λ b, credited b p) receiver month
    (alterAllocation (λ a, debited a p) sender month al).

(** One round of the reset loop on the array. *)
Definition resetRecord (month : string) (resetType : AdminSettings.ResetType)
    (al : list MonthlyAllocation) (userId : string) : list MonthlyAllocation :=
  alterAllocation (AdminSettings.resetFields resetType) userId month al.

(** A report row with its [pointsGiven] column blanked. *)
Definition withoutPointsGiven (r : PeopleDashboard.ReportRow) : PeopleDashboard.ReportRow :=
  PeopleDashboard.mkRow (PeopleDashboard.row_userId r) (PeopleDashboard.row_name r)
    (PeopleDashboard.row_email r) (PeopleDashboard.row_department r)
    (PeopleDashboard.row_pointsReceived r) (PeopleDashboard.recognitionCount r)
    0 (PeopleDashboard.categoryBreakdown r).

(** *** Sums over the assignment log *)

Definition sumPoints (l : list PointAssignment) : Z :=
  foldr (λ a acc, asg_points a + acc) 0 l.

Definition givenIn (u m : string) (l : list PointAssignment) : Z :=
  sumPoints (filter (λ a, fromUserId a = u ∧ asg_month a = m) l).

Definition receivedIn (u m : string) (l : list PointAssignment) : Z :=
  sumPoints (filter (λ a, toUserId a = u ∧ asg_month a = m) l).

(** *** The three ledger invariants, for every key that has a record *)

Definition remainingNonNegative (s : Store) : Prop :=
  ∀ u m a, getUserAllocation u m s = Some a → 0 ≤ pointsRemaining a.

Definition budgetAccounted (s : Store) : Prop :=
  ∀ u m a, getUserAllocation u m s = Some a →
           pointsRemaining a + givenIn u m (getAssignments s) = 10.

Definition receivedAccounted (s : Store) : Prop :=
  ∀ u m a, getUserAllocation u m s = Some a →
           pointsReceived a = receivedIn u m (getAssignments s).

(** The two accounting invariants of an allocation array against a list of
    assignments; the store invariants above are these on the stored
    collections. *)
Definition budgetAccountedIn (al : list MonthlyAllocation)
    (l : list PointAssignment) : Prop :=
  ∀ u m a, find (isAllocationOf u m) al = Some a →
           pointsRemaining a + givenIn u m l = 10.

Definition receivedAccountedIn (al : list MonthlyAllocation)
    (l : list PointAssignment) : Prop :=
  ∀ u m a, find (isAllocationOf u m) al = Some a →
           pointsReceived a = receivedIn u m l.

(** Every stored user has a record for the month, and so has each party of
    every recorded assignment for the month of the assignment. *)
Definition partiesHaveRecords (month : string) (s : Store) : Prop :=
  (∀ u, u ∈ getUsers s → is_Some (getUserAllocation (user_id u) month s)) ∧
  (∀ x, x ∈ getAssignments s →
        is_Some (getUserAllocation (fromUserId x) (asg_month x) s) ∧
        is_Some (getUserAllocation (toUserId x) (asg_month x) s)).

(** What the operations keep, by the resets they include. *)
Definition ledgerKept (month : string) (allowPartial allowTotal : bool)
    (s : Store) : Prop :=
  partiesHaveRecords month s ∧ remainingNonNegative s ∧
  (allowTotal = false → budgetAccounted s) ∧
  (allowPartial = false → allowTotal = false → receivedAccounted s).

(** *** The states the program reaches within the month of its first load

    The seeding of an empty store; a transfer attempt by a stored user
    through the dialog (receiver from the list shown, points from the
    buttons, category from the select); [ensureMonthlyAllocation]; the admin
    reset over users of the reset tab.  The two flags say whether partial
    and total resets are among the operations. *)
Definition resetAllowed (allowPartial allowTotal : bool)
    (resetType : AdminSettings.ResetType) : Prop :=
  match resetType with
  | AdminSettings.partial => allowPartial = true
  | AdminSettings.total => allowTotal = true
  end.

Inductive reachable (trim : string → string) (month : string)
    (allowPartial allowTotal : bool) : Store → Prop :=
| reach_seed (now : Z) :
    reachable trim month allowPartial allowTotal
      (initializeDemoData month now emptyStore)
| reach_transfer (s : Store) (sender receiver : User) (value : Z)
    (cat msg newId : string) (now : Z) :
    reachable trim month allowPartial allowTotal s →
    sender ∈ getUsers s →
    receiver ∈ AssignPoints.users (AssignPoints.mount month s sender) →
    value ∈ AssignPoints.pointChoices →
    cat ∈ (cat_name <$> AssignPoints.enabledCategories s) →
    reachable trim month allowPartial allowTotal
      (snd (AssignPoints.attemptTransfer trim month newId now
              (AssignPoints.editMessage msg
                 (AssignPoints.chooseCategory cat
                    (AssignPoints.choosePoints value
                       (AssignPoints.chooseUser receiver
                          (AssignPoints.mount month s sender))))) s))
| reach_ensure (s : Store) (userId : string) :
    reachable trim month allowPartial allowTotal s →
    reachable trim month allowPartial allowTotal
      (snd (ensureMonthlyAllocation month userId s))
| reach_reset (s : Store) (resetType : AdminSettings.ResetType)
    (selectedUsers : list string) :
    reachable trim month allowPartial allowTotal s →
    resetAllowed allowPartial allowTotal resetType →
    selectedUsers ⊆ (user_id <$> AdminSettings.users s) →
    reachable trim month allowPartial allowTotal
      (AdminSettings.handleResetPoints month resetType selectedUsers s).

End Ledger.

(** ** The session and the received list (storage.ts, App.tsx) *)

Module Session.

(** [setItem] for a user, [removeItem] for [null]. *)
Definition setCurrentUser (user : option User) (s : Store) : Store :=
  mkStore user (st_users s) (st_allocations s) (st_assignments s) (st_systemConfig s).

Definition getCurrentUser (s : Store) : option User := st_currentUser s.

Definition getReceivedPoints (userId : string) (s : Store) : list PointAssignment :=
  filter (λ a, toUserId a = userId) (storage.getAssignments s).

(** The handlers of [App]: the store after the call; the component's own
    [currentUser] is set to the same value. *)
Definition handleLogin (user : User) (s : Store) : Store := setCurrentUser (Some user) s.

Definition handleLogout (s : Store) : Store := setCurrentUser None s.

(** The effect run when the application loads: seeding, then the stored
    session. *)
Definition load (month : string) (now : Z) (s : Store) : option User * Store :=
  let s' := initializeDemoData month now s in
  (getCurrentUser s', s').

End Session.

(** The keys of an allocation array, in order. *)
Definition allocationKeys (al : list MonthlyAllocation) : list (string * string) :=
  (λ a, (alloc_userId a, alloc_month a)) <$> al.

(** ** The rest of the transfer dialog (AssignPoints.tsx) *)

(** [String.prototype.includes] *)
Fixpoint includes (s sub : string) : bool :=
  String.prefix sub s ||
  match s with
  | EmptyString => false
  | String _ r => includes r sub
  end.

Module AssignPointsView.
Import AssignPoints.

Section Search.
Context (toLowerCase : string → string).

Definition matchesSearch (searchTerm : string) (user : User) : bool :=
  includes (toLowerCase (user_name user)) (toLowerCase searchTerm) ||
  includes (toLowerCase (user_email user)) (toLowerCase searchTerm) ||
  includes (toLowerCase (user_department user)) (toLowerCase searchTerm).

Definition filteredUsers (searchTerm : string) (f : Form) : list User :=
  filter (λ user, matchesSearch searchTerm user = true) (users f).
End Search.

(** The [disabled] attribute of a point button and of the review button. *)
Definition pointButtonDisabled (value : Z) (f : Form) : bool :=
  bool_decide (value > availablePoints f).

Definition reviewDisabled (f : Form) : bool :=
  bool_decide (category f = "") || bool_decide (availablePoints f = 0) || isSubmitting f.

(** Where the [category] state comes from: it is the empty text until the
    select sets it, and the items of the select are the enabled categories
    of the configuration the component reads from the store. *)
Definition categoryFromSelect (s : Store) (f : Form) : Prop :=
  category f = "" ∨ category f ∈ (cat_name <$> enabledCategories s).

End AssignPointsView.

(** ** The configuration tabs of the admin dialog (AdminSettings.tsx)

    The handlers read the [config] state of the render in progress and hand
    a new value to [setConfig].  A handler that reads a property of a field
    the configuration lacks throws; such a run is [None]. *)

Module AdminConfig.

Inductive Toast :=
| toastError (text : string)
| toastSuccess (text : string).

Definition MAX_ONBOARDING_STEPS : nat := 5.

Definition withCategories (cats : list CategoryConfig) (config : SystemConfig)
  : SystemConfig :=
  mkConfig cats (loginContent config) (onboardingSteps config)
    (emailNotifications config) (extraFields config).

Definition withOnboardingSteps (steps : list OnboardingStep) (config : SystemConfig)
  : SystemConfig :=
  mkConfig (categories config) (loginContent config) (Some steps)
    (emailNotifications config) (extraFields config).

Definition handleToggleCategory (categoryName : string) (config : SystemConfig)
  : SystemConfig :=
  withCategories
    ((λ cat, if decide (cat_name cat = categoryName)
             then mkCategory (cat_name cat) (negb (enabled cat)) else cat)
       <$> categories config)
    config.

Section Names.
Context (trim toLowerCase : string → string).

(** The names as the duplicate check compares them. *)
Definition lowerNames (config : SystemConfig) : list string :=
  (λ cat, toLowerCase (cat_name cat)) <$> categories config.

(** The result: the configuration, the [newCategoryName] box and the toast. *)
Definition handleAddCategory (newCategoryName : string) (config : SystemConfig)
  : SystemConfig * string * Toast :=
  if decide (trim newCategoryName = "")
  then (config, newCategoryName, toastError "Ingresa un nombre para la categoría")
  else if decide (Exists (λ cat, toLowerCase (cat_name cat) = toLowerCase newCategoryName)
                         (categories config))
  then (config, newCategoryName, toastError "Ya existe una categoría con ese nombre")
  else (withCategories (categories config ++ [mkCategory (trim newCategoryName) true])
          config,
        "", toastSuccess "Categoría agregada exitosamente").
End Names.

Definition handleRemoveCategory (categoryName : string) (config : SystemConfig)
  : SystemConfig * Toast :=
  (withCategories (filter (λ cat, cat_name cat ≠ categoryName) (categories config)) config,
   toastSuccess "Categoría eliminada").

Definition newStep : OnboardingStep :=
  mkStep "Nuevo Paso" "Descripción del paso" "Información detallada del paso".

Definition handleAddOnboardingStep (config : SystemConfig)
  : option (SystemConfig * Toast) :=
  steps ← onboardingSteps config;
  if decide (MAX_ONBOARDING_STEPS ≤ length steps)%nat
  then Some (config, toastError "Máximo 5 pasos permitidos")
  else Some (withOnboardingSteps (steps ++ [newStep]) config, toastSuccess "Paso agregado").

(** [filter((_, i) => i !== index)] drops the step at [index], if any. *)
Definition handleRemoveOnboardingStep (index : nat) (config : SystemConfig)
  : option (SystemConfig * Toast) :=
  steps ← onboardingSteps config;
  if decide (length steps ≤ 1)%nat
  then Some (config, toastError "Debe haber al menos un paso")
  else Some (withOnboardingSteps (delete index steps) config, toastSuccess "Paso eliminado").

(** A field of the email settings with its new value. *)
Inductive EmailUpdate :=
| SetEnabled (v : bool)
| SetNotifyEmployee (v : bool)
| SetNotifyPeople (v : bool)
| SetPeopleEmails (v : list string)
| SetSmtpProvider (v : SmtpProvider)
| SetSmtpHost (v : string)
| SetSmtpPort (v : Z)
| SetSmtpUser (v : string)
| SetSmtpPassword (v : string)
| SetFromEmail (v : string)
| SetFromName (v : string).

Definition updateEmail (u : EmailUpdate) (e : EmailNotificationConfig)
  : EmailNotificationConfig :=
  match u with
  | SetEnabled v =>
      mkEmailConfig v (notifyEmployee e) (notifyPeople e) (peopleEmails e)
        (smtpProvider e) (smtpHost e) (smtpPort e) (smtpUser e) (smtpPassword e)
        (fromEmail e) (fromName e)
  | SetNotifyEmployee v =>
      mkEmailConfig (email_enabled e) v (notifyPeople e) (peopleEmails e)
        (smtpProvider e) (smtpHost e) (smtpPort e) (smtpUser e) (smtpPassword e)
        (fromEmail e) (fromName e)
  | SetNotifyPeople v =>
      mkEmailConfig (email_enabled e) (notifyEmployee e) v (peopleEmails e)
        (smtpProvider e) (smtpHost e) (smtpPort e) (smtpUser e) (smtpPassword e)
        (fromEmail e) (fromName e)
  | SetPeopleEmails v =>
      mkEmailConfig (email_enabled e) (notifyEmployee e) (notifyPeople e) v
        (smtpProvider e) (smtpHost e) (smtpPort e) (smtpUser e) (smtpPassword e)
        (fromEmail e) (fromName e)
  | SetSmtpProvider v =>
      mkEmailConfig (email_enabled e) (notifyEmployee e) (notifyPeople e) (peopleEmails e)
        v (smtpHost e) (smtpPort e) (smtpUser e) (smtpPassword e)
        (fromEmail e) (fromName e)
  | SetSmtpHost v =>
      mkEmailConfig (email_enabled e) (notifyEmployee e) (notifyPeople e) (peopleEmails e)
        (smtpProvider e) v (smtpPort e) (smtpUser e) (smtpPassword e)
        (fromEmail e) (fromName e)
  | SetSmtpPort v =>
      mkEmailConfig (email_enabled e) (notifyEmployee e) (notifyPeople e) (peopleEmails e)
        (smtpProvider e) (smtpHost e) v (smtpUser e) (smtpPassword e)
        (fromEmail e) (fromName e)
  | SetSmtpUser v =>
      mkEmailConfig (email_enabled e) (notifyEmployee e) (notifyPeople e) (peopleEmails e)
        (smtpProvider e) (smtpHost e) (smtpPort e) v (smtpPassword e)
        (fromEmail e) (fromName e)
  | SetSmtpPassword v =>
      mkEmailConfig (email_enabled e) (notifyEmployee e) (notifyPeople e) (peopleEmails e)
        (smtpProvider e) (smtpHost e) (smtpPort e) (smtpUser e) v
        (fromEmail e) (fromName e)
  | SetFromEmail v =>
      mkEmailConfig (email_enabled e) (notifyEmployee e) (notifyPeople e) (peopleEmails e)
        (smtpProvider e) (smtpHost e) (smtpPort e) (smtpUser e) (smtpPassword e)
        v (fromName e)
  | SetFromName v =>
      mkEmailConfig (email_enabled e) (notifyEmployee e) (notifyPeople e) (peopleEmails e)
        (smtpProvider e) (smtpHost e) (smtpPort e) (smtpUser e) (smtpPassword e)
        (fromEmail e) v
  end.

(** The value [handleUpdateEmailConfig] hands to [setConfig].  Spreading a
    missing [emailNotifications] would give an object with the one field
    only, which is no email configuration: that run is [None]. *)
Definition handleUpdateEmailConfig (u : EmailUpdate) (config : SystemConfig)
  : option SystemConfig :=
  e ← emailNotifications config;
  Some (mkConfig (categories config) (loginContent config) (onboardingSteps config)
          (Some (updateEmail u e)) (extraFields config)).

(** The calls [handleSMTPProviderChange] makes, in order. *)
Definition smtpProviderUpdates (provider : SmtpProvider) : list EmailUpdate :=
  SetSmtpProvider provider ::
  match provider with
  | gmail => [SetSmtpHost "smtp.gmail.com"; SetSmtpPort 587]
  | outlook => [SetSmtpHost "smtp.office365.com"; SetSmtpPort 587]
  | sendgrid => [SetSmtpHost "smtp.sendgrid.net"; SetSmtpPort 587]
  | custom => []
  end.

(** The [config] state after [handleSMTPProviderChange]: every call of
    [handleUpdateEmailConfig] in the handler reads the [config] of the render
    the handler belongs to, and [setConfig] keeps the value of the last call. *)
Definition handleSMTPProviderChange (provider : SmtpProvider) (config : SystemConfig)
  : option SystemConfig :=
  values ← mapM (λ u, handleUpdateEmailConfig u config) (smtpProviderUpdates provider);
  last values.

Definition handleSaveConfig (config : SystemConfig) (s : Store) : option (Store * Toast) :=
  let enabledCategories := filter (λ cat, enabled cat = true) (categories config) in
  if decide (length enabledCategories = 0%nat)
  then Some (s, toastError "Debe haber al menos una categoría activa")
  else
    steps ← onboardingSteps config;
    if decide (length steps = 0%nat)
    then Some (s, toastError "Debe haber al menos un paso de onboarding")
    else Some (storage.setSystemConfig config s,
               toastSuccess "Configuración guardada exitosamente").

(** The click on a user of the reset tab. *)
Definition toggleSelectedUser (userId : string) (prev : list string) : list string :=
  if decide (userId ∈ prev) then filter (λ i, i ≠ userId) prev else prev ++ [userId].

End AdminConfig.

(** ** The demo shortcut of the login screen (Login.tsx) *)

Module DemoLogin.

Definition handleDemoLogin (month userEmail : string) (s : Store) : Login.Outcome :=
  let users := storage.getUsers s in
  match storage.find (λ u, user_email u = userEmail) users with
  | Some user =>
      {| Login.error := ""; Login.isLoading := true; Login.onLogin := Some user;
         Login.store := snd (storage.ensureMonthlyAllocation month (user_id user) s) |}
  | None =>
      {| Login.error := ""; Login.isLoading := true; Login.onLogin := None;
         Login.store := s |}
  end.

End DemoLogin.

(** ** The figures of the people dashboard (PeopleDashboard) *)

Module DashboardStats.
Import PeopleDashboard.

(** Over the [assignments] and [reportData] states that [loadData] sets. *)
Definition totalPointsCirculating (d : Loaded) : Z :=
  foldl (λ sum a, sum + asg_points a) 0 (loaded_assignments d).

End DashboardStats.

(** ** The onboarding wizard (Onboarding) *)

Module Onboarding.

(** [config.onboardingSteps || []] *)
Definition steps (s : Store) : list OnboardingStep :=
  default [] (onboardingSteps (storage.getSystemConfig s)).

(** What the wizard shows: a step, or nothing once [onComplete] was called. *)
Inductive View :=
| Completed
| Showing (currentStep : Z).

(** The first render. *)
Definition start (steps : list OnboardingStep) : View :=
  if decide (length steps = 0%nat) then Completed else Showing 0.

Definition handleNext (steps : list OnboardingStep) (currentStep : Z) : View :=
  if decide (currentStep = Z.of_nat (length steps) - 1)
  then Completed else Showing (currentStep + 1).

Definition handleSkip : View := Completed.

Inductive Button := Next | Previous | Skip.

(** A click on a button of the view; the previous button is rendered from
    the second step on. *)
Definition click (steps : list OnboardingStep) (v : View) (b : Button) : View :=
  match v with
  | Completed => Completed
  | Showing currentStep =>
      match b with
      | Next => handleNext steps currentStep
      | Previous => if decide (currentStep > 0) then Showing (currentStep - 1) else v
      | Skip => handleSkip
      end
  end.

End Onboarding.

(** ** The operations of the program, month after month *)

Module Operations.
Import storage Ledger.

(** The third ledger invariant on the records of one month, and its weaker
    form on all records. *)
Definition receivedAccountedFor (month : string) (s : Store) : Prop :=
  ∀ u a, getUserAllocation u month s = Some a →
         pointsReceived a = receivedIn u month (getAssignments s).

Definition receivedWithinLog (s : Store) : Prop :=
  ∀ u m a, getUserAllocation u m s = Some a →
           pointsReceived a ≤ receivedIn u m (getAssignments s).

(** The states the program reaches from the store seeded in [seedMonth].
    Every operation reads the clock for itself, so each carries the month it
    runs in: a reload of the application, a login and a logout of [App],
    [ensureMonthlyAllocation] (run by the login screen), a transfer attempt
    through the dialog by a stored user, an admin reset over users of the
    reset tab, and a save of the admin dialog's configuration.  A transfer
    attempt is the dialog opened and the review pressed on the same store
    within one month.  The two flags say whether partial and total resets
    are among the operations. *)
Inductive reachableOverMonths (trim : string → string) (seedMonth : string)
    (allowPartial allowTotal : bool) : Store → Prop :=
| over_seed (now : Z) :
    reachableOverMonths trim seedMonth allowPartial allowTotal
      (initializeDemoData seedMonth now emptyStore)
| over_load (s : Store) (month : string) (now : Z) :
    reachableOverMonths trim seedMonth allowPartial allowTotal s →
    reachableOverMonths trim seedMonth allowPartial allowTotal
      (snd (Session.load month now s))
| over_login (s : Store) (user : User) :
    reachableOverMonths trim seedMonth allowPartial allowTotal s →
    reachableOverMonths trim seedMonth allowPartial allowTotal
      (Session.handleLogin user s)
| over_logout (s : Store) :
    reachableOverMonths trim seedMonth allowPartial allowTotal s →
    reachableOverMonths trim seedMonth allowPartial allowTotal
      (Session.handleLogout s)
| over_ensure (s : Store) (month userId : string) :
    reachableOverMonths trim seedMonth allowPartial allowTotal s →
    reachableOverMonths trim seedMonth allowPartial allowTotal
      (snd (ensureMonthlyAllocation month userId s))
| over_transfer (s : Store) (month : string) (sender receiver : User) (value : Z)
    (cat msg newId : string) (now : Z) :
    reachableOverMonths trim seedMonth allowPartial allowTotal s →
    sender ∈ getUsers s →
    receiver ∈ AssignPoints.users (AssignPoints.mount month s sender) →
    value ∈ AssignPoints.pointChoices →
    cat ∈ (cat_name <$> AssignPoints.enabledCategories s) →
    reachableOverMonths trim seedMonth allowPartial allowTotal
      (snd (AssignPoints.attemptTransfer trim month newId now
              (AssignPoints.editMessage msg
                 (AssignPoints.chooseCategory cat
                    (AssignPoints.choosePoints value
                       (AssignPoints.chooseUser receiver
                          (AssignPoints.mount month s sender))))) s))
| over_reset (s : Store) (month : string) (resetType : AdminSettings.ResetType)
    (selectedUsers : list string) :
    reachableOverMonths trim seedMonth allowPartial allowTotal s →
    resetAllowed allowPartial allowTotal resetType →
    selectedUsers ⊆ (user_id <$> AdminSettings.users s) →
    reachableOverMonths trim seedMonth allowPartial allowTotal
      (AdminSettings.handleResetPoints month resetType selectedUsers s)
| over_save (s s' : Store) (config : SystemConfig) (t : AdminConfig.Toast) :
    reachableOverMonths trim seedMonth allowPartial allowTotal s →
    AdminConfig.handleSaveConfig config s = Some (s', t) →
    reachableOverMonths trim seedMonth allowPartial allowTotal s'.

(** What the operations keep, by the resets they include: the users are
    the seeded ones and each has a record for the seeding month; every
    recorded assignment carries points that are not negative, its sender has
    a record for its month and, in the seeding month, so has its receiver;
    and the invariants the theorem states. *)
Definition booksKept (seedMonth : string) (allowPartial allowTotal : bool)
    (s : Store) : Prop :=
  getUsers s = demoUsers ∧
  (∀ u, u ∈ getUsers s → is_Some (getUserAllocation (user_id u) seedMonth s)) ∧
  (∀ x, x ∈ getAssignments s →
        0 ≤ asg_points x ∧
        is_Some (getUserAllocation (fromUserId x) (asg_month x) s) ∧
        (asg_month x = seedMonth →
         is_Some (getUserAllocation (toUserId x) seedMonth s))) ∧
  remainingNonNegative s ∧
  (allowTotal = false → budgetAccounted s) ∧
  (allowPartial = false → allowTotal = false →
   receivedAccountedFor seedMonth s ∧ receivedWithinLog s).

End Operations.

(** December after the seeding of November: Juan logs in and sends María
    five points before she has logged in that month; then she logs in. *)
Definition decemberMonth : string := "2026-12".

Definition decemberJuan : Store :=
  snd (storage.ensureMonthlyAllocation decemberMonth "2" demoStore).

Definition decemberSent : Store :=
  snd (AssignPoints.attemptTransfer asciiTrim decemberMonth "t-2" (demoNow + 86400000 * 30)
         (AssignPoints.editMessage ""
            (AssignPoints.chooseCategory "Liderazgo"
               (AssignPoints.choosePoints 5
                  (AssignPoints.chooseUser maria
                     (AssignPoints.mount decemberMonth decemberJuan juan)))))
         decemberJuan).

Definition decemberStore : Store :=
  snd (storage.ensureMonthlyAllocation decemberMonth "1" decemberSent).

(** * Properties *)

(** ** The allocation array *)

Section AllocationArray.
Import storage Ledger.
Implicit Types (a x : MonthlyAllocation) (l : list MonthlyAllocation).

Lemma find_cons {A} (P : A → Prop) `{∀ y, Decision (P y)} (y : A) (r : list A) :
  find P (y :: r) = if decide (P y) then Some y else find P r.
Proof.
  unfold find. simpl. destruct (decide (P y)); [done|].
  by destruct (list_find P r) as [[??]|].
Qed.

Lemma find_Some_holds {A} (P : A → Prop) `{∀ y, Decision (P y)} (r : list A) (y : A) :
  find P r = Some y → P y ∧ y ∈ r.
Proof.
  unfold find. destruct (list_find P r) as [[i z]|] eqn:E; [|done].
  simpl. intros [= ->]. apply list_find_Some in E as (Hi & HP & _).
  split; [done|]. by eapply list_elem_of_lookup_2.
Qed.

Lemma find_None_all {A} (P : A → Prop) `{∀ y, Decision (P y)} (r : list A) :
  find P r = None ↔ Forall (λ y, ¬ P y) r.
Proof.
  unfold find. destruct (list_find P r) as [[i z]|] eqn:E; simpl.
  - split; [done|]. intros HF.
    pose proof (proj2 (list_find_None P r) HF). congruence.
  - split; [|done]. intros _. exact (proj1 (list_find_None P r) E).
Qed.

Lemma putAllocation_cons a x l :
  putAllocation a (x :: l) =
    if decide (isAllocationOf (alloc_userId a) (alloc_month a) x)
    then a :: l else x :: putAllocation a l.
Proof.
  unfold putAllocation, findIndex. simpl.
  destruct (decide (isAllocationOf _ _ x)); [done|].
  by destruct (list_find _ l) as [[??]|].
Qed.

(** Reading a key after a write: the written record under its own key, the
    old answer under any other. *)
Lemma find_putAllocation u m a l :
  find (isAllocationOf u m) (putAllocation a l) =
    if decide (isAllocationOf u m a) then Some a else find (isAllocationOf u m) l.
Proof.
  induction l as [|x l IH].
  - unfold putAllocation, findIndex. simpl. by rewrite find_cons.
  - rewrite putAllocation_cons.
    destruct (decide (isAllocationOf (alloc_userId a) (alloc_month a) x)) as [Hx|Hx].
    + rewrite !find_cons.
      destruct (decide (isAllocationOf u m a)) as [Ha|Ha]; [done|].
      destruct (decide (isAllocationOf u m x)) as [Hx'|]; [|done].
      exfalso. apply Ha. destruct Hx as [E1 E2], Hx' as [E3 E4].
      split; congruence.
    + rewrite !find_cons, IH.
      destruct (decide (isAllocationOf u m x)) as [Hx'|]; [|done].
      destruct (decide (isAllocationOf u m a)) as [Ha|]; [|done].
      exfalso. apply Hx. destruct Ha as [E1 E2], Hx' as [E3 E4].
      split; congruence.
Qed.

Lemma putAllocation_absent a l :
  find (isAllocationOf (alloc_userId a) (alloc_month a)) l = None →
  putAllocation a l = l ++ [a].
Proof.
  unfold putAllocation, find, findIndex.
  by destruct (list_find _ l) as [[??]|].
Qed.

Lemma putAllocation_length a l :
  is_Some (find (isAllocationOf (alloc_userId a) (alloc_month a)) l) →
  length (putAllocation a l) = length l.
Proof.
  unfold putAllocation, find, findIndex.
  destruct (list_find _ l) as [[??]|]; simpl.
  - intros _. apply length_insert.
  - by intros [??].
Qed.

(** A write leaves every slot that holds another key as it was. *)
Lemma putAllocation_other_slot a l i x :
  l !! i = Some x →
  ¬ isAllocationOf (alloc_userId a) (alloc_month a) x →
  putAllocation a l !! i = Some x.
Proof.
  intros Hi Hx. unfold putAllocation, findIndex.
  destruct (list_find _ l) as [[j y]|] eqn:E; simpl.
  - apply list_find_Some in E as (Hj & Hy & _).
    rewrite list_lookup_insert_ne; [done|]. intros ->. congruence.
  - by apply lookup_app_l_Some.
Qed.

Lemma find_alterAllocation g u0 m0 al u m :
  (∀ a, alloc_userId (g a) = alloc_userId a ∧ alloc_month (g a) = alloc_month a) →
  find (isAllocationOf u m) (alterAllocation g u0 m0 al) =
    if decide (u = u0 ∧ m = m0)
    then g <$> find (isAllocationOf u m) al
    else find (isAllocationOf u m) al.
Proof.
  intros Hg. unfold alterAllocation.
  destruct (find (isAllocationOf u0 m0) al) as [a|] eqn:Ea.
  - pose proof (find_Some_holds _ _ _ Ea) as [[K1 K2] _].
    destruct (Hg a) as [R1 R2].
    rewrite find_putAllocation.
    destruct (decide (u = u0 ∧ m = m0)) as [[-> ->]|N].
    + rewrite Ea. simpl. apply decide_True. split; congruence.
    + apply decide_False. intros [F1 F2]. apply N. split; congruence.
  - destruct (decide (u = u0 ∧ m = m0)) as [[-> ->]|N]; [|done].
    by rewrite Ea.
Qed.

(** Overwriting the slot [find] answered is what [putAllocation] does with
    a record of the same key. *)
Lemma insert_found u m l i x a :
  list_find (isAllocationOf u m) l = Some (i, x) →
  alloc_userId a = u → alloc_month a = m →
  <[i := a]> l = putAllocation a l.
Proof.
  intros E <- <-. unfold putAllocation, findIndex. by rewrite E.
Qed.

End AllocationArray.

(** ** Reading the store after a write *)

Section StoreReads.
Import storage.

Lemma getUserAllocation_updateAllocation u m a s :
  getUserAllocation u m (updateAllocation a s) =
    if decide (isAllocationOf u m a) then Some a else getUserAllocation u m s.
Proof. unfold getUserAllocation, updateAllocation. simpl. apply find_putAllocation. Qed.

Lemma getAllocations_updateAllocation a s :
  getAllocations (updateAllocation a s) = putAllocation a (getAllocations s).
Proof. done. Qed.

Lemma getAssignments_updateAllocation a s :
  getAssignments (updateAllocation a s) = getAssignments s.
Proof. done. Qed.

Lemma getUsers_updateAllocation a s :
  getUsers (updateAllocation a s) = getUsers s.
Proof. done. Qed.

Lemma getUserAllocation_addAssignment u m x s :
  getUserAllocation u m (addAssignment x s) = getUserAllocation u m s.
Proof. done. Qed.

Lemma getAssignments_addAssignment x s :
  getAssignments (addAssignment x s) = getAssignments s ++ [x].
Proof. done. Qed.

Lemma getUserAllocation_key u m s a :
  getUserAllocation u m s = Some a → alloc_userId a = u ∧ alloc_month a = m.
Proof. intros H. by apply find_Some_holds in H as [H _]. Qed.

End StoreReads.

(** ** ensureMonthlyAllocation *)

Section Ensure.
Import storage.

Lemma ensureMonthlyAllocation_found month userId s :
  getUserAllocation userId month (snd (ensureMonthlyAllocation month userId s))
    = Some (fst (ensureMonthlyAllocation month userId s)).
Proof.
  unfold ensureMonthlyAllocation.
  destruct (getUserAllocation userId month s) as [a|] eqn:E; simpl; [done|].
  rewrite getUserAllocation_updateAllocation.
  destruct (decide _) as [|n]; [done|]. by destruct n.
Qed.

(** C8: [ensureMonthlyAllocation] is total; it returns the record already
    stored for the user and the current month and leaves the store as it
    is, or else appends and returns a record with ten points remaining and
    none received, every other record staying in place; a second call
    returns what the first returned and changes nothing more. *)
Theorem ensureMonthlyAllocation_spec (month userId : string) (s : Store) :
  let fresh := mkAllocation userId month 10 0 in
  let r := ensureMonthlyAllocation month userId s in
  (∀ a, getUserAllocation userId month s = Some a → r = (a, s)) ∧
  (getUserAllocation userId month s = None →
     r = (fresh, setAllocations (getAllocations s ++ [fresh]) s)) ∧
  getUserAllocation userId month (snd r) = Some (fst r) ∧
  ensureMonthlyAllocation month userId (snd r) = r.
Proof.
  intros fresh r. split_and!.
  - intros a E. subst r. unfold ensureMonthlyAllocation. by rewrite E.
  - intros E. subst r. unfold ensureMonthlyAllocation. rewrite E.
    unfold updateAllocation. rewrite putAllocation_absent; [done|].
    exact E.
  - apply ensureMonthlyAllocation_found.
  - pose proof (ensureMonthlyAllocation_found month userId s) as E.
    fold r in E. destruct r as [a s']. simpl in *.
    unfold ensureMonthlyAllocation. by rewrite E.
Qed.

End Ensure.

(** ** handleSubmit *)

Section Transfer.
Import storage AssignPoints Ledger.
Context (trim : string → string).

Lemma validateForm_true f :
  snd (validateForm f) = true ↔
    is_Some (selectedUser f) ∧ category f ≠ "" ∧ points f ≤ availablePoints f.
Proof.
  unfold validateForm, hasNoKeys. simpl.
  destruct (selectedUser f) as [B|], (decide (category f = "")) as [Hc|Hc],
    (decide (points f > availablePoints f)) as [Hp|Hp]; simpl;
    (split; [try done | intros (Hs & Hc' & Hp')]).
  all: try done; try lia; try (by destruct Hs).
  all: try (intros _; split_and!; [by eexists | done | lia]).
Qed.

Lemma handleSubmit_store month newId now f s B :
  selectedUser f = Some B → category f ≠ "" →
  let s' := snd (handleSubmit trim month newId now f s) in
  getAssignments s' = getAssignments s ++ [newAssignment trim month newId now f B] ∧
  getAllocations s' =
    settled month (user_id (currentUser f)) (user_id B) (points f) (getAllocations s) ∧
  getUsers s' = getUsers s ∧
  st_systemConfig s' = st_systemConfig s.
Proof.
  intros HB Hc. unfold handleSubmit. rewrite HB.
  destruct (decide (category f = "")) as [|_]; [done|]. cbv zeta. simpl snd.
  set (x := newAssignment trim month newId now f B).
  unfold settled, alterAllocation, getUserAllocation.
  change (getAllocations (addAssignment x s)) with (getAllocations s).
  destruct (find (isAllocationOf (user_id (currentUser f)) month) (getAllocations s))
    as [a|].
  - change (getAllocations (updateAllocation ?y (addAssignment x s)))
      with (putAllocation y (getAllocations s)).
    fold (debited a (points f)).
    by destruct (find (isAllocationOf (user_id B) month) _) as [b|].
  - change (getAllocations (addAssignment x s)) with (getAllocations s).
    by destruct (find (isAllocationOf (user_id B) month) _) as [b|].
Qed.

Lemma settled_both month A B p al a b :
  find (isAllocationOf A month) al = Some a →
  find (isAllocationOf B month) al = Some b →
  let al' := settled month A B p al in
  (∃ a', find (isAllocationOf A month) al' = Some a' ∧
         pointsRemaining a' = pointsRemaining a - p ∧
         (A ≠ B → pointsReceived a' = pointsReceived a)) ∧
  (∃ b', find (isAllocationOf B month) al' = Some b' ∧
         pointsReceived b' = pointsReceived b + p ∧
         (A ≠ B → pointsRemaining b' = pointsRemaining b)) ∧
  (∀ u m, ¬ (u = A ∧ m = month) → ¬ (u = B ∧ m = month) →
          find (isAllocationOf u m) al' = find (isAllocationOf u m) al) ∧
  length al' = length al ∧
  (∀ i x, al !! i = Some x →
          ¬ isAllocationOf A month x → ¬ isAllocationOf B month x →
          al' !! i = Some x).
Proof.
  intros Ha Hb al'. subst al'. unfold settled, alterAllocation. rewrite Ha.
  pose proof (find_Some_holds _ _ _ Ha) as [[Ka1 Ka2] _].
  pose proof (find_Some_holds _ _ _ Hb) as [[Kb1 Kb2] _].
  rewrite find_putAllocation.
  assert (Hlen1 : length (putAllocation (debited a p) al) = length al).
  { apply putAllocation_length. simpl. rewrite Ka1, Ka2, Ha. by eexists. }
  destruct (decide (isAllocationOf B month (debited a p))) as [[E1 E2]|NB].
  - (* sender and receiver are the same user *)
    simpl in E1. assert (A = B) as <- by congruence.
    assert (b = a) as -> by congruence.
    split_and!.
    + eexists. rewrite find_putAllocation.
      rewrite decide_True by (split; simpl; done).
      split_and!; [done | done | done].
    + eexists. rewrite find_putAllocation.
      rewrite decide_True by (split; simpl; done).
      split_and!; [done | done | done].
    + intros u m N1 _. rewrite !find_putAllocation.
      rewrite !decide_False; [done | |]; intros [F1 F2]; simpl in *;
        apply N1; split; congruence.
    + rewrite putAllocation_length; [done|]. simpl.
      rewrite find_putAllocation, decide_True by (split; simpl; done).
      by eexists.
    + intros i x Hi N1 _.
      apply putAllocation_other_slot; [apply putAllocation_other_slot|];
        simpl; try done; by rewrite Ka1, Ka2.
  - rewrite Hb.
    assert (A ≠ B) as Hne.
    { intros ->. apply NB. split; simpl; done. }
    split_and!.
    + exists (debited a p). rewrite !find_putAllocation.
      rewrite decide_False.
      2:{ intros [F1 F2]. simpl in *. congruence. }
      rewrite decide_True by (split; simpl; done). done.
    + exists (credited b p). rewrite find_putAllocation.
      rewrite decide_True by (split; simpl; done). done.
    + intros u m N1 N2. rewrite !find_putAllocation.
      rewrite !decide_False; [done | |]; intros [F1 F2]; simpl in *;
        [apply N1 | apply N2]; split; congruence.
    + rewrite putAllocation_length; [done|]. simpl.
      rewrite find_putAllocation, decide_False.
      2:{ intros [F1 F2]. simpl in *. congruence. }
      rewrite Kb1, Kb2, Hb. by eexists.
    + intros i x Hi N1 N2.
      apply putAllocation_other_slot; [apply putAllocation_other_slot|];
        simpl; try done; [by rewrite Ka1, Ka2 | by rewrite Kb1, Kb2].
Qed.

(** C1: a transfer that passes validation, between a sender and a receiver
    who both have a record for the current month, lowers the sender's
    [pointsRemaining] by the points sent, raises the receiver's
    [pointsReceived] by as much, appends one assignment that carries the two
    parties, the points, the category and the month, and leaves every other
    allocation record as it was. *)
Theorem handleSubmit_transfers (month newId : string) (now : Z) (f : Form)
    (s : Store) (B : User) (a b : MonthlyAllocation) :
  snd (validateForm f) = true →
  selectedUser f = Some B →
  getUserAllocation (user_id (currentUser f)) month s = Some a →
  getUserAllocation (user_id B) month s = Some b →
  let A := user_id (currentUser f) in
  let s' := snd (handleSubmit trim month newId now f s) in
  (∃ a', getUserAllocation A month s' = Some a' ∧
         pointsRemaining a' = pointsRemaining a - points f ∧
         (A ≠ user_id B → pointsReceived a' = pointsReceived a)) ∧
  (∃ b', getUserAllocation (user_id B) month s' = Some b' ∧
         pointsReceived b' = pointsReceived b + points f ∧
         (A ≠ user_id B → pointsRemaining b' = pointsRemaining b)) ∧
  (∃ x, getAssignments s' = getAssignments s ++ [x] ∧
        fromUserId x = A ∧ toUserId x = user_id B ∧
        asg_points x = points f ∧ asg_category x = category f ∧
        asg_month x = month) ∧
  (∀ u m, ¬ (u = A ∧ m = month) → ¬ (u = user_id B ∧ m = month) →
          getUserAllocation u m s' = getUserAllocation u m s) ∧
  length (getAllocations s') = length (getAllocations s) ∧
  (∀ i x, getAllocations s !! i = Some x →
          ¬ isAllocationOf A month x → ¬ isAllocationOf (user_id B) month x →
          getAllocations s' !! i = Some x).
Proof.
  intros Hv HB Ha Hb A s'.
  apply validateForm_true in Hv as (_ & Hc & _).
  destruct (handleSubmit_store month newId now f s B HB Hc) as (Hasg & Hal & _).
  fold s' in Hasg, Hal.
  destruct (settled_both month A (user_id B) (points f) (getAllocations s) a b Ha Hb)
    as (H1 & H2 & H3 & H4 & H5).
  unfold getUserAllocation. rewrite Hal. split_and!; try done.
  eexists. split; [exact Hasg|]. done.
Qed.

(** C10: once a receiver and a category are chosen, [handleSubmit] appends
    the assignment whatever the allocations hold; the sender's debit and the
    receiver's credit are each written only when that party's record for the
    month is found, so a party without a record gets no record and no
    change of balance while the assignment is still recorded. *)
Theorem handleSubmit_missing_allocation (month newId : string) (now : Z)
    (f : Form) (s : Store) (B : User) :
  selectedUser f = Some B →
  category f ≠ "" →
  let A := user_id (currentUser f) in
  let s' := snd (handleSubmit trim month newId now f s) in
  getAssignments s' = getAssignments s ++ [newAssignment trim month newId now f B] ∧
  getAllocations s' = settled month A (user_id B) (points f) (getAllocations s) ∧
  (getUserAllocation A month s = None →
     getUserAllocation A month s' = None ∧
     getAllocations s' =
       match getUserAllocation (user_id B) month s with
       | Some b => putAllocation (credited b (points f)) (getAllocations s)
       | None => getAllocations s
       end) ∧
  (getUserAllocation (user_id B) month s = None →
     getUserAllocation (user_id B) month s' = None ∧
     getAllocations s' =
       match getUserAllocation A month s with
       | Some a => putAllocation (debited a (points f)) (getAllocations s)
       | None => getAllocations s
       end).
Proof.
  intros HB Hc A s'.
  destruct (handleSubmit_store month newId now f s B HB Hc) as (Hasg & Hal & _).
  fold s' in Hasg, Hal. fold A in Hal.
  split_and!; [done | done | |].
  - intros HA. unfold getUserAllocation in *. rewrite Hal.
    unfold settled, alterAllocation.
    rewrite HA.
    destruct (find (isAllocationOf (user_id B) month) (getAllocations s))
      as [b|] eqn:Eb; [|done].
    split; [|done]. rewrite find_putAllocation.
    pose proof (find_Some_holds _ _ _ Eb) as [[K1 K2] _].
    rewrite decide_False; [done|]. intros [F1 F2]. simpl in *.
    assert (A = user_id B) as E by (by rewrite <- F1, K1).
    rewrite E, Eb in HA. done.
  - intros HB'. unfold getUserAllocation in *. rewrite Hal.
    unfold settled, alterAllocation.
    destruct (find (isAllocationOf A month) (getAllocations s))
      as [a|] eqn:Ea.
    + pose proof (find_Some_holds _ _ _ Ea) as [[K1 K2] _].
      assert (find (isAllocationOf (user_id B) month)
                (putAllocation (debited a (points f)) (getAllocations s)) = None)
        as HN.
      { rewrite find_putAllocation, decide_False; [done|].
        intros [F1 F2]. simpl in *.
        assert (A = user_id B) as E by (by rewrite <- K1, F1).
        rewrite E, HB' in Ea. done. }
      by rewrite HN.
    + by rewrite HB'.
Qed.

Lemma orZero_Some v : orZero (Some v) = v.
Proof. unfold orZero. by destruct (decide (v = 0)) as [->|]. Qed.

(** What the dialog loads when it opens: the sender's [pointsRemaining],
    or zero without a record. *)
Lemma availablePoints_mount month s cu :
  availablePoints (mount month s cu) =
    default 0 (pointsRemaining <$> getUserAllocation (user_id cu) month s).
Proof.
  unfold mount, loadEffect. simpl.
  destruct (getUserAllocation (user_id cu) month s); simpl; [|done].
  apply orZero_Some.
Qed.

(** C2: an attempt that asks for more points than [availablePoints], the
    sender's [pointsRemaining] as loaded when the dialog opened, fails
    validation with the points message, never shows the confirmation, and
    leaves the whole store as it was. *)
Theorem excess_points_rejected (month newId : string) (now : Z) (f : Form)
    (s : Store) :
  showConfirmation f = false →
  points f > availablePoints f →
  snd (validateForm f) = false ∧
  err_points (fst (validateForm f)) = Some (OnlyAvailable (availablePoints f)) ∧
  showConfirmation (handlePreview f) = false ∧
  snd (attemptTransfer trim month newId now f s) = s ∧
  (availablePoints f = availablePoints (mount month s (currentUser f)) →
   availablePoints f =
     default 0 (pointsRemaining <$>
                  getUserAllocation (user_id (currentUser f)) month s)).
Proof.
  intros Hshow Hp.
  assert (snd (validateForm f) = false) as Hv.
  { destruct (snd (validateForm f)) eqn:E; [|done].
    apply validateForm_true in E as (_ & _ & ?). lia. }
  assert (showConfirmation (handlePreview f) = false) as Hs.
  { unfold handlePreview. destruct (validateForm f) as [e ok]. simpl in *.
    by rewrite Hv. }
  split_and!; [done | | done | |].
  - unfold validateForm. simpl. by rewrite decide_True.
  - unfold attemptTransfer. by rewrite Hs.
  - intros ->. apply availablePoints_mount.
Qed.

(** The select offers the names of the enabled categories of the
    configuration the component reads, and no other name. *)
Lemma enabledCategories_offered s value :
  value ∈ (cat_name <$> enabledCategories s) ↔
  ∃ cat, cat ∈ categories (getSystemConfig s) ∧
         cat_name cat = value ∧ enabled cat = true.
Proof.
  unfold enabledCategories. rewrite list_elem_of_fmap. split.
  - intros (cat & -> & [He Hin]%list_elem_of_filter). by exists cat.
  - intros (cat & Hin & <- & He). exists cat. split; [done|].
    by apply list_elem_of_filter.
Qed.

(** Every form the dialog builds on a store has its category from the
    select of that store: the form it opens with has none, the select sets
    one of its items, and no other control writes the category. *)
Lemma categoryFromSelect_dialog month s cu :
  AssignPointsView.categoryFromSelect s (mount month s cu) ∧
  (∀ f c, c ∈ (cat_name <$> enabledCategories s) →
          AssignPointsView.categoryFromSelect s (chooseCategory c f)) ∧
  (∀ f, AssignPointsView.categoryFromSelect s f →
        (∀ u, AssignPointsView.categoryFromSelect s (chooseUser u f)) ∧
        (∀ v, AssignPointsView.categoryFromSelect s (choosePoints v f)) ∧
        (∀ m, AssignPointsView.categoryFromSelect s (editMessage m f)) ∧
        AssignPointsView.categoryFromSelect s (handlePreview f)).
Proof.
  split_and!.
  - by left.
  - intros f c Hc. by right.
  - intros f Hf. split_and!; try done;
      unfold handlePreview; by destruct (validateForm f).
Qed.

(** C4: the category of an attempt comes from the select, which offers the
    enabled categories of the stored configuration, or is still empty.  So
    an attempt whose category is not an enabled category of the
    configuration (every entry of that name is switched off, or there is
    none) has no category at all: validation fails with the category
    message, the confirmation is not shown, and neither the review button
    nor [handleSubmit] writes anything to the store. *)
Theorem category_gate (month newId : string) (now : Z) (f : Form) (s : Store) :
  AssignPointsView.categoryFromSelect s f →
  (∀ cat, cat ∈ categories (getSystemConfig s) →
          cat_name cat = category f → enabled cat = false) →
  snd (validateForm f) = false ∧
  err_category (fst (validateForm f)) = Some MustSelectCategory ∧
  (showConfirmation f = false → showConfirmation (handlePreview f) = false) ∧
  snd (attemptTransfer trim month newId now f s) = s ∧
  snd (handleSubmit trim month newId now f s) = s.
Proof.
  intros Hfrom Hoff.
  assert (category f = "") as Hc.
  { destruct Hfrom as [Hc|Hin]; [done|].
    apply enabledCategories_offered in Hin as (cat & Hin & Hn & He).
    rewrite (Hoff cat Hin Hn) in He. discriminate He. }
  assert (snd (validateForm f) = false) as Hv.
  { destruct (snd (validateForm f)) eqn:E; [|done].
    by apply validateForm_true in E as (_ & ? & _). }
  assert (∀ g, category g = "" → snd (handleSubmit trim month newId now g s) = s)
    as Hsub.
  { intros g Hg. unfold handleSubmit. destruct (selectedUser g); [|done].
    by rewrite decide_True. }
  split_and!; [done | | | |].
  - unfold validateForm. simpl. by rewrite decide_True.
  - intros Hshow. unfold handlePreview.
    destruct (validateForm f) as [e ok]. simpl in *. by rewrite Hv.
  - unfold attemptTransfer.
    destruct (showConfirmation (handlePreview f)); [|done].
    apply Hsub. unfold handlePreview. by destruct (validateForm f).
  - by apply Hsub.
Qed.

End Transfer.

(** ** The stored configuration *)

Section Config.
Import storage.

(** C6: on a stored configuration without [onboardingSteps] the loaded
    configuration carries the four default steps; the categories, the
    fields unknown to the current type and every later field the record
    does hold come back as stored; a missing [loginContent] and a missing
    [emailNotifications] are filled from the defaults in the same way, each
    on its own. *)
Theorem getSystemConfig_backfills (s : Store) (cfg : SystemConfig) :
  st_systemConfig s = Some cfg →
  let r := getSystemConfig s in
  (onboardingSteps cfg = None →
     onboardingSteps r = onboardingSteps getDefaultConfig ∧
     length <$> onboardingSteps r = Some 4%nat) ∧
  (loginContent cfg = None → loginContent r = loginContent getDefaultConfig) ∧
  (emailNotifications cfg = None →
     emailNotifications r = emailNotifications getDefaultConfig) ∧
  categories r = categories cfg ∧
  extraFields r = extraFields cfg ∧
  (∀ v, onboardingSteps cfg = Some v → onboardingSteps r = Some v) ∧
  (∀ v, loginContent cfg = Some v → loginContent r = Some v) ∧
  (∀ v, emailNotifications cfg = Some v → emailNotifications r = Some v).
Proof.
  intros Hs r. subst r. unfold getSystemConfig. rewrite Hs. simpl.
  split_and!; try done; intros; by repeat match goal with
    | H : _ = _ |- _ => rewrite H end.
Qed.

End Config.

(** ** The admin reset *)

Section Reset.
Import storage AdminSettings Ledger.

Lemma resetFields_key rt a :
  alloc_userId (resetFields rt a) = alloc_userId a ∧
  alloc_month (resetFields rt a) = alloc_month a.
Proof. by destruct rt. Qed.

Lemma resetFields_twice rt a : resetFields rt (resetFields rt a) = resetFields rt a.
Proof. by destruct rt. Qed.

Lemma find_resetRecord month rt al x u m :
  find (isAllocationOf u m) (resetRecord month rt al x) =
    if decide (u = x ∧ m = month)
    then resetFields rt <$> find (isAllocationOf u m) al
    else find (isAllocationOf u m) al.
Proof. apply find_alterAllocation, resetFields_key. Qed.

Lemma find_foldl_resetRecord month rt sel al u m :
  find (isAllocationOf u m) (foldl (resetRecord month rt) al sel) =
    if decide (u ∈ sel ∧ m = month)
    then resetFields rt <$> find (isAllocationOf u m) al
    else find (isAllocationOf u m) al.
Proof.
  revert al. induction sel as [|x sel IH]; intros al.
  - rewrite decide_False; [done|]. intros [H _]. by apply not_elem_of_nil in H.
  - change (foldl (resetRecord month rt) al (x :: sel))
      with (foldl (resetRecord month rt) (resetRecord month rt al x) sel).
    rewrite IH, find_resetRecord.
    destruct (decide (u ∈ sel ∧ m = month)) as [[Hin Hm]|N1];
      destruct (decide (u = x ∧ m = month)) as [[Hx Hm']|N2].
    + rewrite decide_True by (split; [by right|done]).
      destruct (find _ al); simpl; [|done]. by rewrite resetFields_twice.
    + rewrite decide_True by (split; [by right|done]). done.
    + rewrite decide_True by (split; [rewrite Hx; left|done]). done.
    + rewrite decide_False; [done|].
      intros [[Hx|Hin]%elem_of_cons Hm]; [apply N2 | apply N1]; done.
Qed.

(** The array read before the loop and the stored array move together. *)
Lemma foldl_resetOne month rt sel s :
  let r := foldl (resetOne month rt) (getAllocations s, s) sel in
  fst r = foldl (resetRecord month rt) (getAllocations s) sel ∧
  getAllocations (snd r) = fst r ∧
  getAssignments (snd r) = getAssignments s ∧
  getUsers (snd r) = getUsers s ∧
  st_systemConfig (snd r) = st_systemConfig s.
Proof.
  revert s. induction sel as [|x sel IH]; intros s; simpl; [done|].
  unfold resetOne at 2. unfold resetRecord at 2, alterAllocation. unfold find.
  destruct (list_find (isAllocationOf x month) (getAllocations s))
    as [[i a]|] eqn:E; simpl.
  - pose proof E as E'. apply list_find_Some in E' as (_ & [K1 K2] & _).
    pose proof (resetFields_key rt a) as [R1 R2].
    rewrite (insert_found x month _ _ a) by (done || congruence).
    specialize (IH (updateAllocation (resetFields rt a) s)).
    rewrite getAllocations_updateAllocation in IH. apply IH.
  - apply IH.
Qed.

Lemma handleResetPoints_reads month rt sel s :
  let s' := handleResetPoints month rt sel s in
  (∀ u m, getUserAllocation u m s' =
          if decide (u ∈ sel ∧ m = month)
          then resetFields rt <$> getUserAllocation u m s
          else getUserAllocation u m s) ∧
  getUsers s' = getUsers s ∧
  getAssignments s' =
    match rt with
    | total =>
        filter (λ a, asg_month a ≠ month ∨
                     ((toUserId a ∉ sel) ∧ (fromUserId a ∉ sel)))
               (getAssignments s)
    | partial => getAssignments s
    end.
Proof.
  intros s'. subst s'. unfold handleResetPoints.
  destruct sel as [|x sel].
  { split_and!; [|done|].
    - intros u m. rewrite decide_False; [done|].
      intros [H _]. by apply not_elem_of_nil in H.
    - destruct rt; [done|].
      induction (getAssignments s) as [|y l IHl]; [done|].
      rewrite filter_cons, decide_True, <- IHl; [done|].
      right; split; apply not_elem_of_nil. }
  destruct (foldl_resetOne month rt (x :: sel) s) as (H1 & H2 & H3 & H4 & _).
  set (r := foldl (resetOne month rt) (getAllocations s, s) (x :: sel)) in *.
  split_and!.
  - intros u m. unfold getUserAllocation.
    rewrite <- find_foldl_resetRecord, <- H1, <- H2. by destruct rt.
  - by destruct rt.
  - by destruct rt.
Qed.

(** C5: after a total reset every selected user who has a record for the
    current month holds ten points to give and none received; no assignment
    of that month that involves the user is left; the assignments of other
    months, and those of the month between users who were not selected,
    are all kept, in their order. *)
Theorem total_reset_effect (month : string) (selectedUsers : list string)
    (s : Store) (u : string) (a : MonthlyAllocation) :
  u ∈ selectedUsers →
  getUserAllocation u month s = Some a →
  let s' := handleResetPoints month total selectedUsers s in
  getUserAllocation u month s' = Some (mkAllocation u month 10 0) ∧
  (∀ x, x ∈ getAssignments s' →
        ¬ (asg_month x = month ∧ (fromUserId x = u ∨ toUserId x = u))) ∧
  (∀ x, x ∈ getAssignments s →
        asg_month x ≠ month ∨
          ((toUserId x ∉ selectedUsers) ∧ (fromUserId x ∉ selectedUsers)) →
        x ∈ getAssignments s') ∧
  getAssignments s' =
    filter (λ x, asg_month x ≠ month ∨
                 ((toUserId x ∉ selectedUsers) ∧ (fromUserId x ∉ selectedUsers)))
           (getAssignments s).
Proof.
  intros Hu Ha s'.
  destruct (handleResetPoints_reads month total selectedUsers s) as (H1 & _ & H3).
  fold s' in H1, H3. split_and!.
  - rewrite H1, decide_True by done. rewrite Ha. simpl.
    apply getUserAllocation_key in Ha as [-> ->]. done.
  - intros x Hx. rewrite H3 in Hx. apply list_elem_of_filter in Hx as [Hk _].
    intros [Hm [Hf|Ht]]; destruct Hk as [Hk|[Hk1 Hk2]]; try done.
    + apply Hk2. by rewrite Hf.
    + apply Hk1. by rewrite Ht.
  - intros x Hx Hk. rewrite H3. apply list_elem_of_filter. done.
  - exact H3.
Qed.

End Reset.

(** ** Login *)

Section LoginProps.
Import storage Login.
Context (toLowerCase : string → string).

(** C7, as the code has it: an address outside the corporate domain is
    turned away with the inline message, [onLogin] is not called and the
    store is left alone, unless the address is that of a stored superadmin,
    who is let in before the domain is looked at. *)
Theorem non_corporate_email (month email : string) (s : Store) :
  (endsWith email "@grupoprominente.com" = false →
   (∀ u, findByEmail toLowerCase email (getUsers s) = Some u →
         user_role u ≠ superadmin) →
   handleLogin toLowerCase month email s = reject NotCorporateEmail s ∧
   onLogin (handleLogin toLowerCase month email s) = None ∧
   store (handleLogin toLowerCase month email s) = s ∧
   error (handleLogin toLowerCase month email s) = errorText NotCorporateEmail) ∧
  (∀ u, findByEmail toLowerCase email (getUsers s) = Some u →
        user_role u = superadmin →
        handleLogin toLowerCase month email s = accept month u s).
Proof.
  split.
  - intros He Hrole.
    assert (handleLogin toLowerCase month email s = reject NotCorporateEmail s) as E.
    { unfold handleLogin. rewrite He. simpl.
      destruct (findByEmail toLowerCase email (getUsers s)) as [u|] eqn:Eu; [|done].
      rewrite decide_False; [done|]. by apply Hrole. }
    by rewrite E.
  - intros u Eu Hr. unfold handleLogin. rewrite Eu. by rewrite decide_True.
Qed.

End LoginProps.

(** ** The report *)

Section Report.
Import storage PeopleDashboard Ledger.

Lemma reportRow_assignments month s1 s2 u :
  getAssignments s1 = getAssignments s2 →
  withoutPointsGiven (reportRow month s1 u) = withoutPointsGiven (reportRow month s2 u).
Proof.
  intros E. unfold withoutPointsGiven, reportRow, currentMonthAssignments. simpl.
  by rewrite E.
Qed.

Lemma pointsGiven_reportRow month s u :
  pointsGiven (reportRow month s u) =
    match getUserAllocation (user_id u) month s with
    | Some a => 10 - pointsRemaining a
    | None => 0
    end.
Proof. done. Qed.

(** A row is its columns other than [pointsGiven], and that column. *)
Lemma reportRow_columns (r1 r2 : ReportRow) :
  withoutPointsGiven r1 = withoutPointsGiven r2 →
  pointsGiven r1 = pointsGiven r2 → r1 = r2.
Proof.
  destruct r1, r2. unfold withoutPointsGiven. simpl. intros [= -> -> -> -> -> -> ->] ->.
  done.
Qed.

(** C9, as the code has it: for the same users and the same assignments
    two stores give the same assignments of the month, the same category
    totals and report rows that agree in every column but [pointsGiven];
    that column is ten minus the [pointsRemaining] of the user's allocation
    record, or zero without a record.  So the two reports are the same
    exactly when that figure is the same in both stores for every stored
    user, which is so, among other cases, when the users' allocation records
    agree. *)
Theorem report_of_assignments (month : string) (s1 s2 : Store) :
  getUsers s1 = getUsers s2 →
  getAssignments s1 = getAssignments s2 →
  loaded_users (loadData month s1) = loaded_users (loadData month s2) ∧
  loaded_assignments (loadData month s1) = loaded_assignments (loadData month s2) ∧
  categoryTotals (loadData month s1) = categoryTotals (loadData month s2) ∧
  withoutPointsGiven <$> reportData (loadData month s1)
    = withoutPointsGiven <$> reportData (loadData month s2) ∧
  (∀ s u, pointsGiven (reportRow month s u) =
          match getUserAllocation (user_id u) month s with
          | Some a => 10 - pointsRemaining a
          | None => 0
          end) ∧
  (loadData month s1 = loadData month s2 ↔
   ∀ u, u ∈ getUsers s1 →
        match getUserAllocation (user_id u) month s1 with
        | Some a => 10 - pointsRemaining a
        | None => 0
        end =
        match getUserAllocation (user_id u) month s2 with
        | Some a => 10 - pointsRemaining a
        | None => 0
        end) ∧
  ((∀ u, u ∈ getUsers s1 →
         getUserAllocation (user_id u) month s1
           = getUserAllocation (user_id u) month s2) →
   loadData month s1 = loadData month s2).
Proof.
  intros Hu Ha.
  assert ((∀ u, u ∈ getUsers s1 →
                pointsGiven (reportRow month s1 u) = pointsGiven (reportRow month s2 u)) →
          loadData month s1 = loadData month s2) as Hsame.
  { intros Hg. unfold loadData, currentMonthAssignments. rewrite <- Hu, Ha.
    f_equal. apply list_fmap_ext. intros i u Hi.
    apply reportRow_columns; [by apply reportRow_assignments|].
    apply Hg. by eapply list_elem_of_lookup_2. }
  split_and!.
  - exact Hu.
  - unfold loadData, currentMonthAssignments. simpl. by rewrite Ha.
  - unfold loadData, currentMonthAssignments. simpl. by rewrite Ha.
  - unfold loadData. simpl. rewrite Hu, <- !list_fmap_compose.
    apply list_fmap_ext. intros i u _. unfold compose.
    exact (reportRow_assignments month s1 s2 u Ha).
  - intros s u. apply pointsGiven_reportRow.
  - split.
    + intros E u Hin. rewrite <- !pointsGiven_reportRow.
      apply list_elem_of_lookup_1 in Hin as [i Hi].
      assert (reportData (loadData month s1) !! i = reportData (loadData month s2) !! i)
        as Ei by (by rewrite E).
      unfold loadData in Ei. cbn [reportData] in Ei.
      rewrite <- Hu, !list_lookup_fmap, Hi in Ei.
      cbn [fmap option_fmap option_map] in Ei. apply (inj Some) in Ei. by rewrite Ei.
    + intros Hg. apply Hsame. intros u Hin. rewrite !pointsGiven_reportRow.
      by apply Hg.
  - intros Hal. apply Hsame. intros u Hin. rewrite !pointsGiven_reportRow.
    by rewrite Hal.
Qed.

End Report.

(** ** The ledger invariants *)

Section LedgerArrays.
Import storage Ledger.
Implicit Types (al : list MonthlyAllocation) (l : list PointAssignment).

(** What a key reads after the two writes of a transfer. *)
Lemma find_settled month A B p al u m :
  find (isAllocationOf u m) (settled month A B p al) =
    (λ a, let a1 := if decide (u = A ∧ m = month) then debited a p else a in
          if decide (u = B ∧ m = month) then credited a1 p else a1)
      <$> find (isAllocationOf u m) al.
Proof.
  unfold settled. rewrite !find_alterAllocation by done.
  destruct (decide (u = B ∧ m = month)), (decide (u = A ∧ m = month)),
    (find (isAllocationOf u m) al); done.
Qed.

Lemma sumPoints_app l1 l2 : sumPoints (l1 ++ l2) = sumPoints l1 + sumPoints l2.
Proof. induction l1 as [|x l1 IH]; simpl; [done|]. rewrite IH. lia. Qed.

Lemma givenIn_snoc u m l x :
  givenIn u m (l ++ [x]) =
    givenIn u m l + if decide (fromUserId x = u ∧ asg_month x = m)
                    then asg_points x else 0.
Proof.
  unfold givenIn. rewrite filter_app, sumPoints_app. f_equal.
  rewrite filter_cons, filter_nil. case_decide; simpl; lia.
Qed.

Lemma receivedIn_snoc u m l x :
  receivedIn u m (l ++ [x]) =
    receivedIn u m l + if decide (toUserId x = u ∧ asg_month x = m)
                       then asg_points x else 0.
Proof.
  unfold receivedIn. rewrite filter_app, sumPoints_app. f_equal.
  rewrite filter_cons, filter_nil. case_decide; simpl; lia.
Qed.

(** Recording an assignment of the month and making the two writes keeps
    the books: the debit answers the new entry of the sender, the credit
    that of the receiver; a party without a record has none afterwards. *)
Lemma budget_settled month al l x :
  asg_month x = month →
  budgetAccountedIn al l →
  budgetAccountedIn
    (settled month (fromUserId x) (toUserId x) (asg_points x) al) (l ++ [x]).
Proof.
  intros Hm H u m a'. rewrite find_settled.
  destruct (find (isAllocationOf u m) al) as [a|] eqn:E; [|done].
  simpl. intros [= <-]. specialize (H u m a E). rewrite givenIn_snoc.
  repeat case_decide; simpl; try lia; exfalso;
    repeat match goal with K : _ ∧ _ |- _ => destruct K end;
    match goal with K : ¬ _ |- _ => apply K; split; congruence end.
Qed.

Lemma received_settled month al l x :
  asg_month x = month →
  receivedAccountedIn al l →
  receivedAccountedIn
    (settled month (fromUserId x) (toUserId x) (asg_points x) al) (l ++ [x]).
Proof.
  intros Hm H u m a'. rewrite find_settled.
  destruct (find (isAllocationOf u m) al) as [a|] eqn:E; [|done].
  simpl. intros [= <-]. specialize (H u m a E). rewrite receivedIn_snoc.
  repeat case_decide; simpl; try lia; exfalso;
    repeat match goal with K : _ ∧ _ |- _ => destruct K end;
    match goal with K : ¬ _ |- _ => apply K; split; congruence end.
Qed.

Lemma settled_is_Some month A B p al u m :
  is_Some (find (isAllocationOf u m) (settled month A B p al)) ↔
  is_Some (find (isAllocationOf u m) al).
Proof. rewrite find_settled. apply fmap_is_Some. Qed.

(** Without a record for a party no assignment of hers is on the books,
    once every party of a recorded assignment has a record. *)
Lemma givenIn_absent u m s :
  (∀ x, x ∈ getAssignments s →
        is_Some (getUserAllocation (fromUserId x) (asg_month x) s) ∧
        is_Some (getUserAllocation (toUserId x) (asg_month x) s)) →
  getUserAllocation u m s = None →
  givenIn u m (getAssignments s) = 0 ∧ receivedIn u m (getAssignments s) = 0.
Proof.
  intros H HN. unfold givenIn, receivedIn.
  induction (getAssignments s) as [|x l IH]; [done|].
  rewrite !filter_cons.
  destruct (H x) as [[a Ha] [b Hb]]; [left|].
  destruct IH as [IH1 IH2]; [intros y Hy; apply H; by right|].
  rewrite !decide_False; [done| |].
  - intros [<- <-]. rewrite HN in Hb. done.
  - intros [<- <-]. rewrite HN in Ha. done.
Qed.

End LedgerArrays.

Section Seeding.
Import storage Ledger.
Context (month : string).

Lemma ensure_reads x s u m :
  getUserAllocation u m (snd (ensureMonthlyAllocation month x s)) =
    match getUserAllocation u m s with
    | Some a => Some a
    | None => if decide (u = x ∧ m = month)
              then Some (mkAllocation x month 10 0) else None
    end.
Proof.
  unfold ensureMonthlyAllocation.
  destruct (getUserAllocation x month s) as [a0|] eqn:E0; simpl.
  - destruct (getUserAllocation u m s) eqn:E; [done|].
    rewrite decide_False; [done|]. intros [-> ->]. rewrite E0 in E. done.
  - rewrite getUserAllocation_updateAllocation.
    destruct (decide (isAllocationOf u m _)) as [[F1 F2]|N]; simpl in *.
    + subst u m. rewrite E0. by rewrite decide_True.
    + destruct (getUserAllocation u m s); [done|].
      rewrite decide_False; [done|]. intros [-> ->]. by apply N.
Qed.

Lemma ensure_keeps x s :
  getUsers (snd (ensureMonthlyAllocation month x s)) = getUsers s ∧
  getAssignments (snd (ensureMonthlyAllocation month x s)) = getAssignments s.
Proof.
  unfold ensureMonthlyAllocation. by destruct (getUserAllocation x month s).
Qed.

(** The first loop of the seeding: every user of the list gets a record,
    and records are fresh ones when the store held none. *)
Lemma ensure_all (L : list User) (s1 : Store) :
  let s2 := foldl (λ acc user, snd (ensureMonthlyAllocation month (user_id user) acc))
                  s1 L in
  getUsers s2 = getUsers s1 ∧
  getAssignments s2 = getAssignments s1 ∧
  (∀ u m, is_Some (getUserAllocation u m s1) → is_Some (getUserAllocation u m s2)) ∧
  (∀ i, i ∈ (user_id <$> L) → is_Some (getUserAllocation i month s2)) ∧
  ((∀ u m a, getUserAllocation u m s1 = Some a →
             pointsRemaining a = 10 ∧ pointsReceived a = 0) →
   ∀ u m a, getUserAllocation u m s2 = Some a →
            pointsRemaining a = 10 ∧ pointsReceived a = 0).
Proof.
  revert s1. induction L as [|x L IH]; intros s1; simpl.
  - split_and!; try done. intros i Hi. by apply elem_of_nil in Hi.
  - specialize (IH (snd (ensureMonthlyAllocation month (user_id x) s1))).
    simpl in IH. destruct IH as (I1 & I2 & I3 & I4 & I5).
    destruct (ensure_keeps (user_id x) s1) as [K1 K2].
    split_and!.
    + by rewrite I1.
    + by rewrite I2.
    + intros u m [a Ha]. apply I3. rewrite ensure_reads, Ha. by eexists.
    + intros i [->|Hi]%elem_of_cons; [|by apply I4].
      apply I3. rewrite ensure_reads.
      destruct (getUserAllocation (user_id x) month s1); [by eexists|].
      rewrite decide_True by done. by eexists.
    + intros Hfresh. apply I5. intros u m a. rewrite ensure_reads.
      destruct (getUserAllocation u m s1) as [a0|] eqn:E.
      * intros [= <-]. by eapply Hfresh.
      * case_decide; [|done]. by intros [= <-].
Qed.

Lemma settleDemoAssignment_store s x :
  getAllocations (settleDemoAssignment month s x) =
    settled month (fromUserId x) (toUserId x) (asg_points x) (getAllocations s) ∧
  getAssignments (settleDemoAssignment month s x) = getAssignments s ∧
  getUsers (settleDemoAssignment month s x) = getUsers s.
Proof.
  unfold settleDemoAssignment, settled, alterAllocation, getUserAllocation.
  destruct (find (isAllocationOf (fromUserId x) month) (getAllocations s)) as [a|].
  - rewrite getAllocations_updateAllocation.
    by destruct (find (isAllocationOf (toUserId x) month) _) as [b|].
  - by destruct (find (isAllocationOf (toUserId x) month) _) as [b|].
Qed.

Lemma settle_all (L : list PointAssignment) (s : Store) :
  getAllocations (foldl (settleDemoAssignment month) s L) =
    foldl (λ al x, settled month (fromUserId x) (toUserId x) (asg_points x) al)
          (getAllocations s) L ∧
  getAssignments (foldl (settleDemoAssignment month) s L) = getAssignments s ∧
  getUsers (foldl (settleDemoAssignment month) s L) = getUsers s.
Proof.
  revert s. induction L as [|x L IH]; intros s; simpl; [done|].
  destruct (IH (settleDemoAssignment month s x)) as (I1 & I2 & I3).
  destruct (settleDemoAssignment_store s x) as (S1 & S2 & S3).
  rewrite I1, I2, I3, S1, S2, S3. done.
Qed.

Lemma accounted_all (L P : list PointAssignment) (al : list MonthlyAllocation) :
  Forall (λ x, asg_month x = month) L →
  budgetAccountedIn al P → receivedAccountedIn al P →
  let al' := foldl (λ al x, settled month (fromUserId x) (toUserId x) (asg_points x) al)
                   al L in
  budgetAccountedIn al' (P ++ L) ∧ receivedAccountedIn al' (P ++ L) ∧
  (∀ u m, is_Some (find (isAllocationOf u m) al') ↔
          is_Some (find (isAllocationOf u m) al)).
Proof.
  revert P al. induction L as [|x L IH]; intros P al HL HB HR; simpl.
  - by rewrite app_nil_r.
  - apply Forall_cons in HL as [Hx HL].
    destruct (IH (P ++ [x]) _ HL (budget_settled month al P x Hx HB)
                (received_settled month al P x Hx HR)) as (I1 & I2 & I3).
    rewrite <- app_assoc in I1, I2. simpl in I1, I2.
    split_and!; [done | done |].
    intros u m. rewrite I3. apply settled_is_Some.
Qed.

Lemma demo_given_le now u m : givenIn u m (demoAssignments month now) ≤ 10.
Proof.
  unfold givenIn, demoAssignments. rewrite !filter_cons, filter_nil.
  repeat case_decide; simpl in *; try lia; exfalso;
    repeat match goal with K : _ ∧ _ |- _ => destruct K end; congruence.
Qed.

(** The demo assignments are of the month of the seeding and between demo
    users. *)
Lemma demo_parties now x :
  x ∈ demoAssignments month now →
  asg_month x = month ∧
  fromUserId x ∈ (user_id <$> demoUsers) ∧ toUserId x ∈ (user_id <$> demoUsers).
Proof.
  revert x. apply Forall_forall. unfold demoAssignments.
  repeat (apply Forall_cons; split;
          [split_and!; [reflexivity | |];
           cbn [fromUserId toUserId]; apply (bool_decide_unpack _); by vm_compute |]).
  apply Forall_nil_2.
Qed.

(** The seeded store: the demo users and assignments, a record for every
    user, and books that balance. *)
Lemma seeded_store now :
  let s := initializeDemoData month now emptyStore in
  getUsers s = demoUsers ∧
  getAssignments s = demoAssignments month now ∧
  (∀ i, i ∈ (user_id <$> demoUsers) → is_Some (getUserAllocation i month s)) ∧
  budgetAccounted s ∧ receivedAccounted s.
Proof.
  intros s. subst s. unfold initializeDemoData.
  change (getUsers emptyStore) with (@nil User). cbv beta iota zeta.
  set (s1 := setUsers demoUsers emptyStore).
  destruct (ensure_all demoUsers s1) as (E1 & E2 & _ & E4 & E5).
  set (s2 := foldl _ s1 demoUsers) in *.
  set (s3 := setAssignments (demoAssignments month now) s2).
  destruct (settle_all (demoAssignments month now) s3) as (S1 & S2 & S3).
  set (s4 := foldl _ s3 _) in *.
  assert (Forall (λ x, asg_month x = month) (demoAssignments month now)) as HL.
  { unfold demoAssignments. repeat constructor. }
  destruct (accounted_all (demoAssignments month now) [] (getAllocations s3) HL)
    as (A1 & A2 & A3).
  { intros u m a Ha. destruct (E5 ltac:(done) u m a Ha) as [-> _]. done. }
  { intros u m a Ha. destruct (E5 ltac:(done) u m a Ha) as [_ ->]. done. }
  change ([] ++ demoAssignments month now) with (demoAssignments month now) in A1, A2.
  rewrite <- S1 in A1, A2, A3.
  split_and!.
  - by rewrite S3.
  - by rewrite S2.
  - intros i Hi. unfold getUserAllocation. apply A3. by apply E4.
  - unfold budgetAccounted. rewrite S2. exact A1.
  - unfold receivedAccounted. rewrite S2. exact A2.
Qed.

End Seeding.

Section LedgerInvariants.
Import storage AssignPoints AdminSettings Ledger.
Context (trim : string → string) (month : string).

Lemma handleSubmit_after_preview newId now f s :
  snd (handleSubmit trim month newId now (handlePreview f) s)
    = snd (handleSubmit trim month newId now f s).
Proof.
  unfold handleSubmit, handlePreview, newAssignment.
  destruct (validateForm f) as [e ok]. simpl.
  destruct (selectedUser f); [|done]. by destruct (decide (category f = "")).
Qed.

(** An attempt from the form view either changes nothing or is a validated
    submit. *)
Lemma attemptTransfer_cases newId now f s :
  showConfirmation f = false →
  snd (attemptTransfer trim month newId now f s) = s ∨
  (snd (validateForm f) = true ∧
   snd (attemptTransfer trim month newId now f s)
     = snd (handleSubmit trim month newId now f s)).
Proof.
  intros Hs. unfold attemptTransfer.
  destruct (showConfirmation (handlePreview f)) eqn:E.
  - right. rewrite handleSubmit_after_preview. split; [|done].
    unfold handlePreview in E. destruct (validateForm f) as [e ok]. simpl in *.
    destruct ok; [done|]. congruence.
  - by left.
Qed.

Lemma seed_kept aP aT now : ledgerKept month aP aT (initializeDemoData month now emptyStore).
Proof.
  destruct (seeded_store month now) as (Hu & Ha & Hrec & HB & HR).
  split_and!; [split| | done | done].
  - intros u Hin. apply Hrec. rewrite Hu in Hin. by apply list_elem_of_fmap_2.
  - intros x Hx. rewrite Ha in Hx.
    destruct (demo_parties month now x Hx) as (-> & Hfrom & Hto).
    split; by apply Hrec.
  - intros u m a E. specialize (HB u m a E). rewrite Ha in HB.
    pose proof (demo_given_le month now u m). lia.
Qed.

Lemma transfer_kept aP aT s sender receiver value cat msg newId now :
  ledgerKept month aP aT s →
  sender ∈ getUsers s →
  receiver ∈ AssignPoints.users (mount month s sender) →
  value ∈ pointChoices →
  ledgerKept month aP aT
    (snd (attemptTransfer trim month newId now
            (editMessage msg (chooseCategory cat (choosePoints value
               (chooseUser receiver (mount month s sender))))) s)).
Proof.
  intros ([Pu Pa] & Hneg & HB & HR) Hsender Hreceiver Hvalue.
  set (f := editMessage msg _).
  destruct (attemptTransfer_cases newId now f s eq_refl) as [->|[Hv ->]]; [done|].
  apply validateForm_true in Hv as (_ & Hc & Hp).
  destruct (handleSubmit_store trim month newId now f s receiver eq_refl Hc)
    as (Easg & Eal & Eus & _).
  set (s' := snd (handleSubmit trim month newId now f s)) in *.
  set (x := newAssignment trim month newId now f receiver) in *.
  change (points f) with (asg_points x) in Eal.
  change (user_id (currentUser f)) with (fromUserId x) in Eal.
  change (user_id receiver) with (toUserId x) in Eal.
  assert (Hkeep : ∀ u m, is_Some (getUserAllocation u m s) →
                         is_Some (getUserAllocation u m s')).
  { intros u m Hsome. unfold getUserAllocation. rewrite Eal.
    by apply settled_is_Some. }
  assert (receiver ∈ getUsers s) as Hrec.
  { unfold mount, loadEffect in Hreceiver. simpl in Hreceiver.
    by apply list_elem_of_filter in Hreceiver as [_ ?]. }
  split_and!; [split| | |].
  - intros u Hu. rewrite Eus in Hu. by apply Hkeep, Pu.
  - intros y Hy. rewrite Easg in Hy. apply elem_of_app in Hy as [Hy|Hy].
    + destruct (Pa y Hy). split; by apply Hkeep.
    + apply list_elem_of_singleton in Hy as ->.
      split; apply Hkeep; simpl; by apply Pu.
  - intros u m a'. unfold getUserAllocation. rewrite Eal, find_settled.
    destruct (find (isAllocationOf u m) (getAllocations s)) as [a|] eqn:E; [|done].
    simpl. intros [= <-]. specialize (Hneg u m a E).
    assert (u = user_id sender ∧ m = month → value ≤ pointsRemaining a) as Hle.
    { intros [-> ->].
      change (availablePoints f) with (availablePoints (mount month s sender)) in Hp.
      rewrite availablePoints_mount in Hp. unfold getUserAllocation in Hp.
      rewrite E in Hp. exact Hp. }
    repeat case_decide; simpl; try lia; specialize (Hle ltac:(done)); lia.
  - intros HaT.
    change (budgetAccountedIn (getAllocations s') (getAssignments s')).
    rewrite Easg, Eal. apply budget_settled; [done|]. by apply HB.
  - intros HaP HaT.
    change (receivedAccountedIn (getAllocations s') (getAssignments s')).
    rewrite Easg, Eal. apply received_settled; [done|]. by apply HR.
Qed.

Lemma ensure_kept aP aT s userId :
  ledgerKept month aP aT s →
  ledgerKept month aP aT (snd (ensureMonthlyAllocation month userId s)).
Proof.
  intros ([Pu Pa] & Hneg & HB & HR).
  destruct (ensure_keeps month userId s) as [Eus Easg].
  set (s' := snd (ensureMonthlyAllocation month userId s)) in *.
  assert (Hkeep : ∀ u m, is_Some (getUserAllocation u m s) →
                         is_Some (getUserAllocation u m s')).
  { intros u m [a Ha]. subst s'. rewrite ensure_reads, Ha. by eexists. }
  assert (Hread : ∀ u m a', getUserAllocation u m s' = Some a' →
            getUserAllocation u m s = Some a' ∨
            (getUserAllocation u m s = None ∧ a' = mkAllocation userId month 10 0)).
  { intros u m a'. subst s'. rewrite ensure_reads.
    destruct (getUserAllocation u m s); [by left|].
    case_decide; [|done]. intros [= <-]. by right. }
  split_and!; [split| | |].
  - intros u Hu. rewrite Eus in Hu. by apply Hkeep, Pu.
  - intros y Hy. rewrite Easg in Hy. destruct (Pa y Hy). split; by apply Hkeep.
  - intros u m a' [E|[_ ->]]%Hread; [by eapply Hneg | simpl; lia].
  - intros HaT u m a' [E|[E ->]]%Hread; rewrite Easg; [by apply HB|].
    destruct (givenIn_absent u m s Pa E) as [-> _]. simpl. lia.
  - intros HaP HaT u m a' [E|[E ->]]%Hread; rewrite Easg; [by apply HR|].
    destruct (givenIn_absent u m s Pa E) as [_ ->]. done.
Qed.

Lemma reset_kept aP aT s rt sel :
  ledgerKept month aP aT s →
  resetAllowed aP aT rt →
  ledgerKept month aP aT (handleResetPoints month rt sel s).
Proof.
  intros ([Pu Pa] & Hneg & HB & HR) Hallow.
  destruct (handleResetPoints_reads month rt sel s) as (Eal & Eus & Easg).
  set (s' := handleResetPoints month rt sel s) in *.
  assert (Hkeep : ∀ u m, is_Some (getUserAllocation u m s) →
                         is_Some (getUserAllocation u m s')).
  { intros u m [a Ha]. rewrite Eal, Ha. case_decide; by eexists. }
  split_and!; [split| | |].
  - intros u Hu. rewrite Eus in Hu. by apply Hkeep, Pu.
  - intros y Hy. assert (y ∈ getAssignments s) as Hy'.
    { rewrite Easg in Hy. destruct rt; [done|].
      by apply list_elem_of_filter in Hy as [_ ?]. }
    destruct (Pa y Hy'). split; by apply Hkeep.
  - intros u m a'. rewrite Eal.
    destruct (getUserAllocation u m s) as [a|] eqn:E; [|by case_decide].
    specialize (Hneg u m a E).
    case_decide; simpl; intros [= <-]; [|done]. destruct rt; simpl; lia.
  - intros HaT. destruct rt; [|simpl in Hallow; congruence].
    intros u m a'. rewrite Eal, Easg.
    destruct (getUserAllocation u m s) as [a|] eqn:E; [|by case_decide].
    specialize (HB HaT u m a E).
    case_decide; simpl; intros [= <-]; done.
  - intros HaP HaT. destruct rt; simpl in Hallow; congruence.
Qed.

Lemma reachable_kept aP aT s : reachable trim month aP aT s → ledgerKept month aP aT s.
Proof.
  induction 1 as [now | s sender receiver value cat msg newId now _ IH Hs Hr Hv _
                 | s userId _ IH | s rt sel _ IH Hallow _].
  - apply seed_kept.
  - by apply transfer_kept.
  - by apply ensure_kept.
  - by apply reset_kept.
Qed.

End LedgerInvariants.

(** ** The ledger invariants over the months *)

Section OverMonths.
Import storage AssignPoints AdminSettings Ledger Operations.
Context (trim : string → string) (seedMonth : string).

Lemma receivedIn_nonneg u m (l : list PointAssignment) :
  (∀ x, x ∈ l → 0 ≤ asg_points x) → 0 ≤ receivedIn u m l.
Proof.
  intros H. unfold receivedIn. induction l as [|x l IH]; [done|].
  rewrite filter_cons.
  assert (0 ≤ sumPoints (filter (λ a, toUserId a = u ∧ asg_month a = m) l)) as IH'.
  { apply IH. intros y Hy. apply H. by right. }
  case_decide; [|done]. simpl. pose proof (H x ltac:(left)). lia.
Qed.

(** A key without a record has nothing on the log against it, once the
    sender of every recorded assignment has a record for its month. *)
Lemma givenIn_unrecorded u m s :
  (∀ x, x ∈ getAssignments s →
        is_Some (getUserAllocation (fromUserId x) (asg_month x) s)) →
  getUserAllocation u m s = None →
  givenIn u m (getAssignments s) = 0.
Proof.
  intros H HN. unfold givenIn.
  induction (getAssignments s) as [|x l IH]; [done|].
  rewrite filter_cons. destruct (H x) as [a Ha]; [left|].
  rewrite decide_False.
  - apply IH. intros y Hy. apply H. by right.
  - intros [<- <-]. rewrite HN in Ha. done.
Qed.

(** The same for the receivers of the assignments of one month. *)
Lemma receivedIn_unrecorded u m s :
  (∀ x, x ∈ getAssignments s → asg_month x = m →
        is_Some (getUserAllocation (toUserId x) m s)) →
  getUserAllocation u m s = None →
  receivedIn u m (getAssignments s) = 0.
Proof.
  intros H HN. unfold receivedIn.
  induction (getAssignments s) as [|x l IH]; [done|].
  rewrite filter_cons.
  rewrite decide_False.
  - apply IH. intros y Hy. apply H. by right.
  - intros [Hu Hm]. destruct (H x) as [a Ha]; [left|done|].
    rewrite Hu, HN in Ha. done.
Qed.

(** Under the two writes of a transfer the record of a key and the log move
    together: the credit answers the new entry of the receiver. *)
Lemma received_settled_key month al (l : list PointAssignment) x u m a' :
  asg_month x = month →
  find (isAllocationOf u m)
       (settled month (fromUserId x) (toUserId x) (asg_points x) al) = Some a' →
  ∃ a, find (isAllocationOf u m) al = Some a ∧
       pointsReceived a' - receivedIn u m (l ++ [x])
         = pointsReceived a - receivedIn u m l.
Proof.
  intros Hm. rewrite find_settled.
  destruct (find (isAllocationOf u m) al) as [a|] eqn:E; [|done].
  simpl. intros [= <-]. exists a. split; [done|]. rewrite receivedIn_snoc.
  repeat case_decide; simpl; try lia; exfalso;
    repeat match goal with K : _ ∧ _ |- _ => destruct K end;
    match goal with K : ¬ _ |- _ => apply K; split; congruence end.
Qed.

Lemma demo_points month now x : x ∈ demoAssignments month now → 0 ≤ asg_points x.
Proof.
  revert x. apply Forall_forall. unfold demoAssignments.
  repeat (apply Forall_cons; split; [simpl; lia|]). apply Forall_nil_2.
Qed.

(** The bundle reads the users, the allocations and the assignments only. *)
Lemma booksKept_reads aP aT s s' :
  getUsers s' = getUsers s →
  getAllocations s' = getAllocations s →
  getAssignments s' = getAssignments s →
  booksKept seedMonth aP aT s → booksKept seedMonth aP aT s'.
Proof.
  intros Eu Eal Easg.
  assert (∀ u m, getUserAllocation u m s' = getUserAllocation u m s) as Er.
  { intros u m. unfold getUserAllocation. by rewrite Eal. }
  unfold booksKept, remainingNonNegative, budgetAccounted, receivedAccountedFor,
    receivedWithinLog.
  rewrite Eu, Easg. by setoid_rewrite Er.
Qed.

Lemma over_seed_kept aP aT now :
  booksKept seedMonth aP aT (initializeDemoData seedMonth now emptyStore).
Proof.
  destruct (seeded_store seedMonth now) as (Hu & Ha & _).
  destruct (seed_kept seedMonth aP aT now) as ([Pu Pa] & Hneg & HB & HR).
  split_and!; [done | done | | done | done |].
  - intros x Hx. destruct (Pa x Hx) as [P1 P2]. rewrite Ha in Hx.
    destruct (demo_parties seedMonth now x Hx) as (Hm & _).
    split_and!; [by eapply demo_points | done |].
    intros _. by rewrite Hm in P2.
  - intros HaP HaT. specialize (HR HaP HaT). split.
    + intros u a E. by apply HR.
    + intros u m a E. rewrite (HR u m a E). lia.
Qed.

Lemma over_transfer_kept aP aT s month sender receiver value cat msg newId now :
  booksKept seedMonth aP aT s →
  sender ∈ getUsers s →
  receiver ∈ AssignPoints.users (mount month s sender) →
  value ∈ pointChoices →
  booksKept seedMonth aP aT
    (snd (attemptTransfer trim month newId now
            (editMessage msg (chooseCategory cat (choosePoints value
               (chooseUser receiver (mount month s sender))))) s)).
Proof.
  intros HK Hsender Hreceiver Hvalue.
  set (f := editMessage msg _).
  destruct (attemptTransfer_cases trim month newId now f s eq_refl) as [->|[Hv ->]];
    [done|].
  destruct HK as (Hus & Pu & Pa & Hneg & HB & HR).
  apply validateForm_true in Hv as (_ & Hc & Hp).
  destruct (handleSubmit_store trim month newId now f s receiver eq_refl Hc)
    as (Easg & Eal & Eus & _).
  set (s' := snd (handleSubmit trim month newId now f s)) in *.
  set (x := newAssignment trim month newId now f receiver) in *.
  change (points f) with (asg_points x) in Eal.
  change (user_id (currentUser f)) with (fromUserId x) in Eal.
  change (user_id receiver) with (toUserId x) in Eal.
  assert (1 ≤ value) as Hpos.
  { unfold pointChoices in Hvalue.
    repeat (apply elem_of_cons in Hvalue as [->|Hvalue]; [lia|]).
    by apply elem_of_nil in Hvalue. }
  change (availablePoints f) with (availablePoints (mount month s sender)) in Hp.
  change (points f) with value in Hp.
  rewrite availablePoints_mount in Hp.
  assert (is_Some (getUserAllocation (user_id sender) month s)) as Hsrec.
  { destruct (getUserAllocation (user_id sender) month s); [by eexists|].
    simpl in Hp. lia. }
  assert (Hkeep : ∀ u m, is_Some (getUserAllocation u m s) →
                         is_Some (getUserAllocation u m s')).
  { intros u m Hsome. unfold getUserAllocation. rewrite Eal.
    by apply settled_is_Some. }
  assert (receiver ∈ getUsers s) as Hrec.
  { unfold mount, loadEffect in Hreceiver. simpl in Hreceiver.
    by apply list_elem_of_filter in Hreceiver as [_ ?]. }
  split_and!.
  - by rewrite Eus.
  - intros u Hu. rewrite Eus in Hu. by apply Hkeep, Pu.
  - intros y Hy. rewrite Easg in Hy. apply elem_of_app in Hy as [Hy|Hy].
    + destruct (Pa y Hy) as (P1 & P2 & P3).
      split_and!; [done | by apply Hkeep | intros E; by apply Hkeep, P3].
    + apply list_elem_of_singleton in Hy as ->.
      split_and!; [simpl; lia | by apply Hkeep | intros _; by apply Hkeep, Pu].
  - intros u m a'. unfold getUserAllocation. rewrite Eal, find_settled.
    destruct (find (isAllocationOf u m) (getAllocations s)) as [a|] eqn:E; [|done].
    simpl. intros [= <-]. specialize (Hneg u m a E).
    assert (u = user_id sender ∧ m = month → value ≤ pointsRemaining a) as Hle.
    { intros [-> ->]. unfold getUserAllocation in Hp. rewrite E in Hp. exact Hp. }
    repeat case_decide; simpl; try lia; specialize (Hle ltac:(done)); lia.
  - intros HaT.
    change (budgetAccountedIn (getAllocations s') (getAssignments s')).
    rewrite Easg, Eal. apply budget_settled; [done|]. by apply HB.
  - intros HaP HaT. destruct (HR HaP HaT) as [HF HW]. split.
    + intros u a'. unfold getUserAllocation. rewrite Eal, Easg. intros E.
      destruct (received_settled_key month _ (getAssignments s) x u seedMonth a'
                  eq_refl E) as (a & Ea & Hd).
      specialize (HF u a Ea). lia.
    + intros u m a'. unfold getUserAllocation. rewrite Eal, Easg. intros E.
      destruct (received_settled_key month _ (getAssignments s) x u m a'
                  eq_refl E) as (a & Ea & Hd).
      specialize (HW u m a Ea). lia.
Qed.

Lemma over_ensure_kept aP aT s month userId :
  booksKept seedMonth aP aT s →
  booksKept seedMonth aP aT (snd (ensureMonthlyAllocation month userId s)).
Proof.
  intros (Hus & Pu & Pa & Hneg & HB & HR).
  destruct (ensure_keeps month userId s) as [Eus Easg].
  set (s' := snd (ensureMonthlyAllocation month userId s)) in *.
  assert (Hkeep : ∀ u m, is_Some (getUserAllocation u m s) →
                         is_Some (getUserAllocation u m s')).
  { intros u m [a Ha]. subst s'. rewrite ensure_reads, Ha. by eexists. }
  assert (Hread : ∀ u m a', getUserAllocation u m s' = Some a' →
            getUserAllocation u m s = Some a' ∨
            (getUserAllocation u m s = None ∧ a' = mkAllocation userId month 10 0)).
  { intros u m a'. subst s'. rewrite ensure_reads.
    destruct (getUserAllocation u m s); [by left|].
    case_decide; [|done]. intros [= <-]. by right. }
  split_and!.
  - by rewrite Eus.
  - intros u Hu. rewrite Eus in Hu. by apply Hkeep, Pu.
  - intros y Hy. rewrite Easg in Hy. destruct (Pa y Hy) as (P1 & P2 & P3).
    split_and!; [done | by apply Hkeep | intros E; by apply Hkeep, P3].
  - intros u m a' [E|[_ ->]]%Hread; [by eapply Hneg | simpl; lia].
  - intros HaT u m a' [E|[E ->]]%Hread; rewrite Easg; [by apply HB|].
    rewrite (givenIn_unrecorded u m s); [done | | done].
    intros y Hy. by destruct (Pa y Hy) as (_ & ? & _).
  - intros HaP HaT. destruct (HR HaP HaT) as [HF HW]. split.
    + intros u a' [E|[E ->]]%Hread; rewrite Easg; [by apply HF|].
      rewrite (receivedIn_unrecorded u seedMonth s); [done | | done].
      intros y Hy Hm. destruct (Pa y Hy) as (_ & _ & P3). by apply P3.
    + intros u m a' [E|[E ->]]%Hread; rewrite Easg; [by eapply HW|].
      simpl. apply receivedIn_nonneg. intros y Hy. by destruct (Pa y Hy).
Qed.

Lemma over_reset_kept aP aT s month rt sel :
  booksKept seedMonth aP aT s →
  resetAllowed aP aT rt →
  booksKept seedMonth aP aT (handleResetPoints month rt sel s).
Proof.
  intros (Hus & Pu & Pa & Hneg & HB & HR) Hallow.
  destruct (handleResetPoints_reads month rt sel s) as (Eal & Eus & Easg).
  set (s' := handleResetPoints month rt sel s) in *.
  assert (Hkeep : ∀ u m, is_Some (getUserAllocation u m s) →
                         is_Some (getUserAllocation u m s')).
  { intros u m [a Ha]. rewrite Eal, Ha. case_decide; by eexists. }
  split_and!.
  - by rewrite Eus.
  - intros u Hu. rewrite Eus in Hu. by apply Hkeep, Pu.
  - intros y Hy. assert (y ∈ getAssignments s) as Hy'.
    { rewrite Easg in Hy. destruct rt; [done|].
      by apply list_elem_of_filter in Hy as [_ ?]. }
    destruct (Pa y Hy') as (P1 & P2 & P3).
    split_and!; [done | by apply Hkeep | intros E; by apply Hkeep, P3].
  - intros u m a'. rewrite Eal.
    destruct (getUserAllocation u m s) as [a|] eqn:E; [|by case_decide].
    specialize (Hneg u m a E).
    case_decide; simpl; intros [= <-]; [|done]. destruct rt; simpl; lia.
  - intros HaT. destruct rt; [|simpl in Hallow; congruence].
    intros u m a'. rewrite Eal, Easg.
    destruct (getUserAllocation u m s) as [a|] eqn:E; [|by case_decide].
    specialize (HB HaT u m a E).
    case_decide; simpl; intros [= <-]; done.
  - intros HaP HaT. destruct rt; simpl in Hallow; congruence.
Qed.

Lemma handleSaveConfig_reads config s s' t :
  AdminConfig.handleSaveConfig config s = Some (s', t) →
  getUsers s' = getUsers s ∧ getAllocations s' = getAllocations s ∧
  getAssignments s' = getAssignments s ∧ st_currentUser s' = st_currentUser s.
Proof.
  unfold AdminConfig.handleSaveConfig.
  destruct (decide (length _ = 0%nat)); [by intros [= <- <-]|].
  destruct (onboardingSteps config) as [steps|]; [|done]. simpl.
  destruct (decide (length steps = 0%nat)); by intros [= <- <-].
Qed.

Lemma reachableOverMonths_kept aP aT s :
  reachableOverMonths trim seedMonth aP aT s → booksKept seedMonth aP aT s.
Proof.
  induction 1 as [now | s month now _ IH | s user _ IH | s _ IH
                 | s month userId _ IH
                 | s month sender receiver value cat msg newId now _ IH Hs Hr Hv _
                 | s month rt sel _ IH Hallow _
                 | s s' config t _ IH Hsave].
  - apply over_seed_kept.
  - assert (snd (Session.load month now s) = s) as ->; [|done].
    destruct IH as (Hus & _). unfold Session.load. cbn [snd].
    unfold initializeDemoData. rewrite Hus. reflexivity.
  - by apply (booksKept_reads aP aT s).
  - by apply (booksKept_reads aP aT s).
  - by apply over_ensure_kept.
  - by apply over_transfer_kept.
  - by apply over_reset_kept.
  - destruct (handleSaveConfig_reads config s s' t Hsave) as (E1 & E2 & E3 & _).
    by apply (booksKept_reads aP aT s).
Qed.

(** The states of the month of the seeding are among them. *)
Lemma reachable_over_months aP aT s :
  reachable trim seedMonth aP aT s → reachableOverMonths trim seedMonth aP aT s.
Proof.
  induction 1 as [now | s sender receiver value cat msg newId now _ IH Hs Hr Hv Hc
                 | s userId _ IH | s rt sel _ IH Hallow Hsel].
  - apply over_seed.
  - by apply over_transfer.
  - by apply over_ensure.
  - by apply over_reset.
Qed.

(** C3, as the code keeps it.  In every store reached from the seeded one,
    whatever the months the operations run in: [pointsRemaining] is never
    negative; the remaining points and the points given in the month of the
    record add up to ten as long as no total reset has run; and as long as no
    reset of either kind has run, the points received of a record of the
    seeding month equal the sum of the assignments received in it, while the
    points received of any record never exceed that sum for its month. *)
Theorem ledger_invariants (allowPartial allowTotal : bool) (s : Store) :
  reachableOverMonths trim seedMonth allowPartial allowTotal s →
  remainingNonNegative s ∧
  (allowTotal = false → budgetAccounted s) ∧
  (allowPartial = false → allowTotal = false →
   receivedAccountedFor seedMonth s ∧ receivedWithinLog s).
Proof.
  intros H.
  by destruct (reachableOverMonths_kept _ _ _ H) as (_ & _ & _ & ? & ? & ?).
Qed.

End OverMonths.

(** ** The properties at work on the seeded store *)

Section Samples.
Import storage AssignPoints Ledger Operations.
Import AdminSettings(partial, total, handleResetPoints).

Lemma ensureMonthlyAllocation_spec_witness :
  ensureMonthlyAllocation demoMonth "2" demoStore
    = (mkAllocation "2" demoMonth 7 4, demoStore) ∧
  ensureMonthlyAllocation demoMonth "9" demoStore
    = (mkAllocation "9" demoMonth 10 0,
       setAllocations (getAllocations demoStore ++ [mkAllocation "9" demoMonth 10 0])
         demoStore).
Proof.
  split.
  - apply (proj1 (ensureMonthlyAllocation_spec demoMonth "2" demoStore)).
    vm_compute. reflexivity.
  - apply (proj1 (proj2 (ensureMonthlyAllocation_spec demoMonth "9" demoStore))).
    vm_compute. reflexivity.
Defined.

Lemma handleSubmit_transfers_witness :
  let f := juanToMaria 3 "Liderazgo" in
  let s' := snd (handleSubmit asciiTrim demoMonth "t-1" demoNow f demoStore) in
  snd (validateForm f) = true ∧
  (∃ a', getUserAllocation "2" demoMonth s' = Some a' ∧
         pointsRemaining a' = 7 - 3 ∧
         ("2" ≠ "1" → pointsReceived a' = 4)) ∧
  (∃ b', getUserAllocation "1" demoMonth s' = Some b' ∧
         pointsReceived b' = 5 + 3 ∧
         ("2" ≠ "1" → pointsRemaining b' = 8)).
Proof.
  intros f s'.
  assert (snd (validateForm f) = true) as Hv by (vm_compute; reflexivity).
  split; [exact Hv|].
  destruct (handleSubmit_transfers asciiTrim demoMonth "t-1" demoNow f demoStore maria
              (mkAllocation "2" demoMonth 7 4) (mkAllocation "1" demoMonth 8 5)
              Hv eq_refl)
    as (H1 & H2 & _).
  - vm_compute. reflexivity.
  - vm_compute. reflexivity.
  - split; [exact H1 | exact H2].
Defined.

Lemma excess_points_rejected_witness :
  let f := juanToMaria 8 "Liderazgo" in
  points f > availablePoints f ∧
  snd (validateForm f) = false ∧
  snd (attemptTransfer asciiTrim demoMonth "t-1" demoNow f demoStore) = demoStore.
Proof.
  intros f.
  assert (points f > availablePoints f) as Hp by (vm_compute; reflexivity).
  split; [exact Hp|].
  destruct (excess_points_rejected asciiTrim demoMonth "t-1" demoNow f demoStore
              eq_refl Hp) as (H1 & _ & _ & H4 & _).
  split; [exact H1 | exact H4].
Defined.

(** A sender the store holds no record for: the assignment is recorded,
    no record appears for the sender, the receiver is credited. *)
Lemma handleSubmit_missing_allocation_witness :
  let stranger := mkUser "9" "Nueva" "nueva@grupoprominente.com" employee "Ventas" in
  let f := chooseCategory "Liderazgo" (chooseUser maria (mount demoMonth demoStore stranger)) in
  let s' := snd (handleSubmit asciiTrim demoMonth "t-1" demoNow f demoStore) in
  getUserAllocation "9" demoMonth demoStore = None ∧
  length (getAssignments s') = 5%nat ∧
  getUserAllocation "9" demoMonth s' = None ∧
  getUserAllocation "1" demoMonth s' = Some (mkAllocation "1" demoMonth 8 6).
Proof.
  intros stranger f s'.
  assert (getUserAllocation "9" demoMonth demoStore = None) as HN
    by (vm_compute; reflexivity).
  assert (category f ≠ "") as Hc by (vm_compute; discriminate).
  destruct (handleSubmit_missing_allocation asciiTrim demoMonth "t-1" demoNow f
              demoStore maria eq_refl Hc) as (H1 & H2 & H3 & _).
  destruct (H3 HN) as [H5 H6].
  split_and!; [exact HN | | exact H5 |].
  - subst s'. rewrite H1, length_app. vm_compute. reflexivity.
  - subst s'. unfold getUserAllocation. rewrite H6. vm_compute. reflexivity.
Defined.

(** Juan has picked María and two points but no category yet, and no
    category of the configuration has the empty name. *)
Lemma category_gate_witness :
  let f := juanToMaria 2 "" in
  AssignPointsView.categoryFromSelect demoStore f ∧
  snd (validateForm f) = false ∧
  snd (attemptTransfer asciiTrim demoMonth "t-1" demoNow f demoStore) = demoStore.
Proof.
  intros f.
  assert (AssignPointsView.categoryFromSelect demoStore f) as Hfrom
    by (left; reflexivity).
  assert (Forall (λ cat, cat_name cat = "" → enabled cat = false)
            (categories (getSystemConfig demoStore))) as Hoff.
  { apply (bool_decide_unpack _). by vm_compute. }
  destruct (category_gate asciiTrim demoMonth "t-1" demoNow f demoStore Hfrom)
    as (Hv & _ & _ & Ha & _).
  - intros cat Hin. exact (proj1 (Forall_forall _ _) Hoff cat Hin).
  - split_and!; [exact Hfrom | exact Hv | exact Ha].
Defined.

Lemma total_reset_effect_witness :
  let s' := handleResetPoints demoMonth total ["1"] demoStore in
  getUserAllocation "1" demoMonth demoStore = Some (mkAllocation "1" demoMonth 8 5) ∧
  getUserAllocation "1" demoMonth s' = Some (mkAllocation "1" demoMonth 10 0) ∧
  getAssignments s' =
    [mkAssignment "3" "5" "2" 4 "Liderazgo" None (demoNow - 86400000 * 3) demoMonth].
Proof.
  intros s'.
  assert (getUserAllocation "1" demoMonth demoStore
            = Some (mkAllocation "1" demoMonth 8 5)) as Ha
    by (vm_compute; reflexivity).
  destruct (total_reset_effect demoMonth ["1"] demoStore "1" _
              ltac:(by left) Ha) as (H1 & _ & _ & H4).
  split_and!; [exact Ha | exact H1 |].
  subst s'. rewrite H4. vm_compute. reflexivity.
Defined.

(** A record saved before the onboarding steps existed. *)
Lemma getSystemConfig_backfills_witness :
  let cfg := mkConfig [mkCategory "Liderazgo" true] None None None
               [("theme", "dark")] in
  let r := getSystemConfig (setSystemConfig cfg demoStore) in
  length <$> onboardingSteps r = Some 4%nat ∧
  categories r = [mkCategory "Liderazgo" true] ∧
  extraFields r = [("theme", "dark")] ∧
  loginContent r = loginContent getDefaultConfig.
Proof.
  intros cfg r.
  destruct (getSystemConfig_backfills (setSystemConfig cfg demoStore) cfg eq_refl)
    as (H1 & H2 & _ & H4 & H5 & _).
  destruct (H1 eq_refl) as [_ H1'].
  split_and!; [exact H1' | exact H4 | exact H5 | exact (H2 eq_refl)].
Defined.

(** C7 as stated fails: the seeded superadmin's address is outside the
    corporate domain, and a login with it in the month after the seeding
    calls [onLogin] and creates the allocation of that month. *)
Lemma superadmin_logs_in :
  let r := Login.handleLogin asciiToLowerCase "2026-12" "admin@sistema.local" demoStore in
  endsWith "admin@sistema.local" "@grupoprominente.com" = false ∧
  Login.onLogin r =
    Some (mkUser "admin" "Admin Sistema" "admin@sistema.local" superadmin
            "Administración") ∧
  Login.error r = "" ∧
  getUserAllocation "admin" "2026-12" demoStore = None ∧
  getUserAllocation "admin" "2026-12" (Login.store r)
    = Some (mkAllocation "admin" "2026-12" 10 0).
Proof. intros r. split_and!; vm_compute; reflexivity. Qed.

Lemma non_corporate_email_witness :
  let r := Login.handleLogin asciiToLowerCase demoMonth "maria.garcia@gmail.com" demoStore in
  endsWith "maria.garcia@gmail.com" "@grupoprominente.com" = false ∧
  Login.onLogin r = None ∧
  Login.store r = demoStore ∧
  Login.error r = "Debes usar tu correo corporativo (@grupoprominente.com)".
Proof.
  intros r.
  assert (endsWith "maria.garcia@gmail.com" "@grupoprominente.com" = false) as He
    by (vm_compute; reflexivity).
  destruct (non_corporate_email asciiToLowerCase demoMonth
              "maria.garcia@gmail.com" demoStore) as [H _].
  destruct (H He) as (_ & H2 & H3 & H4).
  - intros u Hu. vm_compute in Hu. discriminate Hu.
  - split_and!; [exact He | exact H2 | exact H3 | exact H4].
Defined.

(** C9 as stated fails.  A total reset of María and a total reset of María
    and Carlos leave the same assignment log, one assignment from Laura to
    Juan, but Carlos's record holds eight points after the first and ten
    after the second, and the report shows two points given by him in one
    state and none in the other. *)
Lemma report_reads_allocations :
  let s1 := handleResetPoints demoMonth total ["1"] demoStore in
  let s2 := handleResetPoints demoMonth total ["1"; "4"] demoStore in
  getUsers s1 = getUsers s2 ∧
  getAssignments s1 = getAssignments s2 ∧
  getAssignments s1 =
    [mkAssignment "3" "5" "2" 4 "Liderazgo" None (demoNow - 86400000 * 3) demoMonth] ∧
  PeopleDashboard.pointsGiven <$>
    PeopleDashboard.reportData (PeopleDashboard.loadData demoMonth s1)
    = [0; 0; 3; 0; 2; 4; 0; 0; 0] ∧
  PeopleDashboard.pointsGiven <$>
    PeopleDashboard.reportData (PeopleDashboard.loadData demoMonth s2)
    = [0; 0; 3; 0; 0; 4; 0; 0; 0] ∧
  PeopleDashboard.reportData (PeopleDashboard.loadData demoMonth s1)
    ≠ PeopleDashboard.reportData (PeopleDashboard.loadData demoMonth s2).
Proof.
  intros s1 s2.
  assert (PeopleDashboard.pointsGiven <$>
            PeopleDashboard.reportData (PeopleDashboard.loadData demoMonth s1)
          = [0; 0; 3; 0; 2; 4; 0; 0; 0]) as H1 by (vm_compute; reflexivity).
  assert (PeopleDashboard.pointsGiven <$>
            PeopleDashboard.reportData (PeopleDashboard.loadData demoMonth s2)
          = [0; 0; 3; 0; 0; 4; 0; 0; 0]) as H2 by (vm_compute; reflexivity).
  split_and!; [vm_compute; reflexivity | vm_compute; reflexivity
              | vm_compute; reflexivity | exact H1 | exact H2 |].
  intros E. rewrite E, H2 in H1. discriminate H1.
Qed.

Lemma report_of_assignments_witness :
  let s1 := handleResetPoints demoMonth total ["1"] demoStore in
  let s2 := handleResetPoints demoMonth total ["1"; "4"] demoStore in
  getUsers s1 = getUsers s2 ∧
  getAssignments s1 = getAssignments s2 ∧
  withoutPointsGiven <$>
    PeopleDashboard.reportData (PeopleDashboard.loadData demoMonth s1)
  = withoutPointsGiven <$>
      PeopleDashboard.reportData (PeopleDashboard.loadData demoMonth s2).
Proof.
  intros s1 s2.
  assert (getUsers s1 = getUsers s2) as Hu by (vm_compute; reflexivity).
  assert (getAssignments s1 = getAssignments s2) as Ha by (vm_compute; reflexivity).
  destruct (report_of_assignments demoMonth s1 s2 Hu Ha) as (_ & _ & _ & H & _).
  split_and!; [exact Hu | exact Ha | exact H].
Defined.

Lemma decemberStore_reached :
  reachableOverMonths asciiTrim demoMonth false false decemberStore.
Proof.
  unfold decemberStore. apply over_ensure. unfold decemberSent.
  apply (over_transfer asciiTrim demoMonth false false decemberJuan decemberMonth
           juan maria 5 "Liderazgo" "" "t-2" (demoNow + 86400000 * 30)).
  - unfold decemberJuan. apply over_ensure. apply over_seed.
  - apply (bool_decide_unpack _). by vm_compute.
  - apply (bool_decide_unpack _). by vm_compute.
  - apply (bool_decide_unpack _). by vm_compute.
  - apply (bool_decide_unpack _). by vm_compute.
Qed.

(** C3 as stated fails.  After a partial reset of María her record shows no
    points received while five points are on the log for her; after a total
    reset of María, Juan, who had given her three points, holds seven points
    with nothing left on the log against him.  And without any reset: in
    December Juan sends María five points before she has a record for the
    month; the record her login then creates shows none received. *)
Lemma resets_break_ledger :
  let s1 := handleResetPoints demoMonth partial ["1"] demoStore in
  let s2 := handleResetPoints demoMonth total ["1"] demoStore in
  reachable asciiTrim demoMonth true true s1 ∧
  reachable asciiTrim demoMonth true true s2 ∧
  getUserAllocation "1" demoMonth s1 = Some (mkAllocation "1" demoMonth 8 0) ∧
  receivedIn "1" demoMonth (getAssignments s1) = 5 ∧
  getUserAllocation "2" demoMonth s2 = Some (mkAllocation "2" demoMonth 7 4) ∧
  givenIn "2" demoMonth (getAssignments s2) = 0 ∧
  ¬ receivedAccounted s1 ∧
  ¬ budgetAccounted s2 ∧
  reachableOverMonths asciiTrim demoMonth true true s1 ∧
  reachableOverMonths asciiTrim demoMonth true true s2 ∧
  reachableOverMonths asciiTrim demoMonth false false decemberStore ∧
  getUserAllocation "1" decemberMonth decemberStore
    = Some (mkAllocation "1" decemberMonth 10 0) ∧
  receivedIn "1" decemberMonth (getAssignments decemberStore) = 5 ∧
  ¬ receivedAccounted decemberStore.
Proof.
  intros s1 s2.
  assert (getUserAllocation "1" demoMonth s1 = Some (mkAllocation "1" demoMonth 8 0))
    as A1 by (vm_compute; reflexivity).
  assert (receivedIn "1" demoMonth (getAssignments s1) = 5)
    as R1 by (vm_compute; reflexivity).
  assert (getUserAllocation "2" demoMonth s2 = Some (mkAllocation "2" demoMonth 7 4))
    as A2 by (vm_compute; reflexivity).
  assert (givenIn "2" demoMonth (getAssignments s2) = 0)
    as G2 by (vm_compute; reflexivity).
  assert (getUserAllocation "1" decemberMonth decemberStore
            = Some (mkAllocation "1" decemberMonth 10 0))
    as A3 by (vm_compute; reflexivity).
  assert (receivedIn "1" decemberMonth (getAssignments decemberStore) = 5)
    as R3 by (vm_compute; reflexivity).
  assert (["1"] ⊆ (user_id <$> AdminSettings.users demoStore)) as Hsel.
  { intros i Hi. apply list_elem_of_singleton in Hi as ->.
    apply (bool_decide_unpack _). by vm_compute. }
  assert (reachable asciiTrim demoMonth true true s1) as H1
    by (apply reach_reset; [apply reach_seed | reflexivity | exact Hsel]).
  assert (reachable asciiTrim demoMonth true true s2) as H2
    by (apply reach_reset; [apply reach_seed | reflexivity | exact Hsel]).
  split_and!; [exact H1 | exact H2 | exact A1 | exact R1 | exact A2 | exact G2 | |
               | | | exact decemberStore_reached | exact A3 | exact R3 |].
  - intros H. specialize (H "1" demoMonth _ A1). rewrite R1 in H. discriminate H.
  - intros H. specialize (H "2" demoMonth _ A2). rewrite G2 in H. discriminate H.
  - by apply reachable_over_months.
  - by apply reachable_over_months.
  - intros H. specialize (H "1" decemberMonth _ A3). rewrite R3 in H. discriminate H.
Qed.

(** The December store: every balance is non-negative, every budget adds up
    to ten, the November records agree with the log, and María's December
    record shows fewer points than the log. *)
Lemma ledger_invariants_witness :
  reachableOverMonths asciiTrim demoMonth false false decemberStore ∧
  remainingNonNegative decemberStore ∧ budgetAccounted decemberStore ∧
  receivedAccountedFor demoMonth decemberStore ∧ receivedWithinLog decemberStore.
Proof.
  destruct (ledger_invariants asciiTrim demoMonth false false decemberStore
              decemberStore_reached) as (H1 & H2 & H3).
  split_and!; [exact decemberStore_reached | exact H1 | exact (H2 eq_refl)
              | exact (proj1 (H3 eq_refl eq_refl)) | exact (proj2 (H3 eq_refl eq_refl))].
Defined.

(** Why a transfer attempt is taken within one month.  Juan opens the
    dialog in November and confirms in December, before any record for
    December exists: the assignment is recorded for December and no balance
    changes; the record his next login creates holds ten points while three
    are on the log against it. *)
Lemma dialog_over_month_end :
  let f := handlePreview (juanToMaria 3 "Liderazgo") in
  let s1 := snd (handleSubmit asciiTrim decemberMonth "t-4" (demoNow + 86400000 * 30)
                   f demoStore) in
  let s2 := snd (ensureMonthlyAllocation decemberMonth "2" s1) in
  showConfirmation f = true ∧
  getAllocations s1 = getAllocations demoStore ∧
  getUserAllocation "2" decemberMonth s2 = Some (mkAllocation "2" decemberMonth 10 0) ∧
  givenIn "2" decemberMonth (getAssignments s2) = 3 ∧
  ¬ budgetAccounted s2.
Proof.
  intros f s1 s2.
  assert (getUserAllocation "2" decemberMonth s2
            = Some (mkAllocation "2" decemberMonth 10 0)) as A
    by (vm_compute; reflexivity).
  assert (givenIn "2" decemberMonth (getAssignments s2) = 3) as G
    by (vm_compute; reflexivity).
  split_and!; [vm_compute; reflexivity | vm_compute; reflexivity | exact A | exact G |].
  intros H. specialize (H "2" decemberMonth _ A). rewrite G in H. discriminate H.
Qed.

End Samples.

(** * Further properties of the code *)

(** ** One record per user and month *)

Section Keys.
Import storage Ledger.
Implicit Types (a b x : MonthlyAllocation) (l : list MonthlyAllocation).

Lemma find_None_key u m l :
  find (isAllocationOf u m) l = None ↔ (u, m) ∉ allocationKeys l.
Proof.
  rewrite find_None_all, Forall_forall. unfold allocationKeys. split.
  - intros H (a & E & Ha)%list_elem_of_fmap. apply (H a Ha).
    by injection E as -> ->.
  - intros H a Ha [<- <-]. apply H. apply list_elem_of_fmap. by exists a.
Qed.

Lemma putAllocation_keys a l :
  allocationKeys (putAllocation a l) =
    match find (isAllocationOf (alloc_userId a) (alloc_month a)) l with
    | Some _ => allocationKeys l
    | None => allocationKeys l ++ [(alloc_userId a, alloc_month a)]
    end.
Proof.
  induction l as [|x l IH].
  - done.
  - rewrite putAllocation_cons, find_cons.
    destruct (decide (isAllocationOf _ _ x)) as [[E1 E2]|N].
    + unfold allocationKeys. rewrite !fmap_cons. by rewrite E1, E2.
    + change (allocationKeys (x :: putAllocation a l))
        with ((alloc_userId x, alloc_month x) :: allocationKeys (putAllocation a l)).
      rewrite IH. by destruct (find _ l).
Qed.

Lemma alterAllocation_keys g u m l :
  (∀ a, alloc_userId (g a) = alloc_userId a ∧ alloc_month (g a) = alloc_month a) →
  allocationKeys (alterAllocation g u m l) = allocationKeys l.
Proof.
  intros Hg. unfold alterAllocation.
  destruct (find (isAllocationOf u m) l) as [a|] eqn:E; [|done].
  rewrite putAllocation_keys. destruct (Hg a) as [-> ->].
  pose proof (find_Some_holds _ _ _ E) as [[-> ->] _]. by rewrite E.
Qed.

(** X1: [updateAllocation] keeps the records in place: the keys of the array
    are those it had, with the key of the written record added at the end
    when it was not there; so an array with one record per user and month
    stays one. *)
Theorem updateAllocation_keys (a : MonthlyAllocation) (s : Store) :
  allocationKeys (getAllocations (updateAllocation a s)) =
    (if decide ((alloc_userId a, alloc_month a) ∈ allocationKeys (getAllocations s))
     then allocationKeys (getAllocations s)
     else allocationKeys (getAllocations s) ++ [(alloc_userId a, alloc_month a)]) ∧
  (NoDup (allocationKeys (getAllocations s)) →
   NoDup (allocationKeys (getAllocations (updateAllocation a s)))).
Proof.
  rewrite getAllocations_updateAllocation, putAllocation_keys.
  destruct (find _ (getAllocations s)) as [x|] eqn:E.
  - assert ((alloc_userId a, alloc_month a) ∈ allocationKeys (getAllocations s)) as Hin.
    { destruct (decide ((alloc_userId a, alloc_month a)
                          ∈ allocationKeys (getAllocations s))) as [|N]; [done|].
      apply find_None_key in N. rewrite N in E. done. }
    by rewrite decide_True.
  - apply find_None_key in E. rewrite decide_False by done. split; [done|].
    intros ND. apply NoDup_app. split_and!; [done | | apply NoDup_singleton].
    intros k Hk ->%list_elem_of_singleton. done.
Qed.

Lemma putAllocation_overwrite a b l :
  alloc_userId a = alloc_userId b → alloc_month a = alloc_month b →
  putAllocation a (putAllocation b l) = putAllocation a l.
Proof.
  intros E1 E2. induction l as [|x l IH].
  - unfold putAllocation at 2, findIndex. simpl.
    rewrite putAllocation_cons, decide_True by done. done.
  - rewrite (putAllocation_cons b), (putAllocation_cons a), <- E1, <- E2.
    destruct (decide (isAllocationOf (alloc_userId a) (alloc_month a) x)) as [Hx|Hx].
    + rewrite putAllocation_cons, decide_True by done. done.
    + rewrite putAllocation_cons, decide_False by done. by rewrite IH.
Qed.

(** X2: the last write to a key wins: writing a record over one just written
    for the same user and month gives the store that the second write alone
    gives, and writing the same record twice is writing it once. *)
Theorem updateAllocation_last_write (a b : MonthlyAllocation) (s : Store) :
  alloc_userId a = alloc_userId b → alloc_month a = alloc_month b →
  updateAllocation a (updateAllocation b s) = updateAllocation a s ∧
  updateAllocation a (updateAllocation a s) = updateAllocation a s.
Proof.
  intros E1 E2.
  assert (∀ c d, updateAllocation c (updateAllocation d s)
                 = setAllocations (putAllocation c (putAllocation d (getAllocations s))) s)
    as Htwo by done.
  rewrite !Htwo, !putAllocation_overwrite by done. done.
Qed.

Lemma settled_keys month A B p l :
  allocationKeys (settled month A B p l) = allocationKeys l.
Proof. unfold settled. by rewrite !alterAllocation_keys. Qed.

Lemma handleSubmit_keys (trim : string → string) (month newId : string)
    (now : Z) (f : AssignPoints.Form) (s : Store) :
  allocationKeys (getAllocations (snd (AssignPoints.handleSubmit trim month newId now f s)))
    = allocationKeys (getAllocations s).
Proof.
  destruct (AssignPoints.selectedUser f) as [B|] eqn:EB.
  - destruct (decide (AssignPoints.category f = "")) as [Ec|Ec].
    + unfold AssignPoints.handleSubmit. by rewrite EB, decide_True.
    + destruct (handleSubmit_store trim month newId now f s B EB Ec) as (_ & -> & _).
      apply settled_keys.
  - unfold AssignPoints.handleSubmit. by rewrite EB.
Qed.

(** X3: [handleSubmit] never adds, drops or moves an allocation record,
    whatever the form and the store hold: the keys of the array are the same
    before and after; and it touches neither the users, nor the stored
    session, nor the configuration. *)
Theorem handleSubmit_keeps_keys (trim : string → string) (month newId : string)
    (now : Z) (f : AssignPoints.Form) (s : Store) :
  let s' := snd (AssignPoints.handleSubmit trim month newId now f s) in
  allocationKeys (getAllocations s') = allocationKeys (getAllocations s) ∧
  getUsers s' = getUsers s ∧
  st_currentUser s' = st_currentUser s ∧
  st_systemConfig s' = st_systemConfig s.
Proof.
  intros s'. split; [apply handleSubmit_keys|]. subst s'.
  unfold AssignPoints.handleSubmit.
  destruct (AssignPoints.selectedUser f) as [B|]; [|done].
  destruct (decide (AssignPoints.category f = "")); [done|]. cbv zeta. simpl snd.
  destruct (getUserAllocation (user_id (AssignPoints.currentUser f)) month _);
    by destruct (getUserAllocation (user_id B) month _).
Qed.

End Keys.

Section KeysKept.
Import storage Ledger AdminSettings.

Lemma foldl_keeps {A} (P : Store → Prop) (step : Store → A → Store) (l : list A) (s : Store) :
  (∀ s' x, P s' → P (step s' x)) → P s → P (foldl step s l).
Proof.
  intros Hstep. revert s. induction l as [|x l IH]; intros s Hs; simpl; [done|].
  apply IH, Hstep, Hs.
Qed.

Lemma ensure_keys month userId s :
  allocationKeys (getAllocations (snd (ensureMonthlyAllocation month userId s))) =
    if decide ((userId, month) ∈ allocationKeys (getAllocations s))
    then allocationKeys (getAllocations s)
    else allocationKeys (getAllocations s) ++ [(userId, month)].
Proof.
  unfold ensureMonthlyAllocation, getUserAllocation.
  destruct (find (isAllocationOf userId month) (getAllocations s)) as [a|] eqn:E; simpl.
  - rewrite decide_True; [done|].
    destruct (decide ((userId, month) ∈ allocationKeys (getAllocations s))) as [|N];
      [done|]. apply find_None_key in N. rewrite N in E. done.
  - rewrite getAllocations_updateAllocation, putAllocation_keys. simpl. rewrite E.
    apply find_None_key in E. by rewrite decide_False.
Qed.

Lemma ensure_NoDup month userId s :
  NoDup (allocationKeys (getAllocations s)) →
  NoDup (allocationKeys (getAllocations (snd (ensureMonthlyAllocation month userId s)))).
Proof.
  intros ND. rewrite ensure_keys. case_decide; [done|].
  apply NoDup_app. split_and!; [done | | apply NoDup_singleton].
  intros k Hk ->%list_elem_of_singleton. done.
Qed.

Lemma settleDemoAssignment_keys month s x :
  allocationKeys (getAllocations (settleDemoAssignment month s x))
    = allocationKeys (getAllocations s).
Proof.
  destruct (settleDemoAssignment_store month s x) as [-> _]. apply settled_keys.
Qed.

Lemma foldl_resetRecord_keys month rt sel al :
  allocationKeys (foldl (resetRecord month rt) al sel) = allocationKeys al.
Proof.
  revert al. induction sel as [|x sel IH]; intros al; simpl; [done|].
  rewrite IH. unfold resetRecord. apply alterAllocation_keys, resetFields_key.
Qed.

Lemma handleResetPoints_keys (month : string) (resetType : ResetType)
    (selectedUsers : list string) (s : Store) :
  let s' := handleResetPoints month resetType selectedUsers s in
  allocationKeys (getAllocations s') = allocationKeys (getAllocations s) ∧
  getUsers s' = getUsers s ∧
  st_systemConfig s' = st_systemConfig s.
Proof.
  intros s'. subst s'. unfold handleResetPoints.
  destruct selectedUsers as [|x sel]; [done|].
  destruct (foldl_resetOne month resetType (x :: sel) s) as (H1 & H2 & _ & H4 & H5).
  set (r := foldl (resetOne month resetType) (getAllocations s, s) (x :: sel)) in *.
  assert (allocationKeys (getAllocations (snd r)) = allocationKeys (getAllocations s))
    as Hk by (rewrite H2, H1; apply foldl_resetRecord_keys).
  by destruct resetType.
Qed.

(** X4: an admin reset of either kind never adds or drops an allocation
    record, and touches neither the users nor the configuration: a user has a
    record after the reset exactly when there was one before, so a selected
    user without a record for the month still has none. *)
Theorem handleResetPoints_keeps_keys (month : string) (resetType : ResetType)
    (selectedUsers : list string) (s : Store) :
  let s' := handleResetPoints month resetType selectedUsers s in
  allocationKeys (getAllocations s') = allocationKeys (getAllocations s) ∧
  (∀ u m, is_Some (getUserAllocation u m s') ↔ is_Some (getUserAllocation u m s)) ∧
  getUsers s' = getUsers s ∧
  st_systemConfig s' = st_systemConfig s.
Proof.
  intros s'.
  destruct (handleResetPoints_keys month resetType selectedUsers s) as (H1 & H2 & H3).
  destruct (handleResetPoints_reads month resetType selectedUsers s) as (Hr & _).
  fold s' in H1, H2, H3, Hr. split_and!; try done.
  intros u m. rewrite Hr. case_decide; [|done]. apply fmap_is_Some.
Qed.

(** The seeding keeps one record per user and month on any store it is run
    on. *)
Lemma initializeDemoData_keeps_keys_unique (month : string) (now : Z) (s : Store) :
  NoDup (allocationKeys (getAllocations s)) →
  NoDup (allocationKeys (getAllocations (initializeDemoData month now s))).
Proof.
  intros ND. unfold initializeDemoData. destruct (getUsers s); [|done].
  cbv zeta.
  apply (foldl_keeps (λ s', NoDup (allocationKeys (getAllocations s')))).
  { intros s' x. by rewrite settleDemoAssignment_keys. }
  change (getAllocations (setAssignments ?l ?s0)) with (getAllocations s0).
  apply (foldl_keeps (λ s', NoDup (allocationKeys (getAllocations s')))).
  { intros s' x. apply ensure_NoDup. }
  exact ND.
Qed.

(** X5: every store the program reaches from the seeded one holds at most one
    allocation record per user and month, resets included. *)
Theorem reachable_one_record_per_key (trim : string → string) (month : string)
    (allowPartial allowTotal : bool) (s : Store) :
  reachable trim month allowPartial allowTotal s →
  NoDup (allocationKeys (getAllocations s)).
Proof.
  induction 1 as [now | s sender receiver value cat msg newId now _ IH _ _ _ _
                 | s userId _ IH | s rt sel _ IH _ _].
  - apply initializeDemoData_keeps_keys_unique. apply NoDup_nil_2.
  - set (f := AssignPoints.editMessage msg _).
    destruct (attemptTransfer_cases trim month newId now f s eq_refl) as [->|[_ ->]];
      [done|]. by rewrite handleSubmit_keys.
  - by apply ensure_NoDup.
  - by destruct (handleResetPoints_keys month rt sel s) as [-> _].
Qed.

End KeysKept.

(** ** Seeding, session and configuration round trips *)

Section SeedingAndSession.
Import storage Session.

Lemma ensure_keeps_rest month userId s :
  st_currentUser (snd (ensureMonthlyAllocation month userId s)) = st_currentUser s ∧
  st_systemConfig (snd (ensureMonthlyAllocation month userId s)) = st_systemConfig s ∧
  getUsers (snd (ensureMonthlyAllocation month userId s)) = getUsers s.
Proof.
  unfold ensureMonthlyAllocation. by destruct (getUserAllocation userId month s).
Qed.

Lemma settleDemoAssignment_keeps_rest month s x :
  st_currentUser (settleDemoAssignment month s x) = st_currentUser s ∧
  st_systemConfig (settleDemoAssignment month s x) = st_systemConfig s ∧
  getUsers (settleDemoAssignment month s x) = getUsers s.
Proof.
  unfold settleDemoAssignment.
  destruct (getUserAllocation (fromUserId x) month s);
    by destruct (getUserAllocation (toUserId x) month _).
Qed.

Lemma initializeDemoData_keeps_rest month now s :
  st_currentUser (initializeDemoData month now s) = st_currentUser s ∧
  st_systemConfig (initializeDemoData month now s) = st_systemConfig s ∧
  getUsers (initializeDemoData month now s)
    = match getUsers s with [] => demoUsers | _ :: _ => getUsers s end.
Proof.
  unfold initializeDemoData. destruct (getUsers s) eqn:Eu; [|by rewrite Eu].
  cbv zeta.
  apply (foldl_keeps
           (λ s', st_currentUser s' = st_currentUser s ∧
                  st_systemConfig s' = st_systemConfig s ∧
                  getUsers s' = demoUsers) (settleDemoAssignment month)).
  { intros s' x (H1 & H2 & H3).
    destruct (settleDemoAssignment_keeps_rest month s' x) as (-> & -> & ->). done. }
  change (?P (setAssignments ?l ?s0)) with (P s0).
  apply (foldl_keeps
           (λ s', st_currentUser s' = st_currentUser s ∧
                  st_systemConfig s' = st_systemConfig s ∧
                  getUsers s' = demoUsers)).
  { intros s' x (H1 & H2 & H3).
    destruct (ensure_keeps_rest month (user_id x) s') as (-> & -> & ->). done. }
  done.
Qed.

(** X6: the seeding runs once: on a store that holds users it changes
    nothing, so a second load leaves the store of the first; and it never
    touches the stored session or the stored configuration. *)
Theorem initializeDemoData_once (month1 month2 : string) (now1 now2 : Z) (s : Store) :
  initializeDemoData month2 now2 (initializeDemoData month1 now1 s)
    = initializeDemoData month1 now1 s ∧
  st_currentUser (initializeDemoData month1 now1 s) = st_currentUser s ∧
  st_systemConfig (initializeDemoData month1 now1 s) = st_systemConfig s ∧
  (getUsers s ≠ [] → initializeDemoData month1 now1 s = s).
Proof.
  destruct (initializeDemoData_keeps_rest month1 now1 s) as (H1 & H2 & H3).
  split_and!; [|done|done|].
  - unfold initializeDemoData at 1. rewrite H3.
    by destruct (getUsers s).
  - intros Hne. unfold initializeDemoData. by destruct (getUsers s).
Qed.

(** X7: the session survives a reload: after [handleLogin] the next load of
    the application, seeding included, finds the same user, and after
    [handleLogout] it finds none.  Both handlers write the session alone:
    the stored users, allocations, assignments and configuration are after
    either what they were before; and a logout after a login is a logout. *)
Theorem session_survives_reload (month : string) (now : Z) (user : User) (s : Store) :
  fst (load month now (handleLogin user s)) = Some user ∧
  fst (load month now (handleLogout s)) = None ∧
  (st_users (handleLogin user s) = st_users s ∧
   st_allocations (handleLogin user s) = st_allocations s ∧
   st_assignments (handleLogin user s) = st_assignments s ∧
   st_systemConfig (handleLogin user s) = st_systemConfig s) ∧
  (st_users (handleLogout s) = st_users s ∧
   st_allocations (handleLogout s) = st_allocations s ∧
   st_assignments (handleLogout s) = st_assignments s ∧
   st_systemConfig (handleLogout s) = st_systemConfig s) ∧
  handleLogout (handleLogin user s) = handleLogout s.
Proof.
  unfold load, getCurrentUser.
  destruct (initializeDemoData_keeps_rest month now (handleLogin user s)) as (-> & _).
  destruct (initializeDemoData_keeps_rest month now (handleLogout s)) as (-> & _).
  done.
Qed.


(** X9: past its early return [handleSubmit] adds the new assignment at the
    end of the receiver's received list and leaves the received list of every
    other user as it was. *)
Theorem handleSubmit_received (trim : string → string) (month newId : string)
    (now : Z) (f : AssignPoints.Form) (s : Store) (B : User) :
  AssignPoints.selectedUser f = Some B →
  AssignPoints.category f ≠ "" →
  let s' := snd (AssignPoints.handleSubmit trim month newId now f s) in
  getReceivedPoints (user_id B) s' =
    getReceivedPoints (user_id B) s
      ++ [AssignPoints.newAssignment trim month newId now f B] ∧
  (∀ u, u ≠ user_id B → getReceivedPoints u s' = getReceivedPoints u s).
Proof.
  intros HB Hc s'.
  destruct (handleSubmit_store trim month newId now f s B HB Hc) as (Hasg & _).
  fold s' in Hasg. unfold getReceivedPoints. rewrite Hasg.
  split.
  - by rewrite filter_app, filter_cons, decide_True.
  - intros u Hu.
    rewrite filter_app, filter_cons, decide_False by (simpl; congruence).
    by rewrite filter_nil, app_nil_r.
Qed.

End SeedingAndSession.

(** ** The controls of the transfer dialog *)

Section DialogControls.
Import storage AssignPoints AssignPointsView.
Context (toLowerCase : string → string).

(** X10: the dialog never offers the sender as receiver: whatever is typed
    in the search box, every user it lists is a stored user with an id other
    than the sender's, so a transfer made through it has two parties. *)
Theorem dialog_never_offers_sender (month searchTerm : string) (s : Store)
    (sender candidate : User) (f : Form) :
  users f = users (mount month s sender) →
  candidate ∈ filteredUsers toLowerCase searchTerm f →
  candidate ∈ getUsers s ∧ user_id candidate ≠ user_id sender.
Proof.
  intros Hf Hin. unfold filteredUsers in Hin.
  apply list_elem_of_filter in Hin as [_ Hin]. rewrite Hf in Hin.
  unfold mount, loadEffect in Hin. simpl in Hin.
  apply list_elem_of_filter in Hin as [Hne Hin]. done.
Qed.

Lemma includes_empty x : includes x "" = true.
Proof. by destruct x. Qed.

(** X11: with an empty search box the dialog lists every candidate it
    loaded, in the stored order; with any search term it lists candidates
    only, each at most as often as loaded. *)
Theorem filteredUsers_empty_search (f : Form) :
  toLowerCase "" = "" →
  filteredUsers toLowerCase "" f = users f ∧
  ∀ searchTerm, filteredUsers toLowerCase searchTerm f `sublist_of` users f.
Proof.
  intros Hlow. split.
  - unfold filteredUsers. induction (users f) as [|u l IH]; [done|].
    rewrite filter_cons, decide_True, IH; [done|].
    unfold matchesSearch. by rewrite Hlow, includes_empty.
  - intros searchTerm. apply sublist_filter.
Qed.

(** X12: the enabled controls lead to a form that passes validation: with a
    receiver picked, the review button enabled, a balance that is not
    negative, and points that are the initial one point or the value of a
    point button that is enabled, [validateForm] accepts. *)
Theorem enabled_controls_pass_validation (f : Form) :
  is_Some (selectedUser f) →
  reviewDisabled f = false →
  0 ≤ availablePoints f →
  points f = 1 ∨ (points f ∈ pointChoices ∧ pointButtonDisabled (points f) f = false) →
  snd (validateForm f) = true.
Proof.
  intros Hsel Hrev Hav Hpts. apply validateForm_true.
  unfold reviewDisabled in Hrev.
  apply orb_false_iff in Hrev as [Hrev _].
  apply orb_false_iff in Hrev as [Hc Hz].
  apply bool_decide_eq_false in Hc, Hz.
  split_and!; [done | done |].
  destruct Hpts as [->|[_ Hb]]; [lia|].
  unfold pointButtonDisabled in Hb. apply bool_decide_eq_false in Hb. lia.
Qed.

End DialogControls.

(** ** The configuration tabs *)

Section CategoryTab.
Import AdminConfig.
Context (trim toLowerCase : string → string).

Lemma filter_all {A} (P : A → Prop) `{∀ x, Decision (P x)} (l : list A) :
  Forall P l → filter P l = l.
Proof.
  induction 1 as [|x l Hx _ IH]; [done|]. by rewrite filter_cons, decide_True, IH.
Qed.

(** X13: switching a category twice gives the configuration back, and a
    switch never changes the names, their order or their number. *)
Theorem handleToggleCategory_twice (categoryName : string) (config : SystemConfig) :
  handleToggleCategory categoryName (handleToggleCategory categoryName config) = config ∧
  cat_name <$> categories (handleToggleCategory categoryName config)
    = cat_name <$> categories config.
Proof.
  destruct config as [cats lc os en ex]. unfold handleToggleCategory, withCategories.
  simpl. split.
  - f_equal. rewrite <- list_fmap_compose. rewrite <- (list_fmap_id cats) at 2.
    apply list_fmap_ext. intros i [n e] _. simpl.
    destruct (decide (n = categoryName)) as [->|Hn]; simpl.
    + rewrite decide_True by done. by rewrite negb_involutive.
    + by rewrite decide_False.
  - rewrite <- list_fmap_compose. apply list_fmap_ext. intros i [n e] _. simpl.
    by destruct (decide (n = categoryName)).
Qed.

Lemma handleAddCategory_added newCategoryName config :
  trim newCategoryName ≠ "" →
  ¬ Exists (λ cat, toLowerCase (cat_name cat) = toLowerCase newCategoryName)
           (categories config) →
  handleAddCategory trim toLowerCase newCategoryName config =
    (withCategories (categories config ++ [mkCategory (trim newCategoryName) true]) config,
     "", toastSuccess "Categoría agregada exitosamente").
Proof.
  intros Ht Hd. unfold handleAddCategory. by rewrite !decide_False.
Qed.

(** X14: for a name without surrounding white space, adding a category keeps
    the names different from one another up to letter case: the name is
    either refused or unlike every name the list holds. *)
Theorem handleAddCategory_distinct_names (newCategoryName : string)
    (config : SystemConfig) :
  trim newCategoryName = newCategoryName →
  NoDup (lowerNames toLowerCase config) →
  NoDup (lowerNames toLowerCase (handleAddCategory trim toLowerCase newCategoryName config).1.1).
Proof.
  intros Htrim ND. unfold handleAddCategory.
  destruct (decide (trim newCategoryName = "")); [done|].
  destruct (decide (Exists _ (categories config))) as [|Hd]; [done|].
  unfold lowerNames in *. simpl. rewrite fmap_app. simpl.
  apply NoDup_app. split_and!; [done | | apply NoDup_singleton].
  intros k (cat & -> & Hcat)%list_elem_of_fmap Hk%list_elem_of_singleton.
  apply Hd, Exists_exists. exists cat. split; [done|]. by rewrite Hk, Htrim.
Qed.

(** X15: the duplicate check reads the name as typed while the name stored
    is the trimmed one: a name that passes the check as typed and whose
    trimmed form equals an existing name up to letter case is added, and the
    list then holds two names that are equal up to letter case. *)
Theorem handleAddCategory_padded_duplicate (newCategoryName : string)
    (config : SystemConfig) (existing : CategoryConfig) :
  trim newCategoryName ≠ "" →
  ¬ Exists (λ cat, toLowerCase (cat_name cat) = toLowerCase newCategoryName)
           (categories config) →
  existing ∈ categories config →
  toLowerCase (cat_name existing) = toLowerCase (trim newCategoryName) →
  categories (handleAddCategory trim toLowerCase newCategoryName config).1.1
    = categories config ++ [mkCategory (trim newCategoryName) true] ∧
  ¬ NoDup (lowerNames toLowerCase (handleAddCategory trim toLowerCase newCategoryName config).1.1).
Proof.
  intros Ht Hd Hex Hlow. rewrite handleAddCategory_added by done.
  split; [done|]. unfold lowerNames. simpl. rewrite fmap_app. simpl.
  intros (_ & Hno & _)%NoDup_app.
  apply (Hno (toLowerCase (cat_name existing))).
  - apply list_elem_of_fmap. by exists existing.
  - rewrite Hlow. by left.
Qed.

(** X16: removing a category that was just added gives the categories back,
    when no category of that exact name was there before; and after a
    removal no category of the removed name is left. *)
Theorem handleRemoveCategory_undoes_add (newCategoryName : string) (config : SystemConfig) :
  trim newCategoryName ≠ "" →
  ¬ Exists (λ cat, toLowerCase (cat_name cat) = toLowerCase newCategoryName)
           (categories config) →
  Forall (λ cat, cat_name cat ≠ trim newCategoryName) (categories config) →
  (handleRemoveCategory (trim newCategoryName)
     (handleAddCategory trim toLowerCase newCategoryName config).1.1).1 = config ∧
  ∀ name c, Forall (λ cat, cat_name cat ≠ name)
              (categories (handleRemoveCategory name c).1).
Proof.
  intros Ht Hd Hnew. split.
  - rewrite handleAddCategory_added by done.
    destruct config as [cats lc os en ex]. unfold handleRemoveCategory, withCategories.
    simpl in *. f_equal. rewrite filter_app, filter_cons, decide_False, filter_nil.
    + rewrite app_nil_r. by apply filter_all.
    + simpl. by intros [].
  - intros name c. apply Forall_forall. intros cat Hcat. simpl in Hcat.
    by apply list_elem_of_filter in Hcat as [? _].
Qed.

End CategoryTab.

Section OtherTabs.
Import storage AdminConfig.

Lemma delete_beyond {A} (l : list A) (i : nat) : l !! i = None → delete i l = l.
Proof.
  revert i. induction l as [|x l IH]; intros [|i] E; simpl in *; try done.
  f_equal. by apply IH.
Qed.

(** X17: the onboarding tab keeps between one and five steps: from such a
    list adding and removing give such a list; at five steps adding is
    refused and at one step removing is refused, the configuration staying
    as it is; on a loaded configuration neither handler throws. *)
Theorem onboarding_steps_bounded (config : SystemConfig) (steps : list OnboardingStep) :
  onboardingSteps config = Some steps →
  (1 ≤ length steps ≤ MAX_ONBOARDING_STEPS)%nat →
  (∃ c t steps', handleAddOnboardingStep config = Some (c, t) ∧
                 onboardingSteps c = Some steps' ∧
                 (1 ≤ length steps' ≤ MAX_ONBOARDING_STEPS)%nat ∧
                 (length steps = MAX_ONBOARDING_STEPS → c = config) ∧
                 (length steps < MAX_ONBOARDING_STEPS → steps' = steps ++ [newStep])%nat) ∧
  (∀ index, ∃ c t steps', handleRemoveOnboardingStep index config = Some (c, t) ∧
                 onboardingSteps c = Some steps' ∧
                 (1 ≤ length steps' ≤ MAX_ONBOARDING_STEPS)%nat ∧
                 (length steps = 1%nat → c = config) ∧
                 (1 < length steps → steps' = delete index steps)%nat).
Proof.
  intros Hs [Hlo Hhi]. unfold MAX_ONBOARDING_STEPS in *. split.
  - unfold handleAddOnboardingStep. rewrite Hs. simpl.
    destruct (decide (MAX_ONBOARDING_STEPS ≤ length steps)%nat) as [Hge|Hlt];
      unfold MAX_ONBOARDING_STEPS in *.
    + exists config, (toastError "Máximo 5 pasos permitidos"), steps.
      split_and!; try done. lia.
    + eexists _, _, (steps ++ [newStep]). split_and!; try done.
      * rewrite length_app. simpl. lia.
      * rewrite length_app. simpl. lia.
      * lia.
  - intros index. unfold handleRemoveOnboardingStep. rewrite Hs. simpl.
    destruct (decide (length steps ≤ 1)%nat) as [Hle|Hgt].
    + exists config, (toastError "Debe haber al menos un paso"), steps.
      split_and!; try done. lia.
    + eexists _, _, (delete index steps). split_and!; try done.
      * pose proof (length_delete steps index).
        destruct (steps !! index) eqn:E.
        -- rewrite H by (by eexists). lia.
        -- rewrite delete_beyond by done. lia.
      * pose proof (length_delete steps index).
        destruct (steps !! index) eqn:E.
        -- rewrite H by (by eexists). lia.
        -- rewrite delete_beyond by done. lia.
      * lia.
Qed.

(** X18: saving is refused, with the store left as it is, when no category
    is enabled or when the list of onboarding steps is empty; a configuration
    with an enabled category and a step is stored as edited, and the dialog
    and the wizard then read its enabled categories and its steps.  So
    whatever is saved, a store whose transfer dialog had a category to offer
    still has one, and a store whose wizard had a step still has one. *)
Theorem handleSaveConfig_keeps_usable (config : SystemConfig) (s : Store) :
  let offered := filter (λ cat, enabled cat = true) (categories config) in
  (offered = [] →
   handleSaveConfig config s
     = Some (s, toastError "Debe haber al menos una categoría activa")) ∧
  (offered ≠ [] → onboardingSteps config = Some [] →
   handleSaveConfig config s
     = Some (s, toastError "Debe haber al menos un paso de onboarding")) ∧
  (∀ steps, offered ≠ [] → onboardingSteps config = Some steps → steps ≠ [] →
     handleSaveConfig config s
       = Some (setSystemConfig config s,
               toastSuccess "Configuración guardada exitosamente") ∧
     AssignPoints.enabledCategories (setSystemConfig config s) = offered ∧
     Onboarding.steps (setSystemConfig config s) = steps) ∧
  (∀ s' t, handleSaveConfig config s = Some (s', t) →
     (AssignPoints.enabledCategories s ≠ [] → AssignPoints.enabledCategories s' ≠ []) ∧
     (Onboarding.steps s ≠ [] → Onboarding.steps s' ≠ [])).
Proof.
  intros offered. split_and!.
  - intros E. unfold handleSaveConfig. fold offered. rewrite E. done.
  - intros Hne Es. unfold handleSaveConfig. fold offered.
    rewrite decide_False by (by destruct offered). by rewrite Es.
  - intros steps Hne Es Hst. unfold handleSaveConfig. fold offered.
    rewrite decide_False by (by destruct offered). rewrite Es. simpl.
    rewrite decide_False by (by destruct steps). split_and!; [done | done |].
    unfold Onboarding.steps, getSystemConfig. simpl. by rewrite Es.
  - intros s' t. unfold handleSaveConfig. fold offered.
    destruct (decide (length offered = 0%nat)) as [He|He].
    { by intros [= <- <-]. }
    destruct (onboardingSteps config) as [steps|] eqn:Es; [|done]. simpl.
    destruct (decide (length steps = 0%nat)) as [Hz|Hz].
    { by intros [= <- <-]. }
    intros [= <- <-]. split.
    + intros _. unfold AssignPoints.enabledCategories, getSystemConfig. simpl.
      fold offered. by destruct offered.
    + intros _. unfold Onboarding.steps, getSystemConfig. simpl. rewrite Es. simpl.
      by destruct steps.
Qed.

(** X19: [handleSMTPProviderChange] makes its calls of
    [handleUpdateEmailConfig] on the same [config], so the last call alone
    decides the state: for gmail, outlook and sendgrid the port becomes 587
    while the provider and the host stay as they were; for custom the
    provider is set and nothing else. *)
Theorem handleSMTPProviderChange_last_call (provider : SmtpProvider)
    (config : SystemConfig) (e : EmailNotificationConfig) :
  emailNotifications config = Some e →
  ∃ c e', handleSMTPProviderChange provider config = Some c ∧
          emailNotifications c = Some e' ∧
          categories c = categories config ∧
          loginContent c = loginContent config ∧
          onboardingSteps c = onboardingSteps config ∧
          extraFields c = extraFields config ∧
          e' = match provider with
               | custom => updateEmail (SetSmtpProvider custom) e
               | _ => updateEmail (SetSmtpPort 587) e
               end ∧
          (provider ≠ custom →
           smtpProvider e' = smtpProvider e ∧ smtpHost e' = smtpHost e ∧
           smtpPort e' = 587).
Proof.
  intros He. unfold handleSMTPProviderChange, smtpProviderUpdates.
  destruct provider; simpl; unfold handleUpdateEmailConfig; rewrite He; simpl;
    eexists _, _; split_and!; try done.
Qed.

(** X20: a click on a user of the reset tab flips that user's membership in
    the selection and no other, keeps a selection without repetitions free of
    them, and a second click on a user who was not selected restores the
    selection. *)
Theorem toggleSelectedUser_flips (userId : string) (prev : list string) :
  (userId ∈ toggleSelectedUser userId prev ↔ userId ∉ prev) ∧
  (∀ other, other ≠ userId →
            (other ∈ toggleSelectedUser userId prev ↔ other ∈ prev)) ∧
  (NoDup prev → NoDup (toggleSelectedUser userId prev)) ∧
  (userId ∉ prev → toggleSelectedUser userId (toggleSelectedUser userId prev) = prev).
Proof.
  unfold toggleSelectedUser. split_and!.
  - destruct (decide (userId ∈ prev)) as [Hin|Hin].
    + split; [|done]. by intros [? _]%list_elem_of_filter.
    + split; [done|]. intros _. apply elem_of_app. right. by left.
  - intros other Hne. destruct (decide (userId ∈ prev)).
    + rewrite list_elem_of_filter. split; [by intros [_ ?] | by intros ?].
    + rewrite elem_of_app, list_elem_of_singleton.
      split; [by intros [?|?] | by left].
  - intros ND. destruct (decide (userId ∈ prev)) as [Hin|Hin].
    + by apply NoDup_filter.
    + apply NoDup_app. split_and!; [done | | apply NoDup_singleton].
      by intros k Hk ->%list_elem_of_singleton.
  - intros Hin. rewrite (decide_False (P := userId ∈ prev)) by done.
    rewrite decide_True by (apply elem_of_app; right; by left).
    rewrite filter_app, filter_cons, decide_False, filter_nil, app_nil_r by naive_solver.
    apply filter_all, Forall_forall. by intros x Hx ->.
Qed.

End OtherTabs.

(** ** Who gets in *)

Section LoginOutcomes.
Import storage Login.
Context (toLowerCase : string → string).

(** X21: [handleLogin] calls [onLogin] for a user exactly when the address
    matches that stored user up to letter case and the user is a superadmin
    or the address is in the corporate domain.  The user then has a record
    for the month, and users and assignments are as before.  Otherwise the
    store is untouched and one of the two inline messages is set: "not found"
    exactly when the address is corporate. *)
Theorem handleLogin_outcome (month email : string) (s : Store) :
  let r := handleLogin toLowerCase month email s in
  (∀ u, onLogin r = Some u ↔
        findByEmail toLowerCase email (getUsers s) = Some u ∧
        (user_role u = superadmin ∨ endsWith email "@grupoprominente.com" = true)) ∧
  (∀ u, onLogin r = Some u →
        u ∈ getUsers s ∧
        is_Some (getUserAllocation (user_id u) month (store r)) ∧
        getUsers (store r) = getUsers s ∧
        getAssignments (store r) = getAssignments s) ∧
  (onLogin r = None →
   store r = s ∧ isLoading r = false ∧
   error r = errorText (if endsWith email "@grupoprominente.com"
                        then UserNotFound else NotCorporateEmail)).
Proof.
  intros r. subst r. unfold handleLogin.
  destruct (findByEmail toLowerCase email (getUsers s)) as [u|] eqn:Eu;
    destruct (endsWith email "@grupoprominente.com") eqn:Ee; simpl.
  - assert (∀ v, onLogin (if decide (user_role u = superadmin)
                          then accept month u s else accept month u s) = Some v ↔ u = v)
      as Hon by (intros v; case_decide; simpl; split; congruence).
    split_and!.
    + intros v. rewrite Hon. split; [intros <-; auto | by intros [[= ->] _]].
    + intros v Hv%Hon. subst v. pose proof (find_Some_holds _ _ _ Eu) as [_ Hin].
      destruct (ensure_keeps month (user_id u) s) as [K1 K2].
      case_decide; simpl; split_and!; try done;
        rewrite ensureMonthlyAllocation_found; by eexists.
    + case_decide; simpl; done.
  - destruct (decide (user_role u = superadmin)) as [Hr|Hr]; simpl.
    + split_and!; [| |done].
      * intros v. split; [intros [= <-]; auto | by intros [[= ->] _]].
      * intros v [= <-]. pose proof (find_Some_holds _ _ _ Eu) as [_ Hin].
        destruct (ensure_keeps month (user_id u) s) as [K1 K2].
        split_and!; try done. rewrite ensureMonthlyAllocation_found. by eexists.
    + split_and!; [|done|done].
      intros v. split; [done|]. intros [[= <-] [?|?]]; done.
  - split_and!; [|done|done]. intros v. split; [done|]. by intros [? _].
  - split_and!; [|done|done]. intros v. split; [done|]. by intros [? _].
Qed.

(** X22: the demo shortcut logs in the first stored user with exactly the
    given address, whatever the role and the domain: when some stored user
    has the address, [onLogin] gets the user at the first position of the
    stored list whose address is the given one, after
    [ensureMonthlyAllocation] has run for that user, who then has a record
    for the month.  For an address no stored user has, nothing is stored,
    [onLogin] is not called, no message is set and the loading flag stays
    on. *)
Theorem handleDemoLogin_outcome (month userEmail : string) (s : Store) :
  let r := DemoLogin.handleDemoLogin month userEmail s in
  (∀ u, u ∈ getUsers s → user_email u = userEmail →
        ∃ i v, getUsers s !! i = Some v ∧ user_email v = userEmail ∧
               (∀ j w, getUsers s !! j = Some w → (j < i)%nat →
                       user_email w ≠ userEmail) ∧
               onLogin r = Some v ∧
               store r = snd (ensureMonthlyAllocation month (user_id v) s) ∧
               is_Some (getUserAllocation (user_id v) month (store r)) ∧
               error r = "" ∧ isLoading r = true) ∧
  (∀ i u, getUsers s !! i = Some u → user_email u = userEmail →
          (∀ j w, getUsers s !! j = Some w → (j < i)%nat → user_email w ≠ userEmail) →
          onLogin r = Some u) ∧
  (Forall (λ u, user_email u ≠ userEmail) (getUsers s) →
   onLogin r = None ∧ store r = s ∧ error r = "" ∧ isLoading r = true).
Proof.
  intros r. subst r. unfold DemoLogin.handleDemoLogin, find.
  destruct (list_find (λ u, user_email u = userEmail) (getUsers s)) as [[k v]|] eqn:Ev;
    simpl.
  - apply list_find_Some in Ev as (Hk & Hv & Hfirst). split_and!.
    + intros u _ _. exists k, v. split_and!; try done.
      rewrite ensureMonthlyAllocation_found. by eexists.
    + intros i u Hi Hu Hbefore.
      assert (i = k) as ->.
      { destruct (Nat.lt_trichotomy i k) as [Hlt|[E|Hgt]]; [|done|].
        - destruct (Hfirst i u Hi Hlt Hu).
        - destruct (Hbefore k v Hk Hgt Hv). }
      congruence.
    + intros HF. rewrite Forall_forall in HF.
      destruct (HF v (list_elem_of_lookup_2 _ _ _ Hk) Hv).
  - pose proof (proj1 (list_find_None _ _) Ev) as HF. rewrite Forall_forall in HF.
    split_and!; [| |done].
    + intros u Hin Hu. destruct (HF u Hin Hu).
    + intros i u Hi Hu _. destruct (HF u (list_elem_of_lookup_2 _ _ _ Hi) Hu).
Qed.

End LoginOutcomes.

(** ** The report and the ledger *)

Section ReportFigures.
Import storage PeopleDashboard DashboardStats Ledger.

Lemma foldl_sum_points (z : Z) (l : list PointAssignment) :
  foldl (λ sum a, sum + asg_points a) z l = z + sumPoints l.
Proof.
  revert z. induction l as [|x l IH]; intros z; simpl; [lia|]. rewrite IH. lia.
Qed.

Lemma lookup_addToCategory_other (acc : gmap string Entry) (x : PointAssignment)
    (c : string) :
  asg_category x ≠ c → addToCategory acc x !! c = acc !! c.
Proof.
  intros Hc. unfold addToCategory.
  destruct (acc !! asg_category x) as [[n|]|];
    repeat case_decide; by rewrite ?lookup_insert_ne.
Qed.

(** What a name reads after a run of the reducer, by what it read before:
    a number grows by the points recorded under the name, a text stays a
    text, and a name that was no own property becomes one unless it is
    [__proto__], with a text when the name is inherited. *)
Lemma lookup_foldl_addToCategory (l : list PointAssignment) (acc : gmap string Entry)
    (c : string) :
  foldl addToCategory acc l !! c =
    match filter (λ a, asg_category a = c) l with
    | [] => acc !! c
    | sub =>
        match acc !! c with
        | Some (number n) => Some (number (n + sumPoints sub))
        | Some text => Some text
        | None =>
            if decide (c = "__proto__") then None
            else if decide (c ∈ inheritedNames) then Some text
            else Some (number (sumPoints sub))
        end
    end.
Proof.
  revert acc. induction l as [|x l IH]; intros acc; [done|].
  simpl foldl. rewrite IH, filter_cons.
  destruct (decide (asg_category x = c)) as [<-|Hc].
  2:{ by rewrite lookup_addToCategory_other. }
  unfold addToCategory.
  destruct (acc !! asg_category x) as [[n|]|] eqn:E.
  - rewrite lookup_insert_eq, orZero_Some.
    destruct (filter _ l) as [|y sub]; simpl; do 2 f_equal; lia.
  - rewrite lookup_insert_eq. by destruct (filter _ l).
  - destruct (decide (asg_category x = "__proto__")) as [Hp|Hp].
    { rewrite E. by destruct (filter _ l). }
    destruct (decide (asg_category x ∈ inheritedNames)) as [Hi|Hi].
    { rewrite lookup_insert_eq. by destruct (filter _ l). }
    rewrite lookup_insert_eq.
    destruct (filter _ l) as [|y sub]; simpl; do 2 f_equal; lia.
Qed.

(** X23: the category totals hold, for each category with an assignment in
    the month whose name no object inherits, the sum of the points of those
    assignments, and no entry for a category without an assignment.  Under a
    name every object inherits ([constructor], [toString] and the like) the
    entry is a text, not a number; under [__proto__] there is no entry.  The
    breakdown of a report row is the same over the assignments the user
    received. *)
Theorem categoryTotals_lookup (month : string) (s : Store) (c : string) :
  let entry (l : list PointAssignment) :=
    match filter (λ a, asg_category a = c) l with
    | [] => None
    | sub =>
        if decide (c = "__proto__") then None
        else if decide (c ∈ inheritedNames) then Some text
        else Some (number (sumPoints sub))
    end in
  categoryTotals (loadData month s) !! c = entry (currentMonthAssignments month s) ∧
  ∀ u, categoryBreakdown (reportRow month s u) !! c =
       entry (filter (λ a, toUserId a = user_id u) (currentMonthAssignments month s)).
Proof.
  intros entry. subst entry.
  split; [|intros u]; unfold loadData, reportRow; simpl;
    rewrite lookup_foldl_addToCategory, lookup_empty; by destruct (filter _ _).
Qed.

Lemma row_pointsReceived_receivedIn (month : string) (s : Store) (u : User) :
  row_pointsReceived (reportRow month s u)
    = receivedIn (user_id u) month (getAssignments s).
Proof.
  unfold reportRow, currentMonthAssignments, receivedIn. simpl.
  by rewrite foldl_sum_points, list_filter_filter.
Qed.

Lemma sumPoints_split (P Q : PointAssignment → Prop)
    `{∀ a, Decision (P a)} `{∀ a, Decision (Q a)} (l : list PointAssignment) :
  (∀ a, P a → Q a → False) →
  sumPoints (filter (λ a, P a ∨ Q a) l) = sumPoints (filter P l) + sumPoints (filter Q l).
Proof.
  intros Hdis. induction l as [|x l IH]; [done|].
  rewrite !filter_cons.
  destruct (decide (P x)) as [HP|HP], (decide (Q x)) as [HQ|HQ].
  - destruct (Hdis x HP HQ).
  - rewrite decide_True by (by left). simpl. rewrite IH. lia.
  - rewrite decide_True by (by right). simpl. rewrite IH. lia.
  - rewrite decide_False by (by intros [?|?]). done.
Qed.

Lemma rows_sum (month : string) (s : Store) (us : list User) :
  NoDup (user_id <$> us) →
  foldr Z.add 0 (row_pointsReceived <$> (reportRow month s <$> us)) =
    sumPoints (filter (λ a, toUserId a ∈ (user_id <$> us))
                 (currentMonthAssignments month s)).
Proof.
  induction us as [|u us IH]; intros ND.
  - simpl. symmetry.
    induction (currentMonthAssignments month s) as [|x l IHl]; [done|].
    rewrite filter_cons, decide_False; [done|]. apply not_elem_of_nil.
  - rewrite !fmap_cons in *. apply NoDup_cons in ND as [Hu ND]. simpl foldr.
    rewrite IH by done.
    transitivity
      (sumPoints (filter (λ a, toUserId a = user_id u) (currentMonthAssignments month s))
       + sumPoints (filter (λ a, toUserId a ∈ (user_id <$> us))
                      (currentMonthAssignments month s))).
    { f_equal. unfold reportRow. simpl. rewrite foldl_sum_points. lia. }
    rewrite <- sumPoints_split.
    + f_equal. apply list_filter_iff. intros a. by rewrite elem_of_cons.
    + intros a E Hin. apply Hu. by rewrite <- E.
Qed.

(** X25: when the stored users have ids that differ from one another and
    every assignment of the month names a stored user as receiver, the
    points received over all report rows add up to the points in
    circulation. *)
Theorem report_rows_add_up (month : string) (s : Store) :
  NoDup (user_id <$> getUsers s) →
  Forall (λ a, toUserId a ∈ (user_id <$> getUsers s)) (currentMonthAssignments month s) →
  foldr Z.add 0 (row_pointsReceived <$> reportData (loadData month s))
    = totalPointsCirculating (loadData month s).
Proof.
  intros ND Hall. unfold totalPointsCirculating, loadData. simpl.
  rewrite rows_sum, foldl_sum_points, filter_all by done. lia.
Qed.

(** X26: in every store reached from the seeded one without a reset, the
    report agrees with the allocation records: for each stored user the
    points received of the row are the [pointsReceived] of the record of the
    month, and the points given of the row are the points of the assignments
    the user sent in the month. *)
Theorem report_agrees_with_ledger (trim : string → string) (month : string)
    (s : Store) (u : User) :
  reachable trim month false false s →
  u ∈ getUsers s →
  ∃ a, getUserAllocation (user_id u) month s = Some a ∧
       row_pointsReceived (reportRow month s u) = pointsReceived a ∧
       pointsGiven (reportRow month s u) = givenIn (user_id u) month (getAssignments s).
Proof.
  intros Hr Hu.
  destruct (reachable_kept trim month false false s Hr) as ([Pu _] & _ & HB & HR).
  destruct (Pu u Hu) as [a Ha]. exists a. split; [done|].
  rewrite row_pointsReceived_receivedIn.
  specialize (HB eq_refl _ _ _ Ha). specialize (HR eq_refl eq_refl _ _ _ Ha).
  split; [done|]. unfold reportRow. simpl. rewrite Ha. lia.
Qed.

End ReportFigures.

(** ** The onboarding wizard *)

Section Wizard.
Import Onboarding.

Lemma click_in_range (steps : list OnboardingStep) (v : View) (b : Button) :
  match v with
  | Completed => True
  | Showing k => 0 ≤ k < Z.of_nat (length steps)
  end →
  match click steps v b with
  | Completed => True
  | Showing k => 0 ≤ k < Z.of_nat (length steps)
  end.
Proof.
  destruct v as [|k]; [done|]. intros Hk. destruct b; simpl.
  - unfold handleNext. case_decide; [done|]. lia.
  - case_decide; simpl; lia.
  - done.
Qed.

(** X27: whatever buttons are pressed, the wizard is finished or shows a step
    that exists: the step number stays within the list of steps, so the
    wizard never reads past it; with no step the wizard finishes at once. *)
Theorem wizard_shows_existing_step (steps : list OnboardingStep) (clicks : list Button) :
  match foldl (click steps) (start steps) clicks with
  | Completed => True
  | Showing k =>
      0 ≤ k < Z.of_nat (length steps) ∧ is_Some (steps !! Z.to_nat k)
  end ∧
  (steps = [] → foldl (click steps) (start steps) clicks = Completed).
Proof.
  assert (match foldl (click steps) (start steps) clicks with
          | Completed => True
          | Showing k => 0 ≤ k < Z.of_nat (length steps)
          end) as Hrange.
  { induction clicks as [|b clicks IH] using rev_ind.
    - unfold start. simpl. case_decide; [done|]. lia.
    - rewrite foldl_snoc. by apply click_in_range. }
  split.
  - destruct (foldl (click steps) (start steps) clicks) as [|k]; [done|].
    split; [done|]. apply lookup_lt_is_Some. lia.
  - intros ->. clear Hrange.
    induction clicks as [|b clicks IH] using rev_ind; [done|].
    by rewrite foldl_snoc, IH.
Qed.

(** X28: pressing next walks the steps in order and finishes after the last
    one: from the first render, [k] presses show step [k] while [k] is below
    the number of steps, and as many presses as there are steps, or more,
    finish the wizard. *)
Theorem wizard_next_count (steps : list OnboardingStep) (k : nat) :
  steps ≠ [] →
  foldl (click steps) (start steps) (replicate k Next) =
    if decide (k < length steps)%nat then Showing (Z.of_nat k) else Completed.
Proof.
  intros Hne.
  assert (0 < length steps)%nat as Hlen by (destruct steps; [done | simpl; lia]).
  induction k as [|k IH].
  - simpl. unfold start. rewrite decide_False by lia. by rewrite decide_True.
  - rewrite replicate_S_end, foldl_snoc, IH.
    destruct (decide (k < length steps)%nat) as [Hk|Hk]; simpl.
    + unfold handleNext. destruct (decide (S k < length steps)%nat).
      * rewrite decide_False by lia. f_equal. lia.
      * by rewrite decide_True by lia.
    + by rewrite decide_False by lia.
Qed.

End Wizard.

(** ** The two kinds of reset *)

Section Resets.
Import storage AdminSettings.

(** X29: after a partial reset a selected user who has a record for the
    month holds no points received and the points to give held before; the
    assignments are all kept. *)
Theorem partial_reset_effect (month : string) (selectedUsers : list string)
    (s : Store) (u : string) (a : MonthlyAllocation) :
  u ∈ selectedUsers →
  getUserAllocation u month s = Some a →
  let s' := handleResetPoints month partial selectedUsers s in
  getUserAllocation u month s' = Some (mkAllocation u month (pointsRemaining a) 0) ∧
  getAssignments s' = getAssignments s.
Proof.
  intros Hu Ha s'.
  destruct (handleResetPoints_reads month partial selectedUsers s) as (H1 & _ & H3).
  fold s' in H1, H3. split; [|done].
  rewrite H1, decide_True by done. rewrite Ha. simpl.
  apply getUserAllocation_key in Ha as [-> ->]. done.
Qed.

(** X30: a reset of either kind leaves alone the record of every user who is
    not selected and every record of another month; with no user selected it
    does nothing; and run a second time with the same selection it changes
    no record and no assignment. *)
Theorem reset_leaves_others (month : string) (resetType : ResetType)
    (selectedUsers : list string) (s : Store) :
  let s' := handleResetPoints month resetType selectedUsers s in
  (∀ u m, ¬ (u ∈ selectedUsers ∧ m = month) →
          getUserAllocation u m s' = getUserAllocation u m s) ∧
  handleResetPoints month resetType [] s = s ∧
  (∀ u m, getUserAllocation u m (handleResetPoints month resetType selectedUsers s')
          = getUserAllocation u m s') ∧
  getAssignments (handleResetPoints month resetType selectedUsers s')
    = getAssignments s'.
Proof.
  intros s'.
  destruct (handleResetPoints_reads month resetType selectedUsers s) as (H1 & _ & H3).
  destruct (handleResetPoints_reads month resetType selectedUsers s') as (H1' & _ & H3').
  fold s' in H1, H3. split_and!.
  - intros u m Hn. by rewrite H1, decide_False.
  - done.
  - intros u m. rewrite H1', H1. case_decide; [|done].
    destruct (getUserAllocation u m s); [|done]. simpl.
    by rewrite resetFields_twice.
  - rewrite H3', H3. destruct resetType; [done|].
    rewrite list_filter_filter. apply list_filter_iff. intros x. tauto.
Qed.

End Resets.

(** ** The further properties at work on the seeded store *)

Section MoreSamples.
Import storage Session AssignPoints AssignPointsView AdminConfig Ledger.
Import AdminSettings(partial, total, handleResetPoints).

Lemma demoStore_keys_unique : NoDup (allocationKeys (getAllocations demoStore)).
Proof. apply (bool_decide_unpack _). by vm_compute. Qed.

Lemma updateAllocation_keys_witness :
  NoDup (allocationKeys
           (getAllocations (updateAllocation (mkAllocation "9" demoMonth 10 0) demoStore))).
Proof.
  apply (proj2 (updateAllocation_keys (mkAllocation "9" demoMonth 10 0) demoStore)).
  exact demoStore_keys_unique.
Defined.

Lemma updateAllocation_last_write_witness :
  updateAllocation (mkAllocation "1" demoMonth 3 3)
    (updateAllocation (mkAllocation "1" demoMonth 9 9) demoStore)
  = updateAllocation (mkAllocation "1" demoMonth 3 3) demoStore.
Proof.
  exact (proj1 (updateAllocation_last_write (mkAllocation "1" demoMonth 3 3)
                  (mkAllocation "1" demoMonth 9 9) demoStore eq_refl eq_refl)).
Defined.

Lemma handleResetPoints_keeps_keys_witness :
  getUserAllocation "9" demoMonth demoStore = None ∧
  ¬ is_Some (getUserAllocation "9" demoMonth
               (handleResetPoints demoMonth total ["9"; "1"] demoStore)).
Proof.
  assert (getUserAllocation "9" demoMonth demoStore = None) as HN
    by (vm_compute; reflexivity).
  split; [exact HN|].
  destruct (handleResetPoints_keeps_keys demoMonth total ["9"; "1"] demoStore)
    as (_ & Hiff & _).
  intros Hs. apply (proj1 (Hiff "9" demoMonth)) in Hs. rewrite HN in Hs.
  exact (is_Some_None Hs).
Defined.

Lemma reachable_one_record_per_key_witness :
  let s := handleResetPoints demoMonth total ["1"] demoStore in
  reachable asciiTrim demoMonth true true s ∧
  NoDup (allocationKeys (getAllocations s)).
Proof.
  intros s.
  assert (reachable asciiTrim demoMonth true true s) as Hr.
  { apply reach_reset; [apply reach_seed | reflexivity |].
    intros i Hi. apply list_elem_of_singleton in Hi as ->.
    apply (bool_decide_unpack _). by vm_compute. }
  split; [exact Hr|].
  exact (reachable_one_record_per_key asciiTrim demoMonth true true s Hr).
Defined.

Lemma initializeDemoData_once_witness :
  initializeDemoData "2026-12" (demoNow + 1) demoStore = demoStore.
Proof.
  apply (proj2 (proj2 (proj2
           (initializeDemoData_once "2026-12" "2027-01" (demoNow + 1) 0 demoStore)))).
  vm_compute. discriminate.
Defined.


Lemma handleSubmit_received_witness :
  let f := juanToMaria 3 "Liderazgo" in
  let s' := snd (handleSubmit asciiTrim demoMonth "t-1" demoNow f demoStore) in
  getReceivedPoints "1" s' =
    getReceivedPoints "1" demoStore
      ++ [mkAssignment "t-1" "2" "1" 3 "Liderazgo" None demoNow demoMonth] ∧
  getReceivedPoints "2" s' = getReceivedPoints "2" demoStore.
Proof.
  intros f s'.
  assert (category f ≠ "") as Hc by (vm_compute; discriminate).
  destruct (handleSubmit_received asciiTrim demoMonth "t-1" demoNow f demoStore maria
              eq_refl Hc) as [H1 H2].
  split; [exact H1|]. apply H2. vm_compute. discriminate.
Defined.

Lemma dialog_never_offers_sender_witness :
  let f := mount demoMonth demoStore juan in
  maria ∈ filteredUsers asciiToLowerCase "GARC" f ∧
  maria ∈ getUsers demoStore ∧ user_id maria ≠ user_id juan.
Proof.
  intros f.
  assert (maria ∈ filteredUsers asciiToLowerCase "GARC" f) as Hin.
  { apply (bool_decide_unpack _). by vm_compute. }
  split; [exact Hin|].
  exact (dialog_never_offers_sender asciiToLowerCase demoMonth "GARC" demoStore juan
           maria f eq_refl Hin).
Defined.

Lemma filteredUsers_empty_search_witness :
  filteredUsers asciiToLowerCase "" (mount demoMonth demoStore juan)
    = users (mount demoMonth demoStore juan).
Proof.
  exact (proj1 (filteredUsers_empty_search asciiToLowerCase
                  (mount demoMonth demoStore juan) eq_refl)).
Defined.

Lemma enabled_controls_pass_validation_witness :
  snd (validateForm (juanToMaria 3 "Liderazgo")) = true.
Proof.
  apply enabled_controls_pass_validation.
  - by eexists.
  - vm_compute. reflexivity.
  - vm_compute. discriminate.
  - right. split.
    + apply (bool_decide_unpack _). by vm_compute.
    + vm_compute. reflexivity.
Defined.

Lemma handleAddCategory_distinct_names_witness :
  NoDup (lowerNames asciiToLowerCase
           (handleAddCategory asciiTrim asciiToLowerCase "Puntualidad"
              getDefaultConfig).1.1).
Proof.
  apply handleAddCategory_distinct_names.
  - vm_compute. reflexivity.
  - apply (bool_decide_unpack _). by vm_compute.
Defined.

(** "Liderazgo" typed with a space before it. *)
Lemma handleAddCategory_padded_duplicate_witness :
  cat_name <$> categories
    (handleAddCategory asciiTrim asciiToLowerCase " Liderazgo" getDefaultConfig).1.1
  = (cat_name <$> categories getDefaultConfig) ++ ["Liderazgo"] ∧
  ¬ NoDup (lowerNames asciiToLowerCase
             (handleAddCategory asciiTrim asciiToLowerCase " Liderazgo"
                getDefaultConfig).1.1).
Proof.
  destruct (handleAddCategory_padded_duplicate asciiTrim asciiToLowerCase " Liderazgo"
              getDefaultConfig (mkCategory "Liderazgo" true)) as [H1 H2].
  - vm_compute. discriminate.
  - apply (bool_decide_unpack _). by vm_compute.
  - apply list_elem_of_lookup_2 with 2%nat. reflexivity.
  - vm_compute. reflexivity.
  - split; [|exact H2]. rewrite H1. vm_compute. reflexivity.
Defined.

Lemma handleRemoveCategory_undoes_add_witness :
  (handleRemoveCategory "Puntualidad"
     (handleAddCategory asciiTrim asciiToLowerCase "Puntualidad " getDefaultConfig).1.1).1
  = getDefaultConfig.
Proof.
  apply (handleRemoveCategory_undoes_add asciiTrim asciiToLowerCase "Puntualidad "
           getDefaultConfig).
  - vm_compute. discriminate.
  - apply (bool_decide_unpack _). by vm_compute.
  - apply (bool_decide_unpack _). by vm_compute.
Defined.

Lemma onboarding_steps_bounded_witness :
  ∃ c t steps', handleAddOnboardingStep getDefaultConfig = Some (c, t) ∧
                onboardingSteps c = Some steps' ∧ length steps' = 5%nat.
Proof.
  destruct (onboarding_steps_bounded getDefaultConfig
              (default [] (onboardingSteps getDefaultConfig)) eq_refl)
    as [(c & t & steps' & H1 & H2 & _ & _ & H5) _].
  - vm_compute. split; apply le_S_n; repeat constructor.
  - exists c, t, steps'. split_and!; [exact H1 | exact H2 |].
    rewrite H5; [reflexivity|]. vm_compute. repeat constructor.
Defined.

(** Saving the configuration with "Innovación" switched off. *)
Lemma handleSaveConfig_keeps_usable_witness :
  handleSaveConfig configWithoutInnovacion demoStore
    = Some (setSystemConfig configWithoutInnovacion demoStore,
            toastSuccess "Configuración guardada exitosamente") ∧
  length (enabledCategories (setSystemConfig configWithoutInnovacion demoStore)) = 7%nat.
Proof.
  destruct (handleSaveConfig_keeps_usable configWithoutInnovacion demoStore)
    as (_ & _ & H & _).
  destruct (H (default [] (onboardingSteps configWithoutInnovacion)))
    as (H1 & H2 & _).
  - vm_compute. discriminate.
  - reflexivity.
  - vm_compute. discriminate.
  - split; [exact H1|]. rewrite H2. vm_compute. reflexivity.
Defined.

(** Picking outlook on the default configuration: the provider stays gmail. *)
Lemma handleSMTPProviderChange_last_call_witness :
  ∃ c e', handleSMTPProviderChange outlook getDefaultConfig = Some c ∧
          emailNotifications c = Some e' ∧
          smtpProvider e' = gmail ∧ smtpHost e' = "smtp.gmail.com" ∧ smtpPort e' = 587.
Proof.
  destruct (handleSMTPProviderChange_last_call outlook getDefaultConfig
              (default (mkEmailConfig false false false [] gmail "" 0 "" "" "" "")
                 (emailNotifications getDefaultConfig)) eq_refl)
    as (c & e' & H1 & H2 & _ & _ & _ & _ & _ & H8).
  destruct H8 as (P1 & P2 & P3); [discriminate|].
  exists c, e'. split_and!; [exact H1 | exact H2 | exact P1 | exact P2 | exact P3].
Defined.

Lemma toggleSelectedUser_flips_witness :
  toggleSelectedUser "4" (toggleSelectedUser "4" ["1"; "2"]) = ["1"; "2"].
Proof.
  apply (toggleSelectedUser_flips "4" ["1"; "2"]).
  apply (bool_decide_unpack _). by vm_compute.
Defined.

Lemma handleLogin_outcome_witness :
  let r := Login.handleLogin asciiToLowerCase demoMonth "nadie@grupoprominente.com"
             demoStore in
  Login.store r = demoStore ∧
  Login.error r = Login.errorText Login.UserNotFound.
Proof.
  intros r.
  destruct (handleLogin_outcome asciiToLowerCase demoMonth "nadie@grupoprominente.com"
              demoStore) as (_ & _ & H).
  destruct H as (H1 & _ & H3); [vm_compute; reflexivity|].
  split; [exact H1 | exact H3].
Defined.

(** Juan, the third of the stored users, on the shortcut in December. *)
Lemma handleDemoLogin_outcome_witness :
  let r := DemoLogin.handleDemoLogin "2026-12" "juan.perez@grupoprominente.com"
             demoStore in
  Login.onLogin r = Some juan ∧
  ∃ v, Login.onLogin r = Some v ∧
       is_Some (getUserAllocation (user_id v) "2026-12" (Login.store r)).
Proof.
  intros r.
  destruct (handleDemoLogin_outcome "2026-12" "juan.perez@grupoprominente.com" demoStore)
    as (Hsome & Hfirst & _).
  split.
  - apply (Hfirst 2%nat juan).
    + vm_compute. reflexivity.
    + reflexivity.
    + intros j w Hj Hlt.
      destruct j as [|[|j]]; [| |lia]; vm_compute in Hj;
        injection Hj as <-; vm_compute; discriminate.
  - destruct (Hsome juan) as (i & v & _ & _ & _ & H1 & _ & H3 & _).
    + apply (bool_decide_unpack _). by vm_compute.
    + reflexivity.
    + exists v. split; [exact H1 | exact H3].
Defined.

(** Two points recorded under a category an administrator named
    "constructor": its total is a text, the other totals are numbers. *)
Lemma categoryTotals_lookup_witness :
  let s := addAssignment
             (mkAssignment "t-3" "2" "1" 2 "constructor" None demoNow demoMonth)
             demoStore in
  PeopleDashboard.categoryTotals (PeopleDashboard.loadData demoMonth s) !! "constructor"
    = Some PeopleDashboard.text ∧
  PeopleDashboard.categoryTotals (PeopleDashboard.loadData demoMonth s) !! "Liderazgo"
    = Some (PeopleDashboard.number 4).
Proof.
  intros s. split.
  - rewrite (proj1 (categoryTotals_lookup demoMonth s "constructor")).
    vm_compute. reflexivity.
  - rewrite (proj1 (categoryTotals_lookup demoMonth s "Liderazgo")).
    vm_compute. reflexivity.
Defined.

Lemma report_rows_add_up_witness :
  foldr Z.add 0
    (PeopleDashboard.row_pointsReceived
       <$> PeopleDashboard.reportData (PeopleDashboard.loadData demoMonth demoStore))
  = DashboardStats.totalPointsCirculating (PeopleDashboard.loadData demoMonth demoStore).
Proof.
  apply report_rows_add_up.
  - apply (bool_decide_unpack _). by vm_compute.
  - apply (bool_decide_unpack _). by vm_compute.
Defined.

Lemma report_agrees_with_ledger_witness :
  ∃ a, getUserAllocation "1" demoMonth demoStore = Some a ∧
       PeopleDashboard.row_pointsReceived
         (PeopleDashboard.reportRow demoMonth demoStore maria) = pointsReceived a ∧
       PeopleDashboard.pointsGiven (PeopleDashboard.reportRow demoMonth demoStore maria)
         = givenIn "1" demoMonth (getAssignments demoStore).
Proof.
  apply (report_agrees_with_ledger asciiTrim demoMonth demoStore maria).
  - apply reach_seed.
  - apply (bool_decide_unpack _). by vm_compute.
Defined.

Lemma wizard_shows_existing_step_witness :
  foldl (Onboarding.click []) (Onboarding.start []) [Onboarding.Next; Onboarding.Previous]
    = Onboarding.Completed.
Proof.
  exact (proj2 (wizard_shows_existing_step []
                  [Onboarding.Next; Onboarding.Previous]) eq_refl).
Defined.

Lemma wizard_next_count_witness :
  let steps := Onboarding.steps demoStore in
  foldl (Onboarding.click steps) (Onboarding.start steps) (replicate 3 Onboarding.Next)
    = Onboarding.Showing 3 ∧
  foldl (Onboarding.click steps) (Onboarding.start steps) (replicate 4 Onboarding.Next)
    = Onboarding.Completed.
Proof.
  intros steps.
  assert (steps ≠ []) as Hne by (vm_compute; discriminate).
  split.
  - exact (wizard_next_count steps 3 Hne).
  - exact (wizard_next_count steps 4 Hne).
Defined.

Lemma partial_reset_effect_witness :
  let s' := handleResetPoints demoMonth partial ["1"] demoStore in
  getUserAllocation "1" demoMonth s' = Some (mkAllocation "1" demoMonth 8 0) ∧
  getAssignments s' = getAssignments demoStore.
Proof.
  intros s'.
  assert (getUserAllocation "1" demoMonth demoStore
            = Some (mkAllocation "1" demoMonth 8 5)) as Ha
    by (vm_compute; reflexivity).
  exact (partial_reset_effect demoMonth ["1"] demoStore "1" _ ltac:(by left) Ha).
Defined.

Lemma reset_leaves_others_witness :
  getUserAllocation "2" demoMonth (handleResetPoints demoMonth total ["1"] demoStore)
    = getUserAllocation "2" demoMonth demoStore.
Proof.
  apply (proj1 (reset_leaves_others demoMonth total ["1"] demoStore) "2" demoMonth).
  intros [Hin _]. apply list_elem_of_singleton in Hin. discriminate Hin.
Defined.

End MoreSamples.
